(** * Clonotype distance engine of scirpy

    A shallow embedding of [scirpy/ir_dist/_clonotype_neighbors.py]
    (class [ClonotypeNeighbors]) and of the call made by
    [scirpy/tl/_ir_query.py], together with the properties of the
    table builder, the two reducers, the per-clonotype aggregator and the
    orchestrator.

    Python exceptions are values of [exn]; a computation that may raise
    returns a [result].  numpy float arrays are lists of [fval]; pandas
    frames are lists of records (one association list per row). *)

From Stdlib Require Import List String ZArith Lia Bool Arith Permutation.
Import ListNotations.
Local Open Scope string_scope.
Local Open Scope list_scope.

Set Implicit Arguments.

(** ** Exceptions *)

Inductive exn : Type :=
| ValueError (msg : string)
| AssertionError (msg : string)
| KeyError (key : string)
| IndexError
| TypeError (msg : string).

Inductive result (A : Type) : Type :=
| Ok (a : A)
| Raise (e : exn).

Arguments Ok {A} a.
Arguments Raise {A} e.

Definition bind {A B : Type} (r : result A) (k : A -> result B) : result B :=
  match r with
  | Ok a => k a
  | Raise e => Raise e
  end.

Notation "x <- r ;; k" := (bind r (fun x => k))
  (at level 61, r at next level, right associativity).

Fixpoint mapM {A B : Type} (f : A -> result B) (l : list A) : result (list B) :=
  match l with
  | [] => Ok []
  | a :: l' => b <- f a ;; bs <- mapM f l' ;; Ok (b :: bs)
  end.

(** ** Float arrays

    The arrays handled by the reducers hold the distances read from the
    sequence distance matrices (integers stored as floats), the stand-in
    [np.inf] written by the reducers, and [np.nan] for a missing chain. *)

Inductive fval : Type :=
| NaN
| Inf
| Num (z : Z).

(** [x == 0] *)
Definition is_zero (x : fval) : bool :=
  match x with
  | Num z => Z.eqb z 0
  | _ => false
  end.

(** [np.isnan], [np.isinf] *)
Definition isnan (x : fval) : bool :=
  match x with NaN => true | _ => false end.

Definition isinf (x : fval) : bool :=
  match x with Inf => true | _ => false end.

(** [tmp_array[tmp_array == 0] = np.inf], one element *)
Definition zero_to_inf (x : fval) : fval :=
  if is_zero x then Inf else x.

(** [tmp_array[np.isinf(tmp_array)] = 0], one element *)
Definition inf_to_zero (x : fval) : fval :=
  if isinf x then Num 0 else x.

(** The binary step of [np.nanmax]: a NaN operand is ignored. *)
Definition fmax (a b : fval) : fval :=
  match a, b with
  | NaN, _ => b
  | _, NaN => a
  | Inf, _ => Inf
  | _, Inf => Inf
  | Num x, Num y => Num (Z.max x y)
  end.

(** The binary step of [np.nanmin]. *)
Definition fmin (a b : fval) : fval :=
  match a, b with
  | NaN, _ => b
  | _, NaN => a
  | Inf, _ => b
  | _, Inf => a
  | Num x, Num y => Num (Z.min x y)
  end.

(** [np.nanmax] and [np.nanmin] along one column; a column of NaN only
    gives NaN. *)
Definition nanmax (col : list fval) : fval := fold_right fmax NaN col.
Definition nanmin (col : list fval) : fval := fold_right fmin NaN col.

(** [np.sum(np.isnan(col))] *)
Definition count_nan (col : list fval) : nat :=
  List.length (filter isnan col).

(** [np.multiply(x, mask)] for a float [x] and a boolean [mask] *)
Definition mul_mask (x : fval) (mask : bool) : fval :=
  match x with
  | NaN => NaN
  | Inf => if mask then Inf else NaN
  | Num z => if mask then Num z else Num 0
  end.

(** [np.vstack(args)]: the operands become the rows of one array; numpy
    raises on an empty sequence and on rows of different lengths. *)
Definition vstack (args : list (list fval)) : result (list (list fval)) :=
  match args with
  | [] => Raise (ValueError "need at least one array to concatenate")
  | r :: rest =>
      if forallb (fun r' => Nat.eqb (List.length r') (List.length r)) rest
      then Ok args
      else Raise (ValueError "all the input array dimensions must match")
  end.

Definition width (m : list (list fval)) : nat :=
  match m with
  | [] => 0
  | r :: _ => List.length r
  end.

(** Column [j] of a stacked array (the slice reduced by [axis=0]). *)
Definition column (m : list (list fval)) (j : nat) : list fval :=
  map (fun r => nth j r NaN) m.

Definition columns (m : list (list fval)) : list (list fval) :=
  map (column m) (seq 0 (width m)).

(** ** Frames

    A frame is the list of its rows; a row maps column names to entries.
    After table construction an entry is a string, or the tuple of the
    grouping values in column [within_group]. *)

Inductive entry : Type :=
| ENaN
| EStr (s : string)
| ETuple (t : list string).

Definition entry_eq_dec (a b : entry) : {a = b} + {a <> b}.
Proof.
  decide equality; [apply string_dec | apply (list_eq_dec string_dec)].
Defined.

Definition entry_eqb (a b : entry) : bool :=
  if entry_eq_dec a b then true else false.

Definition record : Type := list (string * entry).
Definition DataFrame : Type := list record.

(** [row[col]] *)
Fixpoint get_field (r : record) (col : string) : result entry :=
  match r with
  | [] => Raise (KeyError col)
  | (c, v) :: r' => if String.eqb c col then Ok v else get_field r' col
  end.

(** [df[col].values] *)
Definition get_column (df : DataFrame) (col : string) : result (list entry) :=
  mapM (fun r => get_field r col) df.

(** [df.loc[:, cols].iloc[i, :].values] *)
Definition loc_iloc (df : DataFrame) (cols : list string) (i : nat)
  : result (list entry) :=
  _ <- mapM (get_column df) cols ;;
  match nth_error df i with
  | None => Raise IndexError
  | Some r => mapM (get_field r) cols
  end.

(** [x == "nan"] *)
Definition is_nan_str (e : entry) : bool :=
  match e with
  | EStr s => String.eqb s "nan"
  | _ => false
  end.

(** ** The reducers of [_dist_for_clonotype] *)

(** [chain_count]: the number of listed columns holding ["nan"] in row
    [ct_id] of the clonotype table. *)
Definition chain_count (clonotypes : DataFrame) (ct_id : nat)
  (cols : list string) : result nat :=
  vals <- loc_iloc clonotypes cols ct_id ;;
  Ok (List.length (filter is_nan_str vals)).

(** One output column of [reduce_and]. *)
Definition and_column (count : nat) (col : list fval) : fval :=
  let tmp := map zero_to_inf col in
  let same_count_mask := Nat.eqb (count_nan tmp) count in
  mul_mask (inf_to_zero (nanmax tmp)) same_count_mask.

Definition reduce_and (clonotypes : DataFrame) (ct_id : nat)
  (args : list (list fval)) (cols : list string) : result (list fval) :=
  count <- chain_count clonotypes ct_id cols ;;
  tmp_array <- vstack args ;;
  Ok (map (and_column count) (columns tmp_array)).

(** One output column of [reduce_or]. *)
Definition or_column (col : list fval) : fval :=
  inf_to_zero (nanmin (map zero_to_inf col)).

Definition reduce_or (args : list (list fval)) : result (list fval) :=
  tmp_array <- vstack args ;;
  Ok (map or_column (columns tmp_array)).

(** ** Cell annotations and configuration *)

(** A field of [adata.obs]: missing, or a string. *)
Inductive value : Type :=
| VNaN
| VStr (s : string).

(** [.astype(str)], one element *)
Definition astype_str (v : value) : string :=
  match v with
  | VNaN => "nan"
  | VStr s => s
  end.

Definition entry_of_value (v : value) : entry :=
  match v with
  | VNaN => ENaN
  | VStr s => EStr s
  end.

(** One row of [adata.obs]; [has_ir] is the outcome of [_is_true] on the
    cell's [has_ir] field. *)
Record cell : Type := {
  obs_name : string;
  has_ir : bool;
  field : string -> value
}.

(** [adata.uns[distance_key][arm]] *)
Record SeqDist : Type := {
  distances : list (list Z);
  seqs : list entry
}.

(** [obs_columns] are the column labels of [adata.obs], [obs] its rows. *)
Record AnnData : Type := {
  obs_columns : list string;
  obs : list cell;
  uns : list (string * list (string * SeqDist))
}.

Inductive receptor_arms_t : Type := arms_VJ | arms_VDJ | arms_all | arms_any.
Inductive dual_ir_t : Type := primary_only | dual_all | dual_any.
Inductive arm : Type := VJ | VDJ.
Inductive chain : Type := chain1 | chain2.

Definition arm_name (a : arm) : string :=
  match a with VJ => "VJ" | VDJ => "VDJ" end.

Definition chain_name (c : chain) : string :=
  match c with chain1 => "1" | chain2 => "2" end.

Definition arm_eqb (a b : arm) : bool :=
  match a, b with
  | VJ, VJ | VDJ, VDJ => true
  | _, _ => false
  end.

Definition chain_eqb (a b : chain) : bool :=
  match a, b with
  | chain1, chain1 | chain2, chain2 => true
  | _, _ => false
  end.

(** The keyword arguments stored by [__init__]. *)
Record Config : Type := {
  receptor_arms : receptor_arms_t;
  dual_ir : dual_ir_t;
  same_v_gene : bool;
  within_group : option (list string);
  distance_key : string;
  sequence_key : string;
  n_jobs : option nat
}.

Definition _receptor_arm_cols (cfg : Config) : list arm :=
  match receptor_arms cfg with
  | arms_all | arms_any => [VJ; VDJ]
  | arms_VJ => [VJ]
  | arms_VDJ => [VDJ]
  end.

Definition _dual_ir_cols (cfg : Config) : list chain :=
  match dual_ir cfg with
  | primary_only => [chain1]
  | _ => [chain1; chain2]
  end.

(** [itertools.product] *)
Definition product {A B : Type} (l1 : list A) (l2 : list B) : list (A * B) :=
  flat_map (fun a => map (fun b => (a, b)) l2) l1.

(** [f"IR_{arm}_{i}_{self.sequence_key}"] *)
Definition cdr3_col (cfg : Config) (a : arm) (c : chain) : string :=
  "IR_" ++ arm_name a ++ "_" ++ chain_name c ++ "_" ++ sequence_key cfg.

(** [f"IR_{arm}_{i}_v_gene"] *)
Definition v_gene_col (a : arm) (c : chain) : string :=
  "IR_" ++ arm_name a ++ "_" ++ chain_name c ++ "_v_gene".

Definition _cdr3_cols (cfg : Config) : list string :=
  map (fun ac => cdr3_col cfg (fst ac) (snd ac))
      (product (_receptor_arm_cols cfg) (_dual_ir_cols cfg)).

Definition _v_gene_cols (cfg : Config) : list string :=
  if same_v_gene cfg
  then map (fun ac => v_gene_col (fst ac) (snd ac))
           (product (_receptor_arm_cols cfg) (_dual_ir_cols cfg))
  else [].

Definition clonotype_cols (cfg : Config) : list string :=
  _cdr3_cols cfg ++ _v_gene_cols cfg ++
  match within_group cfg with
  | Some g => g
  | None => []
  end.

(** ** Grouping *)

(** [col in df.columns] *)
Definition has_column (cols : list string) (col : string) : bool :=
  existsb (String.eqb col) cols.

(** [obs_names.is_unique] *)
Fixpoint is_unique (names : list string) : bool :=
  match names with
  | [] => true
  | x :: l => negb (existsb (String.eqb x) l) && is_unique l
  end.

Definition tuple_eqb (a b : list entry) : bool :=
  if list_eq_dec entry_eq_dec a b then true else false.

(** The distinct tuples in order of first appearance ([sort=False]). *)
Fixpoint unique_first (l : list (list entry)) : list (list entry) :=
  match l with
  | [] => []
  | x :: l' => x :: filter (fun y => negb (tuple_eqb x y)) (unique_first l')
  end.

(** A key of [groupby(...).indices]: the bare value when the frame is
    grouped by one column, the tuple of values otherwise. *)
Inductive gkey : Type :=
| KScalar (e : entry)
| KTuple (t : list entry).

Definition gkey_eqb (a b : gkey) : bool :=
  match a, b with
  | KScalar x, KScalar y => entry_eqb x y
  | KTuple x, KTuple y => tuple_eqb x y
  | _, _ => false
  end.

Definition group_key (t : list entry) : gkey :=
  match t with
  | [e] => KScalar e
  | _ => KTuple t
  end.

(** Positions of the rows of [rows] equal to [t]. *)
Definition positions (rows : list (list entry)) (t : list entry) : list nat :=
  map fst (filter (fun ir => tuple_eqb (snd ir) t)
                  (combine (seq 0 (List.length rows)) rows)).

Record GroupBy : Type := {
  gb_cols : list string;
  gb_keys : list (list entry);
  gb_indices : list (gkey * list nat)
}.

(** [frame.groupby(cols, sort=False, observed=True)] for a frame whose
    columns are [cols]. *)
Definition groupby (frame : DataFrame) (cols : list string) : GroupBy :=
  let rows := map (map snd) frame in
  let keys := unique_first rows in
  {| gb_cols := cols;
     gb_keys := keys;
     gb_indices := map (fun t => (group_key t, positions rows t)) keys |}.

(** [groupby.size().index.to_frame(index=False)] *)
Definition index_to_frame (g : GroupBy) : DataFrame :=
  map (combine (gb_cols g)) (gb_keys g).

(** [d.get(key, [])] *)
Fixpoint dict_get (d : list (gkey * list nat)) (key : gkey) : list nat :=
  match d with
  | [] => []
  | (k, v) :: d' => if gkey_eqb k key then v else dict_get d' key
  end.

(** [frame.itertuples(index=False, name=None)] *)
Definition itertuples (frame : DataFrame) : list (list entry) :=
  map (map snd) frame.

(** [del row[col]] *)
Definition del_field (col : string) (r : record) : result record :=
  _ <- get_field r col ;;
  Ok (filter (fun cv => negb (String.eqb (fst cv) col)) r).

(** [row[col] = v] *)
Fixpoint set_field (r : record) (col : string) (v : entry) : record :=
  match r with
  | [] => [(col, v)]
  | (c, w) :: r' =>
      if String.eqb c col then (c, v) :: r' else (c, w) :: set_field r' col v
  end.

Definition entry_str (e : entry) : string :=
  match e with
  | EStr s => s
  | ENaN => "nan"
  | ETuple _ => ""
  end.

Fixpoint del_fields (cols : list string) (r : record) : result record :=
  match cols with
  | [] => Ok r
  | c :: cols' => r' <- del_field c r ;; del_fields cols' r'
  end.

(** Lines 108-114 on one row, for a non-empty list of grouping columns:
    the grouping columns are folded into the tuple column [within_group];
    the columns hold strings at this point.  (With an empty list line 114
    raises, see [_make_clonotype_table].) *)
Definition fold_within_group (g : list string) (r : record) : result record :=
  t <- mapM (get_field r) g ;;
  r' <- del_fields g r ;;
  Ok (set_field r' "within_group" (ETuple (map entry_str t))).

(** ** The neighbor finder *)

Record DistanceMatrix : Type := {
  dm_values : list (list Z);
  dm_labels : list entry
}.

Record LookupTable : Type := {
  lt_distance_matrix : string;
  lt_forward : list (option nat)
}.

Record DoubleLookupNeighborFinder : Type := {
  feature_table : DataFrame;
  distance_matrices : list (string * DistanceMatrix);
  lookups : list (string * LookupTable)
}.

(** [d[key]] on a dictionary with string keys *)
Fixpoint dict_find {A : Type} (d : list (string * A)) (key : string) : result A :=
  match d with
  | [] => Raise (KeyError key)
  | (k, v) :: d' => if String.eqb k key then Ok v else dict_find d' key
  end.

(** [d[key] = v] *)
Fixpoint dict_set {A : Type} (d : list (string * A)) (key : string) (v : A)
  : list (string * A) :=
  match d with
  | [] => [(key, v)]
  | (k, w) :: d' =>
      if String.eqb k key then (k, v) :: d' else (k, w) :: dict_set d' key v
  end.

(** Modelled from the spec: the constructor of [DoubleLookupNeighborFinder]
    (module [ir_dist/_util], not among the sources); it keeps the clonotype
    table and starts with no matrix and no lookup table. *)
Definition new_neighbor_finder (clonotypes : DataFrame)
  : DoubleLookupNeighborFinder :=
  {| feature_table := clonotypes; distance_matrices := []; lookups := [] |}.

(** Modelled from the spec: [add_distance_matrix] of the neighbor finder
    (module [ir_dist/_util], not among the sources); it registers a matrix
    and its label array under a name, and the length of the label array must
    equal each dimension of the matrix. *)
Definition add_distance_matrix (nf : DoubleLookupNeighborFinder)
  (name : string) (distance_matrix : list (list Z)) (labels : list entry)
  : result DoubleLookupNeighborFinder :=
  let n := List.length labels in
  if Nat.eqb (List.length distance_matrix) n
     && forallb (fun r => Nat.eqb (List.length r) n) distance_matrix
  then Ok {| feature_table := feature_table nf;
             distance_matrices :=
               dict_set (distance_matrices nf) name
                 {| dm_values := distance_matrix; dm_labels := labels |};
             lookups := lookups nf |}
  else Raise (ValueError "Dimension mismatch")
.

(** Index of the first label equal to [v], if any. *)
Fixpoint label_index (labels : list entry) (v : entry) : option nat :=
  match labels with
  | [] => None
  | l :: labels' =>
      if entry_eqb l v then Some 0
      else option_map S (label_index labels' v)
  end.

(** Modelled from the spec: [add_lookup_table] of the neighbor finder
    (module [ir_dist/_util], not among the sources); for each clonotype row
    it resolves the value of the column to an index into the label array of
    the named matrix, or to "absent". *)
Definition add_lookup_table (nf : DoubleLookupNeighborFinder)
  (table_name clonotype_column distance_matrix_name : string)
  : result DoubleLookupNeighborFinder :=
  dm <- dict_find (distance_matrices nf) distance_matrix_name ;;
  col <- get_column (feature_table nf) clonotype_column ;;
  Ok {| feature_table := feature_table nf;
        distance_matrices := distance_matrices nf;
        lookups :=
          dict_set (lookups nf) table_name
            {| lt_distance_matrix := distance_matrix_name;
               lt_forward := map (label_index (dm_labels dm)) col |} |}.

(** Entry [(i, j)] of a matrix; an entry that is not stored is 0. *)
Definition matrix_entry (m : list (list Z)) (i j : nat) : Z :=
  nth j (nth i m []) 0%Z.

(** Modelled from the spec: [lookup] of the neighbor finder (module
    [ir_dist/_util], not among the sources); it resolves the label of the
    clonotype through the first table, takes that row of the distance matrix
    backing both tables, and re-expresses it over the clonotypes addressed by
    the second table; a clonotype without a label gives an all-zero row. *)
Definition lookup (nf : DoubleLookupNeighborFinder) (clonotype_id : nat)
  (table_a table_b : string) : result (list Z) :=
  ta <- dict_find (lookups nf) table_a ;;
  tb <- dict_find (lookups nf) table_b ;;
  if negb (String.eqb (lt_distance_matrix ta) (lt_distance_matrix tb))
  then Raise (AssertionError "both tables must reference the same matrix")
  else
    dm <- dict_find (distance_matrices nf) (lt_distance_matrix ta) ;;
    match nth_error (lt_forward ta) clonotype_id with
    | None => Raise IndexError
    | Some None => Ok (map (fun _ => 0%Z) (lt_forward tb))
    | Some (Some i) =>
        Ok (map (fun ob => match ob with
                           | Some j => matrix_entry (dm_values dm) i j
                           | None => 0%Z
                           end) (lt_forward tb))
    end.

(** [sp.identity(n, dtype=bool)] *)
Definition identity (n : nat) : list (list Z) :=
  map (fun i => map (fun j => if Nat.eqb i j then 1%Z else 0%Z) (seq 0 n))
      (seq 0 n).

(** ** Sparse rows and matrices *)

(** A [1 x ncols] csr matrix: the stored column indices and their data. *)
Record sparse_row : Type := {
  ncols : nat;
  indices : list nat;
  data : list fval
}.

Record csr_matrix : Type := {
  shape : nat * nat;
  rows : list (list nat * list fval)
}.

(** The value at column [j]: the datum stored for [j], 0 when none is. *)
Fixpoint stored (ix : list nat) (d : list fval) (j : nat) : fval :=
  match ix, d with
  | i :: ix', x :: d' => if Nat.eqb i j then x else stored ix' d' j
  | _, _ => Num 0
  end.

Definition row_get (r : sparse_row) (j : nat) : fval :=
  stored (indices r) (data r) j.

Definition csr_get (m : csr_matrix) (i j : nat) : fval :=
  match nth_error (rows m) i with
  | Some (ix, d) => stored ix d j
  | None => Num 0
  end.

(** [sp.vstack(blocks)] for blocks of one row each; scipy raises on an
    empty sequence and on blocks of different widths. *)
Definition sp_vstack (blocks : list sparse_row) : result csr_matrix :=
  match blocks with
  | [] => Raise (ValueError "blocks must be 2-D")
  | b :: rest =>
      if forallb (fun b' => Nat.eqb (ncols b') (ncols b)) rest
      then Ok {| shape := (List.length blocks, ncols b);
                 rows := map (fun r => (indices r, data r)) blocks |}
      else Raise (ValueError "incompatible dimensions")
  end.

(** [m.eliminate_zeros()]: the stored entries equal to 0 are dropped. *)
Definition eliminate_zeros_row (r : list nat * list fval) : list nat * list fval :=
  split (filter (fun ix => negb (is_zero (snd ix))) (combine (fst r) (snd r))).

Definition eliminate_zeros (m : csr_matrix) : csr_matrix :=
  {| shape := shape m; rows := map eliminate_zeros_row (rows m) |}.

(** ** The prepared engine *)

Record ClonotypeNeighbors : Type := {
  config : Config;
  distance_dict : list (string * SeqDist);
  neighbor_finder : DoubleLookupNeighborFinder;
  clonotypes : DataFrame;
  cell_indices : list (list string)
}.

(** ** The aggregator: [_dist_for_clonotype] *)

Definition chain_ids (cfg : Config) : list (chain * chain) :=
  match dual_ir cfg with
  | primary_only => [(chain1, chain1)]
  | _ => [(chain1, chain1); (chain2, chain2); (chain1, chain2); (chain2, chain1)]
  end.

(** [f"{tmp_arm}_{c}"] *)
Definition table_name (a : arm) (c : chain) : string :=
  arm_name a ++ "_" ++ chain_name c.

Definition lookup_key : Type := (arm * chain * chain)%type.

Definition lookup_key_eqb (k1 k2 : lookup_key) : bool :=
  match k1, k2 with
  | (a1, c1, d1), (a2, c2, d2) =>
      arm_eqb a1 a2 && chain_eqb c1 c2 && chain_eqb d1 d2
  end.

(** The dictionary [lookup] filled by the first loop. *)
Definition fill_lookup (self : ClonotypeNeighbors) (ct_id : nat)
  : result (list (lookup_key * list Z)) :=
  mapM (fun ac =>
          match ac with
          | (tmp_arm, (c1, c2)) =>
              x <- lookup (neighbor_finder self) ct_id
                     (table_name tmp_arm c1) (table_name tmp_arm c2) ;;
              Ok ((tmp_arm, c1, c2), x)
          end)
       (product (_receptor_arm_cols (config self)) (chain_ids (config self))).

Fixpoint lookup_find (d : list (lookup_key * list Z)) (k : lookup_key)
  : result (list Z) :=
  match d with
  | [] => Raise (KeyError "lookup")
  | (k', x) :: d' => if lookup_key_eqb k' k then Ok x else lookup_find d' k
  end.

(** [sp.csr_matrix(reduce(or_, lookup.values()))]: the columns at which at
    least one lookup row is nonzero; the rows must have one shape. *)
Definition has_distance_of (xs : list (list Z)) : result sparse_row :=
  match xs with
  | [] => Raise (TypeError "reduce() of empty sequence with no initial value")
  | x :: rest =>
      if forallb (fun x' => Nat.eqb (List.length x') (List.length x)) rest
      then
        let ix := filter (fun j => existsb (fun r => negb (Z.eqb (nth j r 0%Z) 0)) xs)
                         (seq 0 (List.length x)) in
        Ok {| ncols := List.length x;
              indices := ix;
              data := map (fun _ => Num 1) ix |}
      else Raise (ValueError "inconsistent shapes")
  end.

Definition make_tmp_res (self : ClonotypeNeighbors)
  (lookup_dict : list (lookup_key * list Z)) (has_distance : sparse_row)
  (tmp_arm : arm) (c1 c2 : chain) : result (list fval) :=
  ct_col2 <- get_column (clonotypes self) (cdr3_col (config self) tmp_arm c2) ;;
  mapM (fun i =>
          match nth_error ct_col2 i with
          | None => Raise IndexError
          | Some v =>
              if negb (is_nan_str v)
              then
                x <- lookup_find lookup_dict (tmp_arm, c1, c2) ;;
                match nth_error x i with
                | Some d => Ok (Num d)
                | None => Raise IndexError
                end
              else Ok NaN
          end)
       (indices has_distance).

(** The body of the loop over the receptor arms. *)
Definition arm_res (self : ClonotypeNeighbors) (ct_id : nat)
  (lookup_dict : list (lookup_key * list Z)) (has_distance : sparse_row)
  (tmp_arm : arm) : result (list fval) :=
  let mk := make_tmp_res self lookup_dict has_distance tmp_arm in
  let cols := map (cdr3_col (config self) tmp_arm) [chain1; chain2] in
  match dual_ir (config self) with
  | primary_only => mk chain1 chain1
  | dual_all =>
      r11 <- mk chain1 chain1 ;;
      r22 <- mk chain2 chain2 ;;
      a1 <- reduce_and (clonotypes self) ct_id [r11; r22] cols ;;
      r12 <- mk chain1 chain2 ;;
      r21 <- mk chain2 chain1 ;;
      a2 <- reduce_and (clonotypes self) ct_id [r12; r21] cols ;;
      reduce_or [a1; a2]
  | dual_any =>
      r11 <- mk chain1 chain1 ;;
      r12 <- mk chain1 chain2 ;;
      r22 <- mk chain2 chain2 ;;
      r21 <- mk chain2 chain1 ;;
      reduce_or [r11; r12; r22; r21]
  end.

(** The grouping and v-gene tables are not consulted: that part of the
    source is a comment ("TODO within_group + v_genes!"). *)
Definition _dist_for_clonotype (self : ClonotypeNeighbors) (ct_id : nat)
  : result sparse_row :=
  lookup_dict <- fill_lookup self ct_id ;;
  has_distance <- has_distance_of (map snd lookup_dict) ;;
  res <- mapM (arm_res self ct_id lookup_dict has_distance)
              (_receptor_arm_cols (config self)) ;;
  stacked <- vstack res ;;
  res' <- match receptor_arms (config self) with
          | arms_all =>
              reduce_and (clonotypes self) ct_id stacked
                (map (fun a => cdr3_col (config self) a chain1)
                     (_receptor_arm_cols (config self)))
          | _ => reduce_or stacked
          end ;;
  Ok {| ncols := ncols has_distance;
        indices := indices has_distance;
        data := res' |}.

(** ** The orchestrator: [compute_distances] *)

Definition compute_distances (self : ClonotypeNeighbors) : result csr_matrix :=
  let n_clonotypes := List.length (clonotypes self) in
  dist_rows <- mapM (_dist_for_clonotype self) (seq 0 n_clonotypes) ;;
  dist <- sp_vstack dist_rows ;;
  Ok (eliminate_zeros dist).

(** ** Sorted unique values: [np.unique]

    [np.unique] sorts the array; on an object array that holds strings
    together with missing values (floats), or tuples together with either,
    the comparison raises [TypeError].  An array of missing values only is
    a float array, whose missing values [np.unique] collapses to one. *)

Fixpoint tuple_leb (a b : list string) : bool :=
  match a, b with
  | [], _ => true
  | _ :: _, [] => false
  | x :: a', y :: b' =>
      match String.compare x y with
      | Lt => true
      | Gt => false
      | Eq => tuple_leb a' b'
      end
  end.

(** The order within one kind of element; it is applied to arrays of one
    kind only, see [comparable]. *)
Definition entry_leb (a b : entry) : bool :=
  match a, b with
  | EStr x, EStr y => String.leb x y
  | ETuple x, ETuple y => tuple_leb x y
  | EStr _, _ => true
  | ETuple _, ENaN => true
  | ENaN, ENaN => true
  | _, _ => false
  end.

Fixpoint insert_unique (x : entry) (l : list entry) : list entry :=
  match l with
  | [] => [x]
  | y :: l' =>
      if entry_eqb x y then l
      else if entry_leb x y then x :: l
      else y :: insert_unique x l'
  end.

Definition sort_unique (l : list entry) : list entry :=
  fold_right insert_unique [] l.

Definition is_str (e : entry) : bool :=
  match e with EStr _ => true | _ => false end.

Definition is_missing (e : entry) : bool :=
  match e with ENaN => true | _ => false end.

Definition is_tuple (e : entry) : bool :=
  match e with ETuple _ => true | _ => false end.

(** The elements are all strings, all tuples or all missing. *)
Definition comparable (l : list entry) : bool :=
  forallb is_str l || forallb is_tuple l || forallb is_missing l.

Definition np_unique (l : list entry) : result (list entry) :=
  if comparable l
  then Ok (sort_unique l)
  else Raise (TypeError "'<' not supported between instances of 'float' and 'str'").

(** ** Table construction and preparation

    [_is_na] is the missing-value test of [scirpy.util], which is not among
    the sources; the builder is parametrised by it.  It is taken element by
    element, so nothing is said about a helper that rejects a column without
    elements: where no cell bears a receptor the model reaches the check of
    line 93. *)

Section Builder.

Variable _is_na : string -> bool.

(** Lines 84-85 on one element: the string representation, then ["nan"]
    where [_is_na] holds. *)
Definition normalize (v : value) : string :=
  let s := astype_str v in
  if _is_na s then "nan" else s.

(** The row of [obs_filtered] of one cell. *)
Definition filtered_row (cfg : Config) (c : cell) : record :=
  map (fun col => (col, EStr (normalize (field c col)))) (clonotype_cols cfg).

(** The index and the rows of [obs_filtered] after lines 80-85. *)
Definition filtered_rows (cfg : Config) (adata : AnnData)
  : list (string * record) :=
  map (fun c => (obs_name c, filtered_row cfg c)) (filter has_ir (obs adata)).

(** Lines 80-85.  The selection of line 80 raises [KeyError] when [has_ir]
    or one of the listed columns is not a column of [adata.obs]; with a
    column listed twice, [obs_filtered[col]] at line 85 is a frame rather
    than a column and the indexing fails. *)
Definition obs_filtered (cfg : Config) (adata : AnnData)
  : result (list (string * record)) :=
  if negb (has_column (obs_columns adata) "has_ir")
  then Raise (KeyError "has_ir")
  else
    match filter (fun col => negb (has_column (obs_columns adata) col))
                 (clonotype_cols cfg) with
    | col :: _ => Raise (KeyError col)
    | [] =>
        if negb (is_unique (clonotype_cols cfg))
        then Raise IndexError
        else Ok (filtered_rows cfg adata)
    end.

(** Lines 87-91: the table of distinct receptor configurations. *)
Definition clonotype_groupby (cfg : Config) (adata : AnnData) : GroupBy :=
  groupby (map snd (filtered_rows cfg adata)) (clonotype_cols cfg).

(** Lines 101-104. *)
Definition make_cell_indices (index : list string) (g : GroupBy)
  (clonotypes : DataFrame) : list (list string) :=
  map (fun ct_tuple =>
         map (fun p => nth p index "")
             (dict_get (gb_indices g) (KTuple ct_tuple)))
      (itertuples clonotypes).

(** Lines 119-129: no secondary chain without a primary one. *)
Fixpoint consistency_check (cfg : Config) (clonotypes : DataFrame)
  (arms : list arm) : result unit :=
  match arms with
  | [] => Ok tt
  | tmp_arm :: arms' =>
      p <- get_column clonotypes (cdr3_col cfg tmp_arm chain1) ;;
      s <- get_column clonotypes (cdr3_col cfg tmp_arm chain2) ;;
      if existsb (fun ps => is_nan_str (fst ps) && negb (is_nan_str (snd ps)))
                 (combine p s)
      then Raise (AssertionError
                    "There must not be a secondary chain if there is no primary one")
      else consistency_check cfg clonotypes arms'
  end.

Definition _make_clonotype_table (cfg : Config) (adata : AnnData)
  : result (DataFrame * list (list string)) :=
  if negb (is_unique (map obs_name (obs adata)))
  then Raise (ValueError "Obs names need to be unique!")
  else
    filtered <- obs_filtered cfg adata ;;
    let g := groupby (map snd filtered) (clonotype_cols cfg) in
    let clonotypes := index_to_frame g in
    if Nat.eqb (List.length clonotypes) 0
    then Raise (ValueError "Error computing clonotypes. No cells with IR information found (`adata.obs['has_ir'] == True`)")
    else
      let cell_indices := make_cell_indices (map fst filtered) g clonotypes in
      clonotypes <- match within_group cfg with
                    | Some [] =>
                        (* [itertuples] over no column yields no tuple, and
                           line 114 assigns an empty list to a column of a
                           table that has rows *)
                        Raise (ValueError "Length of values does not match length of index")
                    | Some wg => mapM (fold_within_group wg) clonotypes
                    | None => Ok clonotypes
                    end ;;
      _ <- (if existsb (chain_eqb chain2) (_dual_ir_cols cfg)
            then consistency_check cfg clonotypes (_receptor_arm_cols cfg)
            else Ok tt) ;;
      Ok (clonotypes, cell_indices).

(** [_unique_values_in_multiple_columns(df, columns)] for a frame with the
    column labels [df_columns] and the rows [df]: [df[c]] raises [KeyError]
    for a column that is not there, and [np.concatenate] raises [ValueError]
    when there is no column at all. *)
Definition _unique_values_in_multiple_columns (df_columns : list string)
  (df : list cell) (columns : list string) : result (list entry) :=
  arrays <- mapM (fun c => if has_column df_columns c
                           then Ok (map (fun x => entry_of_value (field x c)) df)
                           else Raise (KeyError c))
                 columns ;;
  match arrays with
  | [] => Raise (ValueError "need at least one array to concatenate")
  | _ => np_unique (List.concat arrays)
  end.

Definition _add_distance_matrices (cfg : Config)
  (dd : list (string * SeqDist)) (clonotypes : DataFrame) (adata : AnnData)
  (nf : DoubleLookupNeighborFinder) : result DoubleLookupNeighborFinder :=
  nf <- fold_left (fun acc chain_type =>
                     nf <- acc ;;
                     d <- dict_find dd (arm_name chain_type) ;;
                     add_distance_matrix nf (arm_name chain_type)
                       (distances d) (seqs d))
                  (_receptor_arm_cols cfg) (Ok nf) ;;
  nf <- (if same_v_gene cfg
         then
           v_genes <- _unique_values_in_multiple_columns
                        (obs_columns adata) (obs adata) (_v_gene_cols cfg) ;;
           add_distance_matrix nf "v_gene"
             (identity (List.length v_genes)) v_genes
         else Ok nf) ;;
  match within_group cfg with
  | Some _ =>
      col <- get_column clonotypes "within_group" ;;
      within_group_values <- np_unique col ;;
      add_distance_matrix nf "within_group"
        (identity (List.length within_group_values)) within_group_values
  | None => Ok nf
  end.

Definition _add_lookup_tables (cfg : Config) (nf : DoubleLookupNeighborFinder)
  : result DoubleLookupNeighborFinder :=
  nf <- fold_left (fun acc ai =>
                     match ai with
                     | (a, i) =>
                         nf <- acc ;;
                         nf <- add_lookup_table nf (table_name a i)
                                 (cdr3_col cfg a i) (arm_name a) ;;
                         if same_v_gene cfg
                         then add_lookup_table nf (table_name a i ++ "_v_gene")
                                (v_gene_col a i) "v_gene"
                         else Ok nf
                     end)
                  (product (_receptor_arm_cols cfg) (_dual_ir_cols cfg))
                  (Ok nf) ;;
  match within_group cfg with
  | Some _ => add_lookup_table nf "within_group" "within_group" "within_group"
  | None => Ok nf
  end.

Definition _prepare (cfg : Config) (dd : list (string * SeqDist))
  (adata : AnnData) : result ClonotypeNeighbors :=
  tbl <- _make_clonotype_table cfg adata ;;
  let nf := new_neighbor_finder (fst tbl) in
  nf <- _add_distance_matrices cfg dd (fst tbl) adata nf ;;
  nf <- _add_lookup_tables cfg nf ;;
  Ok {| config := cfg;
        distance_dict := dd;
        neighbor_finder := nf;
        clonotypes := fst tbl;
        cell_indices := snd tbl |}.

(** [ClonotypeNeighbors.__init__] once its arguments are bound. *)
Definition __init__ (adata : AnnData) (cfg : Config)
  : result ClonotypeNeighbors :=
  dd <- dict_find (uns adata) (distance_key cfg) ;;
  _prepare cfg dd adata.

End Builder.

(** ** Calling the constructor

    The parameters of a Python function and the shape of a call: how many
    positional arguments it passes and which keywords. *)

Record Signature : Type := {
  sig_name : string;
  sig_positional : list string;
  sig_keyword_only : list (string * bool)   (* name, has a default *)
}.

Record Call : Type := {
  call_positional : nat;
  call_keywords : list string
}.

Definition mem_string (s : string) (l : list string) : bool :=
  existsb (String.eqb s) l.

(** Binding the arguments of a call to the parameters of a function without
    [*args] and [**kwargs]: an unknown keyword, too many positional arguments
    and a missing required keyword each raise [TypeError]. *)
Definition bind_arguments (s : Signature) (c : Call) : result unit :=
  match find (fun k => negb (mem_string k (sig_positional s ++ map fst (sig_keyword_only s))))
             (call_keywords c) with
  | Some k =>
      Raise (TypeError (sig_name s ++ "() got an unexpected keyword argument '" ++ k ++ "'"))
  | None =>
      if Nat.ltb (List.length (sig_positional s)) (call_positional c)
      then Raise (TypeError (sig_name s ++ "() takes fewer positional arguments than were given"))
      else
        match find (fun kd => negb (snd kd) && negb (mem_string (fst kd) (call_keywords c)))
                   (sig_keyword_only s) with
        | Some kd =>
            Raise (TypeError (sig_name s ++ "() missing required keyword-only argument '" ++ fst kd ++ "'"))
        | None => Ok tt
        end
  end.

(** [def __init__(self, adata, *, receptor_arms=..., dual_ir=...,
    same_v_gene=False, within_group=None, distance_key, sequence_key,
    n_jobs=None)] *)
Definition init_signature : Signature :=
  {| sig_name := "__init__";
     sig_positional := ["self"; "adata"];
     sig_keyword_only :=
       [("receptor_arms", true); ("dual_ir", true); ("same_v_gene", true);
        ("within_group", true); ("distance_key", false);
        ("sequence_key", false); ("n_jobs", true)] |}.

Inductive sequence_t : Type := aa | nt.

Section Query.

Variable _is_na : string -> bool.

(** [_validate_parameters] of [tl/_clonotypes], which is not among the
    sources: it raises or returns [(match_columns, distance_key,
    key_added)]. *)
Variable _validate_parameters :
  AnnData -> AnnData -> receptor_arms_t -> dual_ir_t -> option (list string) ->
  option string -> sequence_t -> string -> option string ->
  result (option (list string) * string * string).

(** [ClonotypeNeighbors(...)]: the arguments are bound, then [__init__]
    runs on the values bound to its parameters. *)
Definition ClonotypeNeighbors_new (c : Call) (adata : AnnData) (cfg : Config)
  : result ClonotypeNeighbors :=
  _ <- bind_arguments init_signature c ;;
  __init__ _is_na adata cfg.

(** The constructor call of [ir_query], lines 81-92: [self], [adata] and
    [reference] are positional. *)
Definition ir_query_call : Call :=
  {| call_positional := 3;
     call_keywords :=
       ["receptor_arms"; "dual_ir"; "same_v_gene"; "match_columns";
        "distance_key"; "sequence_key"; "n_jobs"; "chunksize"] |}.

Definition ir_query (adata reference : AnnData) (sequence : sequence_t)
  (metric : string) (receptor_arms : receptor_arms_t) (dual_ir : dual_ir_t)
  (same_v_gene : bool) (match_columns : option (list string))
  (key_added distance_key : option string) (n_jobs : option nat)
  (chunksize : nat) : result (csr_matrix * list (list string)) :=
  v <- _validate_parameters adata reference receptor_arms dual_ir
         match_columns distance_key sequence metric key_added ;;
  match v with
  | (match_columns, distance_key, key_added) =>
      ctn <- ClonotypeNeighbors_new ir_query_call adata
               {| receptor_arms := receptor_arms;
                  dual_ir := dual_ir;
                  same_v_gene := same_v_gene;
                  within_group := None;
                  distance_key := distance_key;
                  sequence_key := match sequence with
                                  | aa => "junction_aa"
                                  | nt => "junction"
                                  end;
                  n_jobs := n_jobs |} ;;
      clonotype_dist <- compute_distances ctn ;;
      Ok (clonotype_dist, cell_indices ctn)
  end.

End Query.

(** ** Well-formed engines

    What [_prepare] establishes and [_dist_for_clonotype] relies on: the
    table is not empty; for every arm and chain under consideration the
    sequence column is in every row and the lookup table of that name exists,
    is backed by the arm's registered matrix and has one index per row. *)

Definition has_field (col : string) (r : record) : bool :=
  match get_field r col with
  | Ok _ => true
  | Raise _ => false
  end.

Definition table_ready (self : ClonotypeNeighbors) (a : arm) (c : chain) : bool :=
  forallb (has_field (cdr3_col (config self) a c)) (clonotypes self)
  && match dict_find (lookups (neighbor_finder self)) (table_name a c) with
     | Ok t =>
         String.eqb (lt_distance_matrix t) (arm_name a)
         && Nat.eqb (List.length (lt_forward t)) (List.length (clonotypes self))
     | Raise _ => false
     end
  && match dict_find (distance_matrices (neighbor_finder self)) (arm_name a) with
     | Ok _ => true
     | Raise _ => false
     end.

Definition prepared (self : ClonotypeNeighbors) : bool :=
  negb (Nat.eqb (List.length (clonotypes self)) 0)
  && forallb (fun ac => table_ready self (fst ac) (snd ac))
             (product (_receptor_arm_cols (config self))
                      (_dual_ir_cols (config self))).

(** The columns with at least one nonzero lookup entry over all chain-pair
    lookups of clonotype [ct_id]. *)
Definition has_any_neighbor (self : ClonotypeNeighbors) (ct_id j : nat) : bool :=
  existsb (fun ac =>
             match ac with
             | (a, (c1, c2)) =>
                 match lookup (neighbor_finder self) ct_id
                         (table_name a c1) (table_name a c2) with
                 | Ok x => negb (Z.eqb (nth j x 0%Z) 0)
                 | Raise _ => false
                 end
             end)
          (product (_receptor_arm_cols (config self)) (chain_ids (config self))).

(** ** Auxiliary notions for the statements *)

(** Lookup row [x] has a nonzero entry at column [j]. *)
Definition nonzero_at (j : nat) (x : list Z) : bool :=
  negb (Z.eqb (nth j x 0%Z) 0).

(** Operands of one length. *)
Definition uniform (args : list (list fval)) : Prop :=
  forall a b, In a args -> In b args -> List.length a = List.length b.

(** ** Candidate values at one output column *)

(** A candidate that is a number other than 0. *)
Definition finite_nonzero (x : fval) : bool :=
  match x with
  | Num z => negb (Z.eqb z 0)
  | _ => false
  end.

(** A candidate that the reducers turn into the stand-in infinity. *)
Definition zero_or_inf (x : fval) : bool := is_zero x || isinf x.

(** The part of [table_ready] that concerns one finder. *)
Definition finder_ready (cfg : Config) (nf : DoubleLookupNeighborFinder)
  (a : arm) (c : chain) : Prop :=
  (forall r, In r (feature_table nf) -> has_field (cdr3_col cfg a c) r = true) /\
  (exists t, dict_find (lookups nf) (table_name a c) = Ok t /\
             lt_distance_matrix t = arm_name a /\
             List.length (lt_forward t) = List.length (feature_table nf)) /\
  (exists dm, dict_find (distance_matrices nf) (arm_name a) = Ok dm).

(** ** The aggregator, one output column at a time

    The value [_dist_for_clonotype] computes at one column, written without
    arrays. *)

(** The lookup row of one chain pair; empty if the lookup raises. *)
Definition lookup_row (self : ClonotypeNeighbors) (ct_id : nat) (a : arm)
  (c1 c2 : chain) : list Z :=
  match lookup (neighbor_finder self) ct_id (table_name a c1) (table_name a c2) with
  | Ok x => x
  | Raise _ => []
  end.

(** The element of [make_tmp_res(a, c1, c2)] for candidate [j]. *)
Definition candidate_value (self : ClonotypeNeighbors) (ct_id : nat) (a : arm)
  (c1 c2 : chain) (j : nat) : fval :=
  match nth_error (clonotypes self) j with
  | Some r =>
      match get_field r (cdr3_col (config self) a c2) with
      | Ok v => if is_nan_str v then NaN
                else Num (nth j (lookup_row self ct_id a c1 c2) 0%Z)
      | Raise _ => NaN
      end
  | None => NaN
  end.

(** The count of ["nan"] entries of row [ct_id] in the listed columns. *)
Definition own_missing (self : ClonotypeNeighbors) (ct_id : nat)
  (cols : list string) : nat :=
  match chain_count (clonotypes self) ct_id cols with
  | Ok n => n
  | Raise _ => 0
  end.

(** The value of one arm for candidate [j]. *)
Definition arm_value (self : ClonotypeNeighbors) (ct_id : nat) (a : arm)
  (j : nat) : fval :=
  let v := candidate_value self ct_id a in
  let count := own_missing self ct_id
                 (map (cdr3_col (config self) a) [chain1; chain2]) in
  match dual_ir (config self) with
  | primary_only => v chain1 chain1 j
  | dual_all =>
      or_column [and_column count [v chain1 chain1 j; v chain2 chain2 j];
                 and_column count [v chain1 chain2 j; v chain2 chain1 j]]
  | dual_any =>
      or_column [v chain1 chain1 j; v chain1 chain2 j;
                 v chain2 chain2 j; v chain2 chain1 j]
  end.

(** The distance to candidate [j]. *)
Definition distance_value (self : ClonotypeNeighbors) (ct_id j : nat) : fval :=
  let vals := map (fun a => arm_value self ct_id a j)
                  (_receptor_arm_cols (config self)) in
  match receptor_arms (config self) with
  | arms_all =>
      and_column
        (own_missing self ct_id
           (map (fun a => cdr3_col (config self) a chain1)
                (_receptor_arm_cols (config self))))
        vals
  | _ => or_column vals
  end.

(** ** Valid input of the constructor *)

(** A matrix is square over its label array. *)
Definition matches_labels (m : list (list Z)) (labels : list entry) : bool :=
  Nat.eqb (List.length m) (List.length labels)
  && forallb (fun r => Nat.eqb (List.length r) (List.length labels)) m.

(** [adata.obs] has the column [has_ir] and every column of the table. *)
Definition has_columns (cfg : Config) (adata : AnnData) : Prop :=
  In "has_ir" (obs_columns adata) /\
  forall col, In col (clonotype_cols cfg) -> In col (obs_columns adata).

(** The columns of the table (sequence, v-gene and grouping columns) are
    pairwise distinct, and a list of grouping columns, when given, is not
    empty. *)
Definition valid_grouping (cfg : Config) : Prop :=
  NoDup (clonotype_cols cfg) /\ within_group cfg <> Some [].

(** Every cell of the dataset records a v gene in each v-gene column under
    consideration (there is none unless [same_v_gene] is set). *)
Definition v_genes_recorded (cfg : Config) (adata : AnnData) : Prop :=
  forall c col, In c (obs adata) -> In col (_v_gene_cols cfg) ->
                exists s, field c col = VStr s.

(** No receptor-bearing cell has, in an arm under consideration, a secondary
    sequence without a primary one (after normalisation). *)
Definition no_orphan_chain (_is_na : string -> bool) (cfg : Config)
  (adata : AnnData) : Prop :=
  forall c a,
    In c (obs adata) -> has_ir c = true -> In a (_receptor_arm_cols cfg) ->
    normalize _is_na (field c (cdr3_col cfg a chain1)) = "nan" ->
    normalize _is_na (field c (cdr3_col cfg a chain2)) = "nan".

(** ** Sample data *)

(** Modelled from the spec: a missing-value test for the sample data
    ([_is_na] of [scirpy.util] is not among the sources); it recognises the
    canonical sentinel only. *)
Definition is_na_sentinel (s : string) : bool := String.eqb s "nan".

(** The columns of the sample frames. *)
Definition sample_columns : list string :=
  ["has_ir";
   "IR_VJ_1_junction_aa"; "IR_VJ_2_junction_aa";
   "IR_VDJ_1_junction_aa"; "IR_VDJ_2_junction_aa";
   "IR_VJ_1_v_gene"; "IR_VJ_2_v_gene"; "IR_VDJ_1_v_gene"; "IR_VDJ_2_v_gene";
   "patient"].

Definition sample_cell (name : string) (fs : list (string * value)) : cell :=
  {| obs_name := name;
     has_ir := true;
     field := fun c => match dict_find fs c with
                       | Ok v => v
                       | Raise _ => VNaN
                       end |}.

(** A clonotype table of one row with both VJ chains present. *)
Definition both_chains_table : DataFrame :=
  [[("IR_VJ_1_junction_aa", EStr "CAAS"); ("IR_VJ_2_junction_aa", EStr "CAVS")]].

Definition vj_cols : list string :=
  ["IR_VJ_1_junction_aa"; "IR_VJ_2_junction_aa"].

(** Arm [VJ], primary chains only, no further column: the table is grouped
    by the single column [IR_VJ_1_junction_aa]. *)
Definition single_column_config : Config :=
  {| receptor_arms := arms_VJ;
     dual_ir := primary_only;
     same_v_gene := false;
     within_group := None;
     distance_key := "ir_dist_aa_identity";
     sequence_key := "junction_aa";
     n_jobs := None |}.

Definition identity_distances : list (string * list (string * SeqDist)) :=
  [("ir_dist_aa_identity",
    [("VJ", {| distances := [[1%Z]]; seqs := [EStr "CASS"] |});
     ("VDJ", {| distances := [[1%Z]]; seqs := [EStr "CASS"] |})])].

Definition one_cell_adata : AnnData :=
  {| obs_columns := sample_columns;
     obs := [sample_cell "cell1" [("IR_VJ_1_junction_aa", VStr "CASS")]];
     uns := identity_distances |}.

(** Two cells with the same VJ sequence from different patients, grouped
    within [patient]. *)
Definition within_patient_config : Config :=
  {| receptor_arms := arms_VJ;
     dual_ir := primary_only;
     same_v_gene := false;
     within_group := Some ["patient"];
     distance_key := "ir_dist_aa_identity";
     sequence_key := "junction_aa";
     n_jobs := None |}.

Definition two_patients_adata : AnnData :=
  {| obs_columns := sample_columns;
     obs := [sample_cell "cell1" [("IR_VJ_1_junction_aa", VStr "CASS");
                                  ("patient", VStr "A")];
             sample_cell "cell2" [("IR_VJ_1_junction_aa", VStr "CASS");
                                  ("patient", VStr "B")]];
     uns := identity_distances |}.

(** Two cells with the same VJ sequence and different v-genes, with the
    same-v-gene toggle on. *)
Definition same_v_gene_config : Config :=
  {| receptor_arms := arms_VJ;
     dual_ir := primary_only;
     same_v_gene := true;
     within_group := None;
     distance_key := "ir_dist_aa_identity";
     sequence_key := "junction_aa";
     n_jobs := None |}.

Definition two_v_genes_adata : AnnData :=
  {| obs_columns := sample_columns;
     obs := [sample_cell "cell1" [("IR_VJ_1_junction_aa", VStr "CASS");
                                  ("IR_VJ_1_v_gene", VStr "TRAV1")];
             sample_cell "cell2" [("IR_VJ_1_junction_aa", VStr "CASS");
                                  ("IR_VJ_1_v_gene", VStr "TRAV2")]];
     uns := identity_distances |}.

(** A cell with a secondary VJ chain and no primary one. *)
Definition orphan_cell : cell :=
  sample_cell "cell1" [("IR_VJ_2_junction_aa", VStr "CAVS");
                       ("IR_VDJ_1_junction_aa", VStr "CASS")].

Definition orphan_adata : AnnData :=
  {| obs_columns := sample_columns;
     obs := [orphan_cell]; uns := identity_distances |}.

Definition primary_only_config : Config :=
  {| receptor_arms := arms_all;
     dual_ir := primary_only;
     same_v_gene := false;
     within_group := None;
     distance_key := "ir_dist_aa_identity";
     sequence_key := "junction_aa";
     n_jobs := None |}.

Definition dual_any_config : Config :=
  {| receptor_arms := arms_all;
     dual_ir := dual_any;
     same_v_gene := false;
     within_group := None;
     distance_key := "ir_dist_aa_identity";
     sequence_key := "junction_aa";
     n_jobs := None |}.

(** Three cells over both arms, one of them with a secondary VJ chain. *)
Definition paired_config : Config :=
  {| receptor_arms := arms_all;
     dual_ir := dual_all;
     same_v_gene := false;
     within_group := None;
     distance_key := "ir_dist_aa_identity";
     sequence_key := "junction_aa";
     n_jobs := None |}.

Definition paired_adata : AnnData :=
  {| obs_columns := sample_columns;
     obs := [sample_cell "cell1" [("IR_VJ_1_junction_aa", VStr "CAAS");
                                  ("IR_VDJ_1_junction_aa", VStr "CASS")];
             sample_cell "cell2" [("IR_VJ_1_junction_aa", VStr "CAAS");
                                  ("IR_VJ_2_junction_aa", VStr "CAVS");
                                  ("IR_VDJ_1_junction_aa", VStr "CASS")];
             sample_cell "cell3" [("IR_VJ_1_junction_aa", VStr "CAVS");
                                  ("IR_VDJ_1_junction_aa", VStr "CASR")]];
     uns := [("ir_dist_aa_identity",
              [("VJ", {| distances := [[1%Z; 2%Z]; [2%Z; 1%Z]];
                         seqs := [EStr "CAAS"; EStr "CAVS"] |});
               ("VDJ", {| distances := [[1%Z; 0%Z]; [0%Z; 1%Z]];
                          seqs := [EStr "CASS"; EStr "CASR"] |})])] |}.

(** The engine a construction returned; the empty engine if it raised. *)
Definition engine_of (r : result ClonotypeNeighbors) : ClonotypeNeighbors :=
  match r with
  | Ok self => self
  | Raise _ =>
      {| config := single_column_config;
         distance_dict := [];
         neighbor_finder := new_neighbor_finder [];
         clonotypes := [];
         cell_indices := [] |}
  end.

Definition paired_engine : ClonotypeNeighbors :=
  engine_of (__init__ is_na_sentinel paired_adata paired_config).

Definition assertion_message : string :=
  "There must not be a secondary chain if there is no primary one".



(** The messages of the two validation errors of [_make_clonotype_table]. *)
Definition unique_message : string := "Obs names need to be unique!".

Definition no_ir_message : string :=
  "Error computing clonotypes. No cells with IR information found (`adata.obs['has_ir'] == True`)".

(** Two cells with both primary chains, under the arm policies [all] and
    [any] with primary chains only. *)
Definition both_arms_adata : AnnData :=
  {| obs_columns := sample_columns;
     obs := [sample_cell "cell1" [("IR_VJ_1_junction_aa", VStr "CAAS");
                                  ("IR_VDJ_1_junction_aa", VStr "CASS")];
             sample_cell "cell2" [("IR_VJ_1_junction_aa", VStr "CAVS");
                                  ("IR_VDJ_1_junction_aa", VStr "CASS")]];
     uns := [("ir_dist_aa_identity",
              [("VJ", {| distances := [[1%Z; 3%Z]; [3%Z; 1%Z]];
                         seqs := [EStr "CAAS"; EStr "CAVS"] |});
               ("VDJ", {| distances := [[1%Z]]; seqs := [EStr "CASS"] |})])] |}.

Definition any_primary_config : Config :=
  {| receptor_arms := arms_any;
     dual_ir := primary_only;
     same_v_gene := false;
     within_group := None;
     distance_key := "ir_dist_aa_identity";
     sequence_key := "junction_aa";
     n_jobs := None |}.

Definition all_primary_engine : ClonotypeNeighbors :=
  engine_of (__init__ is_na_sentinel both_arms_adata primary_only_config).

Definition any_primary_engine : ClonotypeNeighbors :=
  engine_of (__init__ is_na_sentinel both_arms_adata any_primary_config).

Definition within_patient_engine : ClonotypeNeighbors :=
  engine_of (__init__ is_na_sentinel two_patients_adata within_patient_config).



(** ** The table as claim C10 words it *)



(** * Properties *)

Unset Implicit Arguments.

(** ** The order behind [np.nanmin] and [np.nanmax] *)

Lemma fmin_comm (a b : fval) : fmin a b = fmin b a.
Proof. destruct a, b; simpl; try reflexivity. now rewrite Z.min_comm. Qed.

Lemma fmin_assoc (a b c : fval) : fmin a (fmin b c) = fmin (fmin a b) c.
Proof. destruct a, b, c; simpl; try reflexivity. now rewrite Z.min_assoc. Qed.

Lemma fmin_idem (a : fval) : fmin a a = a.
Proof. destruct a; simpl; try reflexivity. now rewrite Z.min_id. Qed.

Lemma fmin_cases (a b : fval) : fmin a b = a \/ fmin a b = b.
Proof.
  destruct a, b; simpl; auto.
  destruct (Z.min_spec z z0) as [[_ ->] | [_ ->]]; auto.
Qed.

Lemma fmax_comm (a b : fval) : fmax a b = fmax b a.
Proof. destruct a, b; simpl; try reflexivity. now rewrite Z.max_comm. Qed.

Lemma fmax_assoc (a b c : fval) : fmax a (fmax b c) = fmax (fmax a b) c.
Proof. destruct a, b, c; simpl; try reflexivity. now rewrite Z.max_assoc. Qed.

Lemma fmax_idem (a : fval) : fmax a a = a.
Proof. destruct a; simpl; try reflexivity. now rewrite Z.max_id. Qed.

Lemma fmax_cases (a b : fval) : fmax a b = a \/ fmax a b = b.
Proof.
  destruct a, b; simpl; auto.
  destruct (Z.max_spec z z0) as [[_ ->] | [_ ->]]; auto.
Qed.

Section Extremum.

(** [op] is [fmin] or [fmax]: a commutative, associative, idempotent choice
    between its operands with unit NaN. *)
Variable op : fval -> fval -> fval.
Hypothesis op_comm : forall a b, op a b = op b a.
Hypothesis op_assoc : forall a b c, op a (op b c) = op (op a b) c.
Hypothesis op_idem : forall a, op a a = a.
Hypothesis op_cases : forall a b, op a b = a \/ op a b = b.
Hypothesis op_nan : forall a, op a NaN = a.

Lemma fold_bound (l : list fval) (x : fval) :
  In x l -> op (fold_right op NaN l) x = fold_right op NaN l.
Proof.
  induction l as [| y l IH]; simpl; [tauto |].
  intros [-> | Hin].
  - rewrite (op_comm x (fold_right op NaN l)), <- op_assoc, op_idem.
    reflexivity.
  - rewrite <- op_assoc, IH by assumption. reflexivity.
Qed.

Lemma fold_member (l : list fval) :
  fold_right op NaN l = NaN \/ In (fold_right op NaN l) l.
Proof.
  induction l as [| y l IH]; simpl; [now left |].
  destruct (op_cases y (fold_right op NaN l)) as [E | E]; rewrite E.
  - right. now left.
  - destruct IH as [IH | IH]; [| right; now right].
    rewrite IH in *. rewrite op_nan in E. right. left. congruence.
Qed.

Lemma fold_same_set (l l' : list fval) :
  (forall x, In x l <-> In x l') ->
  fold_right op NaN l = fold_right op NaN l'.
Proof.
  intros Hset.
  assert (Hle : forall k k' : list fval,
             (forall x, In x k -> In x k') ->
             op (fold_right op NaN k') (fold_right op NaN k)
             = fold_right op NaN k').
  { intros k k' Hsub.
    destruct (fold_member k) as [E | E].
    - rewrite E. apply op_nan.
    - apply fold_bound. now apply Hsub. }
  rewrite <- (Hle l' l) by (intros x; apply Hset).
  rewrite op_comm. apply Hle. intros x. apply Hset.
Qed.

End Extremum.

Lemma nanmin_same_set (l l' : list fval) :
  (forall x, In x l <-> In x l') -> nanmin l = nanmin l'.
Proof.
  apply fold_same_set;
    auto using fmin_comm, fmin_assoc, fmin_idem, fmin_cases;
    intros a; now destruct a.
Qed.

Lemma nanmin_bound (l : list fval) (x : fval) :
  In x l -> fmin (nanmin l) x = nanmin l.
Proof.
  apply fold_bound; auto using fmin_comm, fmin_assoc, fmin_idem.
Qed.

Lemma nanmin_member (l : list fval) : nanmin l = NaN \/ In (nanmin l) l.
Proof.
  apply fold_member; auto using fmin_cases; intros a; now destruct a.
Qed.

Lemma nanmax_bound (l : list fval) (x : fval) :
  In x l -> fmax (nanmax l) x = nanmax l.
Proof.
  apply fold_bound; auto using fmax_comm, fmax_assoc, fmax_idem.
Qed.

Lemma nanmax_member (l : list fval) : nanmax l = NaN \/ In (nanmax l) l.
Proof.
  apply fold_member; auto using fmax_cases; intros a; now destruct a.
Qed.

(** ** One output column of the reducers *)

Lemma isnan_zero_to_inf (x : fval) : isnan (zero_to_inf x) = isnan x.
Proof. destruct x as [| | z]; try reflexivity. unfold zero_to_inf; simpl. now destruct (Z.eqb z 0). Qed.

Lemma count_nan_zero_to_inf (col : list fval) :
  count_nan (map zero_to_inf col) = count_nan col.
Proof.
  unfold count_nan. induction col as [| x col IH]; simpl; [reflexivity |].
  rewrite isnan_zero_to_inf. destruct (isnan x); simpl; now rewrite IH.
Qed.

Lemma forallb_isnan_false (col : list fval) :
  forallb isnan col = false -> exists x, In x col /\ x <> NaN.
Proof.
  induction col as [| x col IH]; simpl; [discriminate |].
  destruct x; simpl; intros H.
  - destruct (IH H) as [y [Hy Hn]]. exists y. auto.
  - exists Inf. split; [now left | discriminate].
  - exists (Num z). split; [now left | discriminate].
Qed.

Lemma forallb_isnan_true (col : list fval) :
  forallb isnan col = true -> forall x, In x col -> x = NaN.
Proof.
  rewrite forallb_forall. intros H x Hx. specialize (H x Hx). now destruct x.
Qed.

Lemma nanmax_all_nan (col : list fval) :
  (forall x, In x col -> x = NaN) -> nanmax col = NaN.
Proof.
  intros H. destruct (nanmax_member col) as [E | E]; auto.
Qed.

Lemma nanmin_all_nan (col : list fval) :
  (forall x, In x col -> x = NaN) -> nanmin col = NaN.
Proof.
  intros H. destruct (nanmin_member col) as [E | E]; auto.
Qed.

Lemma nanmax_not_nan (col : list fval) (x : fval) :
  In x col -> x <> NaN -> nanmax col <> NaN.
Proof.
  intros Hin Hx E. pose proof (nanmax_bound col x Hin) as B.
  rewrite E in B. simpl in B. congruence.
Qed.

Lemma nanmin_not_nan (col : list fval) (x : fval) :
  In x col -> x <> NaN -> nanmin col <> NaN.
Proof.
  intros Hin Hx E. pose proof (nanmin_bound col x Hin) as B.
  rewrite E in B. simpl in B. congruence.
Qed.

Lemma and_column_all_missing (count : nat) (col : list fval) :
  forallb isnan col = true -> and_column count col = NaN.
Proof.
  intros H. unfold and_column.
  rewrite nanmax_all_nan; [reflexivity |].
  intros x Hx. apply in_map_iff in Hx. destruct Hx as [y [<- Hy]].
  now rewrite (forallb_isnan_true col H y Hy).
Qed.

Lemma and_column_mismatch (count : nat) (col : list fval) :
  forallb isnan col = false -> count_nan col <> count ->
  and_column count col = Num 0.
Proof.
  intros Hsome Hcount. unfold and_column.
  rewrite count_nan_zero_to_inf.
  apply Nat.eqb_neq in Hcount. rewrite Hcount.
  destruct (forallb_isnan_false col Hsome) as [x [Hx Hn]].
  assert (Hm : nanmax (map zero_to_inf col) <> NaN).
  { apply nanmax_not_nan with (x := zero_to_inf x).
    - now apply in_map.
    - intros E. apply Hn. pose proof (isnan_zero_to_inf x) as I.
      rewrite E in I. simpl in I. now destruct x. }
  destruct (nanmax (map zero_to_inf col)); [congruence | reflexivity | reflexivity].
Qed.

Lemma and_column_zero (count : nat) (col : list fval) :
  forallb isnan col = false -> existsb zero_or_inf col = true ->
  and_column count col = Num 0.
Proof.
  intros _ Hz. unfold and_column.
  apply existsb_exists in Hz. destruct Hz as [x [Hx Hz]].
  assert (Hin : In Inf (map zero_to_inf col)).
  { apply in_map_iff. exists x. split; [| assumption].
    unfold zero_or_inf in Hz. unfold zero_to_inf.
    destruct (is_zero x); [reflexivity |]. simpl in Hz. now destruct x. }
  pose proof (nanmax_bound _ _ Hin) as B.
  destruct (nanmax (map zero_to_inf col)) eqn:E; simpl in B; try discriminate.
  simpl. now destruct (Nat.eqb _ _).
Qed.

Lemma zero_to_inf_fixed (col : list fval) :
  existsb zero_or_inf col = false -> map zero_to_inf col = col.
Proof.
  induction col as [| x col IH]; simpl; [reflexivity |].
  intros H. apply orb_false_elim in H. destruct H as [Hx Hc].
  rewrite IH by assumption. f_equal.
  unfold zero_or_inf in Hx. apply orb_false_elim in Hx.
  unfold zero_to_inf. now rewrite (proj1 Hx).
Qed.

Lemma and_column_max (count : nat) (col : list fval) :
  forallb isnan col = false -> count_nan col = count ->
  existsb zero_or_inf col = false ->
  exists z, and_column count col = Num z /\ In (Num z) col /\
            forall y, In (Num y) col -> (y <= z)%Z.
Proof.
  intros Hsome Hcount Hz. unfold and_column.
  rewrite zero_to_inf_fixed by assumption.
  rewrite Hcount, Nat.eqb_refl.
  destruct (forallb_isnan_false col Hsome) as [x [Hx Hn]].
  pose proof (nanmax_not_nan col x Hx Hn) as Hm.
  destruct (nanmax_member col) as [E | Hin]; [contradiction |].
  destruct (nanmax col) as [| | z] eqn:E; [contradiction | |].
  - exfalso. assert (existsb zero_or_inf col = true); [| congruence].
    apply existsb_exists. exists Inf. split; [assumption | reflexivity].
  - exists z. split; [reflexivity |]. split; [assumption |].
    intros y Hy. pose proof (nanmax_bound col _ Hy) as B.
    rewrite E in B. simpl in B. injection B. lia.
Qed.

Lemma or_column_same_set (col col' : list fval) :
  (forall x, In x col <-> In x col') -> or_column col = or_column col'.
Proof.
  intros H. unfold or_column. f_equal. apply nanmin_same_set.
  intros x. rewrite !in_map_iff. split; intros [y [E Hy]]; exists y;
    (split; [assumption | now apply H]).
Qed.

Lemma or_column_all_missing (col : list fval) :
  forallb isnan col = true -> or_column col = NaN.
Proof.
  intros H. unfold or_column.
  rewrite nanmin_all_nan; [reflexivity |].
  intros x Hx. apply in_map_iff in Hx. destruct Hx as [y [<- Hy]].
  now rewrite (forallb_isnan_true col H y Hy).
Qed.

Lemma zero_to_inf_num (x : fval) (z : Z) :
  zero_to_inf x = Num z -> x = Num z /\ z <> 0%Z.
Proof.
  unfold zero_to_inf. destruct x as [| | w]; simpl; try discriminate.
  destruct (Z.eqb_spec w 0); [discriminate |]. intros E. injection E as <-. auto.
Qed.

Lemma or_column_min (col : list fval) :
  existsb finite_nonzero col = true ->
  exists z, or_column col = Num z /\ z <> 0%Z /\ In (Num z) col /\
            forall y, In (Num y) col -> y <> 0%Z -> (z <= y)%Z.
Proof.
  intros H. apply existsb_exists in H. destruct H as [x [Hx Hp]].
  destruct x as [| | w]; try discriminate. simpl in Hp.
  apply negb_true_iff in Hp. apply Z.eqb_neq in Hp.
  assert (Hkeep : forall y, In (Num y) col -> y <> 0%Z ->
                            In (Num y) (map zero_to_inf col)).
  { intros y Hy Hy0. apply in_map_iff. exists (Num y). split; [| assumption].
    unfold zero_to_inf. simpl. apply Z.eqb_neq in Hy0. now rewrite Hy0. }
  unfold or_column.
  pose proof (nanmin_bound _ _ (Hkeep w Hx Hp)) as B.
  destruct (nanmin_member (map zero_to_inf col)) as [E | Hin].
  { rewrite E in B. simpl in B. discriminate. }
  destruct (nanmin (map zero_to_inf col)) as [| | z] eqn:E;
    simpl in B; try discriminate.
  apply in_map_iff in Hin. destruct Hin as [x0 [Hx0 Hin0]].
  apply zero_to_inf_num in Hx0. destruct Hx0 as [-> Hz].
  exists z. repeat split; try assumption.
  intros y Hy Hy0. pose proof (nanmin_bound _ _ (Hkeep y Hy Hy0)) as By.
  rewrite E in By. simpl in By. injection By. lia.
Qed.

Lemma or_column_zero (col : list fval) :
  existsb finite_nonzero col = false -> forallb isnan col = false ->
  or_column col = Num 0.
Proof.
  intros Hnone Hsome. unfold or_column.
  destruct (forallb_isnan_false col Hsome) as [x [Hx Hn]].
  assert (Hinf : zero_to_inf x = Inf).
  { assert (Hp : finite_nonzero x = false).
    { destruct (finite_nonzero x) eqn:E; [| reflexivity].
      assert (existsb finite_nonzero col = true); [| congruence].
      apply existsb_exists. eauto. }
    destruct x as [| | w]; [contradiction | reflexivity |].
    simpl in Hp. apply negb_false_iff in Hp. unfold zero_to_inf. simpl.
    now rewrite Hp. }
  assert (Hin : In Inf (map zero_to_inf col)).
  { rewrite <- Hinf. now apply in_map. }
  pose proof (nanmin_bound _ _ Hin) as B.
  destruct (nanmin_member (map zero_to_inf col)) as [E | Hm].
  { rewrite E in B. simpl in B. discriminate. }
  destruct (nanmin (map zero_to_inf col)) as [| | z] eqn:E;
    simpl in B; try discriminate; [reflexivity |].
  exfalso. apply in_map_iff in Hm. destruct Hm as [x0 [Hx0 Hin0]].
  apply zero_to_inf_num in Hx0. destruct Hx0 as [-> Hz].
  assert (existsb finite_nonzero col = true); [| congruence].
  apply existsb_exists. exists (Num z). split; [assumption |].
  simpl. apply negb_true_iff. now apply Z.eqb_neq.
Qed.

(** ** Stacking the operands *)

Lemma vstack_cases (args : list (list fval)) :
  (args = [] /\
   vstack args = Raise (ValueError "need at least one array to concatenate"))
  \/ (args <> [] /\ uniform args /\ vstack args = Ok args)
  \/ (args <> [] /\ ~ uniform args /\
      vstack args = Raise (ValueError "all the input array dimensions must match")).
Proof.
  destruct args as [| r rest]; [now left | right].
  unfold vstack.
  destruct (forallb (fun r' => Nat.eqb (List.length r') (List.length r)) rest) eqn:E.
  - left. split; [discriminate |]. split; [| reflexivity].
    rewrite forallb_forall in E.
    assert (L : forall a, In a (r :: rest) -> List.length a = List.length r).
    { intros a [<- | Ha]; [reflexivity |]. now apply Nat.eqb_eq, E. }
    intros a b Ha Hb. rewrite (L a Ha), (L b Hb). reflexivity.
  - right. split; [discriminate |]. split; [| reflexivity].
    intros U. assert (forallb (fun r' => Nat.eqb (List.length r') (List.length r)) rest = true);
      [| congruence].
    apply forallb_forall. intros x Hx. apply Nat.eqb_eq.
    apply U; [now right | now left].
Qed.

Lemma vstack_ok (args m : list (list fval)) :
  vstack args = Ok m -> m = args /\ args <> [] /\ uniform args.
Proof.
  intros H. destruct (vstack_cases args) as [[_ E] | [[N [U E]] | [_ [_ E]]]];
    rewrite E in H; try discriminate.
  injection H as <-. auto.
Qed.

Lemma uniform_width (args : list (list fval)) (r : list fval) :
  uniform args -> In r args -> List.length r = width args.
Proof.
  intros U Hr. destruct args as [| r0 rest]; [contradiction |].
  simpl. apply U; [assumption | now left].
Qed.

Lemma length_columns (f : list fval -> fval) (m : list (list fval)) :
  List.length (map f (columns m)) = width m.
Proof. unfold columns. now rewrite !length_map, length_seq. Qed.

Lemma nth_columns (f : list fval -> fval) (m : list (list fval)) (j : nat) :
  j < width m -> nth j (map f (columns m)) NaN = f (column m j).
Proof.
  intros Hj. unfold columns. rewrite map_map.
  rewrite (nth_indep _ NaN (f (column m 0))) by (now rewrite length_map, length_seq).
  rewrite (map_nth (fun i => f (column m i)) (seq 0 (width m)) 0 j).
  now rewrite seq_nth.
Qed.

Lemma reduce_or_same_set (args args' : list (list fval)) :
  (forall r, In r args <-> In r args') -> reduce_or args' = reduce_or args.
Proof.
  intros Hset. unfold reduce_or.
  assert (Huni : uniform args <-> uniform args').
  { split; intros U a b Ha Hb; apply U; now apply Hset. }
  assert (Hnil : args = [] <-> args' = []).
  { split; intros ->.
    - destruct args' as [| r ?]; [reflexivity |].
      exfalso. apply (proj2 (Hset r)). now left.
    - destruct args as [| r ?]; [reflexivity |].
      exfalso. apply (proj1 (Hset r)). now left. }
  destruct (vstack_cases args) as [[N E] | [[N [U E]] | [N [U E]]]];
    destruct (vstack_cases args') as [[N' E'] | [[N' [U' E']] | [N' [U' E']]]];
    rewrite E, E'; simpl; try reflexivity; try tauto.
  f_equal.
  assert (W : width args' = width args).
  { destruct args' as [| r' rest']; [congruence |]. simpl.
    apply uniform_width; [assumption |]. apply Hset. now left. }
  unfold columns. rewrite W, !map_map. apply map_ext. intros j.
  apply or_column_same_set. intros x. unfold column. rewrite !in_map_iff.
  split; intros [r [Er Hr]]; exists r; (split; [assumption | now apply Hset]).
Qed.

(** ** C1 and C2: the reducers *)

(** C1 (as amended).  [reduce_and] returns, at every output column, NaN when
    every candidate is missing (whatever the counts); otherwise 0 when the
    number of missing candidates differs from the number of ["nan"] entries
    of the clonotype's own row in the listed columns, even if some candidate
    is nonzero; and when the two counts agree, the maximum of the
    non-missing candidates, unless one of them is 0, in which case 0. *)
Theorem reduce_and_count_gate :
  forall (clonotypes : DataFrame) (ct_id : nat) (cols : list string)
         (args : list (list fval)) (count : nat),
    chain_count clonotypes ct_id cols = Ok count ->
    vstack args = Ok args ->
    exists res,
      reduce_and clonotypes ct_id args cols = Ok res /\
      List.length res = width args /\
      forall j, j < width args ->
        let cand := column args j in
        let r := nth j res NaN in
        (forallb isnan cand = true -> r = NaN) /\
        (forallb isnan cand = false -> count_nan cand <> count -> r = Num 0) /\
        (forallb isnan cand = false -> count_nan cand = count ->
         existsb zero_or_inf cand = true -> r = Num 0) /\
        (forallb isnan cand = false -> count_nan cand = count ->
         existsb zero_or_inf cand = false ->
         exists z, r = Num z /\ In (Num z) cand /\
                   forall y, In (Num y) cand -> (y <= z)%Z).
Proof.
  intros clonotypes ct_id cols args count Hc Hv.
  unfold reduce_and. rewrite Hc, Hv. simpl.
  eexists. split; [reflexivity |]. split; [apply length_columns |].
  intros j Hj. cbv zeta. rewrite nth_columns by assumption.
  repeat split.
  - apply and_column_all_missing.
  - apply and_column_mismatch.
  - intros H _. now apply and_column_zero.
  - apply and_column_max.
Qed.

Lemma reduce_and_count_gate_witness :
  exists res,
    reduce_and both_chains_table 0 [[Num 2; NaN]; [Num 5; Num 3]] vj_cols = Ok res /\
    List.length res = 2 /\
    forall j, j < 2 ->
      let cand := column [[Num 2; NaN]; [Num 5; Num 3]] j in
      let r := nth j res NaN in
      (forallb isnan cand = true -> r = NaN) /\
      (forallb isnan cand = false -> count_nan cand <> 0 -> r = Num 0) /\
      (forallb isnan cand = false -> count_nan cand = 0 ->
       existsb zero_or_inf cand = true -> r = Num 0) /\
      (forallb isnan cand = false -> count_nan cand = 0 ->
       existsb zero_or_inf cand = false ->
       exists z, r = Num z /\ In (Num z) cand /\
                 forall y, In (Num y) cand -> (y <= z)%Z).
Proof.
  apply (@reduce_and_count_gate both_chains_table 0 vj_cols
           [[Num 2; NaN]; [Num 5; Num 3]] 0); reflexivity.
Defined.

(** C1 as stated fails: with both chains of the clonotype present (expected
    count 0) and both candidates missing at a column (count 2), the result
    at that column is NaN, not 0. *)
Lemma reduce_and_all_missing_counterexample :
  chain_count both_chains_table 0 vj_cols = Ok 0 /\
  count_nan (column [[NaN]; [NaN]] 0) = 2 /\
  reduce_and both_chains_table 0 [[NaN]; [NaN]] vj_cols = Ok [NaN] /\
  NaN <> Num 0.
Proof. repeat split; discriminate. Qed.

(** C2 (as amended).  At every output column [reduce_or] depends only on
    the set of its operands (so it is commutative and idempotent); it returns
    the minimum of the nonzero, non-missing candidates, 0 when there is no
    such candidate and at least one candidate is not missing, and NaN when
    every candidate is missing; OR-reduce(0, 3, 0) = 3 and
    OR-reduce(0, 0) = 0. *)
Theorem reduce_or_operand_set :
  forall (args args' : list (list fval)),
    (forall r, In r args <-> In r args') ->
    vstack args = Ok args ->
    reduce_or args' = reduce_or args /\
    (exists res,
       reduce_or args = Ok res /\
       List.length res = width args /\
       forall j, j < width args ->
         let cand := column args j in
         let r := nth j res NaN in
         (existsb finite_nonzero cand = true ->
          exists z, r = Num z /\ z <> 0%Z /\ In (Num z) cand /\
                    forall y, In (Num y) cand -> y <> 0%Z -> (z <= y)%Z) /\
         (existsb finite_nonzero cand = false -> forallb isnan cand = false ->
          r = Num 0) /\
         (forallb isnan cand = true -> r = NaN)) /\
    reduce_or [[Num 0]; [Num 3]; [Num 0]] = Ok [Num 3] /\
    reduce_or [[Num 0]; [Num 0]] = Ok [Num 0].
Proof.
  intros args args' Hset Hv.
  split; [now apply reduce_or_same_set |].
  split; [| split; reflexivity].
  unfold reduce_or. rewrite Hv. simpl.
  eexists. split; [reflexivity |]. split; [apply length_columns |].
  intros j Hj. cbv zeta. rewrite nth_columns by assumption.
  repeat split.
  - apply or_column_min.
  - apply or_column_zero.
  - apply or_column_all_missing.
Qed.

Lemma reduce_or_operand_set_witness :
  reduce_or [[Num 4; Num 0]; [Num 0; Num 0]; [Num 3; NaN]; [Num 4; Num 0]]
  = reduce_or [[Num 3; NaN]; [Num 4; Num 0]; [Num 0; Num 0]] /\
  reduce_or [[Num 3; NaN]; [Num 4; Num 0]; [Num 0; Num 0]] = Ok [Num 3; Num 0].
Proof.
  destruct (@reduce_or_operand_set
              [[Num 3; NaN]; [Num 4; Num 0]; [Num 0; Num 0]]
              [[Num 4; Num 0]; [Num 0; Num 0]; [Num 3; NaN]; [Num 4; Num 0]])
    as [H _].
  - intros r; simpl; tauto.
  - reflexivity.
  - split; [exact H | reflexivity].
Defined.

(** C2 as stated fails: when every candidate is missing, the result is NaN,
    not 0. *)
Lemma reduce_or_all_missing_counterexample :
  forallb (fun x => is_zero x || isnan x) (column [[NaN]; [NaN]] 0) = true /\
  reduce_or [[NaN]; [NaN]] = Ok [NaN] /\
  NaN <> Num 0.
Proof. repeat split; discriminate. Qed.

(** ** C7, C3, C4, C8: evaluation at the failing inputs *)

(** C7 at its failing input.  For a table grouped by one column the keys
    of [groupby.indices] are bare values while the lookup uses 1-tuples, so
    the entry of the only clonotype row is empty although [cell1] collapses
    to that row. *)
Theorem cell_indices_single_column :
  _make_clonotype_table is_na_sentinel single_column_config one_cell_adata
  = Ok ([[("IR_VJ_1_junction_aa", EStr "CASS")]], [[]]).
Proof. reflexivity. Qed.

(** C3 at its failing input.  With [within_group = ["patient"]] the two
    clonotypes have the same sequence and different grouping tuples, the
    [within_group] lookup table is registered, and the distance between
    them is 1, not 0. *)
Theorem within_group_not_folded :
  exists self dist,
    __init__ is_na_sentinel two_patients_adata within_patient_config = Ok self /\
    clonotypes self
    = [[("IR_VJ_1_junction_aa", EStr "CASS"); ("within_group", ETuple ["A"])];
       [("IR_VJ_1_junction_aa", EStr "CASS"); ("within_group", ETuple ["B"])]] /\
    lookup (neighbor_finder self) 0 "within_group" "within_group"
    = Ok [1%Z; 0%Z] /\
    compute_distances self = Ok dist /\
    csr_get dist 0 1 = Num 1 /\ csr_get dist 1 0 = Num 1.
Proof.
  eexists. eexists.
  split; [vm_compute; reflexivity |].
  split; [reflexivity |].
  split; [reflexivity |].
  split; [vm_compute; reflexivity |].
  split; reflexivity.
Qed.

(** C4 at its failing input.  With the same-v-gene toggle on, the two
    clonotypes have the same sequence and different v-genes, the v-gene
    lookup table is registered, and the distance between them is 1,
    not 0. *)
Theorem same_v_gene_not_folded :
  exists self dist,
    __init__ is_na_sentinel two_v_genes_adata same_v_gene_config = Ok self /\
    clonotypes self
    = [[("IR_VJ_1_junction_aa", EStr "CASS"); ("IR_VJ_1_v_gene", EStr "TRAV1")];
       [("IR_VJ_1_junction_aa", EStr "CASS"); ("IR_VJ_1_v_gene", EStr "TRAV2")]] /\
    lookup (neighbor_finder self) 0 "VJ_1_v_gene" "VJ_1_v_gene"
    = Ok [1%Z; 0%Z] /\
    compute_distances self = Ok dist /\
    csr_get dist 0 1 = Num 1 /\ csr_get dist 1 0 = Num 1.
Proof.
  eexists. eexists.
  split; [vm_compute; reflexivity |].
  split; [reflexivity |].
  split; [reflexivity |].
  split; [vm_compute; reflexivity |].
  split; reflexivity.
Qed.

(** C8 at every input.  The constructor call made by [ir_query] passes a
    reference dataset and the keywords [match_columns] and [chunksize],
    which [__init__] does not take: it raises [TypeError] whatever the
    arguments, and so does [ir_query] whenever the validation of its
    parameters returns. *)
Theorem ir_query_constructor_raises :
  forall (_is_na : string -> bool)
         (_validate_parameters :
            AnnData -> AnnData -> receptor_arms_t -> dual_ir_t ->
            option (list string) -> option string -> sequence_t -> string ->
            option string -> result (option (list string) * string * string))
         (adata reference : AnnData) (sequence : sequence_t) (metric : string)
         (arms : receptor_arms_t) (dual : dual_ir_t) (v_gene : bool)
         (match_columns : option (list string))
         (key_added dist_key : option string) (jobs : option nat)
         (chunksize : nat),
    (forall cfg : Config,
        ClonotypeNeighbors_new _is_na ir_query_call adata cfg
        = Raise (TypeError "__init__() got an unexpected keyword argument 'match_columns'")) /\
    ir_query _is_na _validate_parameters adata reference sequence metric arms
      dual v_gene match_columns key_added dist_key jobs chunksize
    = match _validate_parameters adata reference arms dual match_columns
              dist_key sequence metric key_added with
      | Ok _ =>
          Raise (TypeError "__init__() got an unexpected keyword argument 'match_columns'")
      | Raise e => Raise e
      end.
Proof.
  intros. split; [reflexivity |].
  unfold ir_query.
  destruct (_validate_parameters adata reference arms dual match_columns
              dist_key sequence metric key_added) as [[[m d] k] | e];
    reflexivity.
Qed.

(** ** Computations that may raise *)

Lemma mapM_total {A B : Type} (f : A -> result B) (l : list A) :
  (forall a, In a l -> exists b, f a = Ok b) -> exists bs, mapM f l = Ok bs.
Proof.
  induction l as [| a l IH]; intros H; simpl.
  - now exists [].
  - destruct (H a (or_introl eq_refl)) as [b ->].
    destruct IH as [bs ->]; [intros x Hx; apply H; now right |].
    simpl. now exists (b :: bs).
Qed.

Lemma mapM_Forall2 {A B : Type} (f : A -> result B) (l : list A) (bs : list B) :
  mapM f l = Ok bs -> Forall2 (fun a b => f a = Ok b) l bs.
Proof.
  revert bs. induction l as [| a l IH]; intros bs; simpl.
  - intros E. injection E as <-. constructor.
  - destruct (f a) as [b |] eqn:Ea; simpl; [| discriminate].
    destruct (mapM f l) as [bs' |]; simpl; [| discriminate].
    intros E. injection E as <-. constructor; auto.
Qed.

Lemma mapM_length {A B : Type} (f : A -> result B) (l : list A) (bs : list B) :
  mapM f l = Ok bs -> List.length bs = List.length l.
Proof.
  intros H. apply mapM_Forall2 in H. symmetry. eapply Forall2_length; eauto.
Qed.

Lemma mapM_In {A B : Type} (f : A -> result B) (l : list A) (bs : list B) (b : B) :
  mapM f l = Ok bs -> In b bs -> exists a, In a l /\ f a = Ok b.
Proof.
  intros H. apply mapM_Forall2 in H.
  induction H as [| a b' l bs' Hab _ IH]; simpl; [tauto |].
  intros [<- | Hb].
  - exists a. auto.
  - destruct (IH Hb) as [a' [Ha' E]]. exists a'. auto.
Qed.

Lemma mapM_nth_error {A B : Type} (f : A -> result B) (l : list A)
  (bs : list B) (i : nat) (a : A) :
  mapM f l = Ok bs -> nth_error l i = Some a ->
  exists b, nth_error bs i = Some b /\ f a = Ok b.
Proof.
  intros H. apply mapM_Forall2 in H. revert i.
  induction H as [| a' b' l bs' Hab _ IH]; intros i Hi.
  - destruct i; discriminate.
  - destruct i as [| i]; simpl in *.
    + injection Hi as <-. exists b'. auto.
    + now apply IH.
Qed.

Lemma in_product {A B : Type} (l1 : list A) (l2 : list B) (a : A) (b : B) :
  In (a, b) (product l1 l2) <-> In a l1 /\ In b l2.
Proof.
  unfold product. rewrite in_flat_map. split.
  - intros [x [Hx Hin]]. apply in_map_iff in Hin.
    destruct Hin as [y [E Hy]]. injection E as -> ->. auto.
  - intros [Ha Hb]. exists a. split; [assumption |].
    apply in_map_iff. exists b. auto.
Qed.

(** ** What a well-formed engine provides *)

Lemma arms_not_empty (cfg : Config) : _receptor_arm_cols cfg <> [].
Proof. unfold _receptor_arm_cols. destruct (receptor_arms cfg); discriminate. Qed.

Lemma chain1_considered (cfg : Config) : In chain1 (_dual_ir_cols cfg).
Proof. unfold _dual_ir_cols. destruct (dual_ir cfg); simpl; auto. Qed.

Lemma chain2_considered (cfg : Config) :
  dual_ir cfg <> primary_only -> In chain2 (_dual_ir_cols cfg).
Proof. unfold _dual_ir_cols. destruct (dual_ir cfg); simpl; auto; congruence. Qed.

Lemma chain_ids_considered (cfg : Config) (c1 c2 : chain) :
  In (c1, c2) (chain_ids cfg) ->
  In c1 (_dual_ir_cols cfg) /\ In c2 (_dual_ir_cols cfg).
Proof.
  unfold chain_ids, _dual_ir_cols. destruct (dual_ir cfg); simpl;
    intros H; repeat (destruct H as [H | H]; [injection H as <- <-; auto |]);
    contradiction.
Qed.

Section Prepared.

Variable self : ClonotypeNeighbors.
Hypothesis Hprep : prepared self = true.

Let cfg := config self.
Let n := List.length (clonotypes self).

Lemma prepared_not_empty : n <> 0.
Proof.
  unfold prepared in Hprep. apply andb_prop in Hprep.
  destruct Hprep as [H _]. apply negb_true_iff in H. now apply Nat.eqb_neq.
Qed.

Lemma prepared_table_ready (a : arm) (c : chain) :
  In a (_receptor_arm_cols cfg) -> In c (_dual_ir_cols cfg) ->
  table_ready self a c = true.
Proof.
  intros Ha Hc. unfold prepared in Hprep. apply andb_prop in Hprep.
  destruct Hprep as [_ H]. rewrite forallb_forall in H.
  apply (H (a, c)). now apply in_product.
Qed.

Lemma prepared_column (a : arm) (c : chain) :
  In a (_receptor_arm_cols cfg) -> In c (_dual_ir_cols cfg) ->
  exists col, get_column (clonotypes self) (cdr3_col cfg a c) = Ok col /\
              List.length col = n.
Proof.
  intros Ha Hc. pose proof (prepared_table_ready a c Ha Hc) as T.
  unfold table_ready in T. apply andb_prop in T. destruct T as [T _].
  apply andb_prop in T. destruct T as [T _]. rewrite forallb_forall in T.
  destruct (mapM_total (fun r => get_field r (cdr3_col cfg a c)) (clonotypes self))
    as [col E].
  - intros r Hr. specialize (T r Hr). unfold has_field in T.
    fold cfg in T. destruct (get_field r (cdr3_col cfg a c)); [eauto | discriminate].
  - exists col. split; [exact E |]. now apply mapM_length in E.
Qed.

Lemma prepared_field (a : arm) (c : chain) (r : record) :
  In a (_receptor_arm_cols cfg) -> In c (_dual_ir_cols cfg) ->
  In r (clonotypes self) -> exists v, get_field r (cdr3_col cfg a c) = Ok v.
Proof.
  intros Ha Hc Hr. pose proof (prepared_table_ready a c Ha Hc) as T.
  unfold table_ready in T. apply andb_prop in T. destruct T as [T _].
  apply andb_prop in T. destruct T as [T _]. rewrite forallb_forall in T.
  specialize (T r Hr). unfold has_field in T. fold cfg in T.
  destruct (get_field r (cdr3_col cfg a c)); [eauto | discriminate].
Qed.

Lemma prepared_lookup_table (a : arm) (c : chain) :
  In a (_receptor_arm_cols cfg) -> In c (_dual_ir_cols cfg) ->
  exists t, dict_find (lookups (neighbor_finder self)) (table_name a c) = Ok t /\
            lt_distance_matrix t = arm_name a /\
            List.length (lt_forward t) = n.
Proof.
  intros Ha Hc. pose proof (prepared_table_ready a c Ha Hc) as T.
  unfold table_ready in T. apply andb_prop in T. destruct T as [T _].
  apply andb_prop in T. destruct T as [_ T].
  destruct (dict_find (lookups (neighbor_finder self)) (table_name a c)) as [t |];
    [| discriminate].
  apply andb_prop in T. destruct T as [T1 T2].
  exists t. split; [reflexivity |]. split.
  - now apply String.eqb_eq.
  - now apply Nat.eqb_eq.
Qed.

Lemma prepared_matrix (a : arm) :
  In a (_receptor_arm_cols cfg) ->
  exists dm, dict_find (distance_matrices (neighbor_finder self)) (arm_name a) = Ok dm.
Proof.
  intros Ha. pose proof (prepared_table_ready a chain1 Ha (chain1_considered cfg)) as T.
  unfold table_ready in T. apply andb_prop in T. destruct T as [_ T].
  destruct (dict_find (distance_matrices (neighbor_finder self)) (arm_name a));
    [eauto | discriminate].
Qed.

Lemma prepared_lookup (ct_id : nat) (a : arm) (c1 c2 : chain) :
  ct_id < n ->
  In a (_receptor_arm_cols cfg) ->
  In c1 (_dual_ir_cols cfg) -> In c2 (_dual_ir_cols cfg) ->
  exists x, lookup (neighbor_finder self) ct_id (table_name a c1) (table_name a c2)
            = Ok x /\ List.length x = n.
Proof.
  intros Hct Ha H1 H2.
  destruct (prepared_lookup_table a c1 Ha H1) as [ta [Ea [Ma La]]].
  destruct (prepared_lookup_table a c2 Ha H2) as [tb [Eb [Mb Lb]]].
  destruct (prepared_matrix a Ha) as [dm Em].
  unfold lookup. rewrite Ea, Eb. simpl. rewrite Ma, Mb, String.eqb_refl. simpl.
  rewrite Em. simpl.
  destruct (nth_error (lt_forward ta) ct_id) as [[i |] |] eqn:E.
  - eexists. split; [reflexivity |]. now rewrite length_map.
  - eexists. split; [reflexivity |]. now rewrite length_map.
  - apply nth_error_None in E. lia.
Qed.

End Prepared.

(** ** The aggregator on a well-formed engine *)

Lemma Forall2_In_left {A B : Type} (R : A -> B -> Prop) (l : list A)
  (l' : list B) (a : A) :
  Forall2 R l l' -> In a l -> exists b, In b l' /\ R a b.
Proof.
  induction 1 as [| x y l l' Hxy _ IH]; simpl; [tauto |].
  intros [<- | Ha].
  - exists y. auto.
  - destruct (IH Ha) as [b [Hb Hr]]. exists b. auto.
Qed.

Lemma lookup_key_eqb_refl (k : lookup_key) : lookup_key_eqb k k = true.
Proof. destruct k as [[a c1] c2]. now destruct a, c1, c2. Qed.

Lemma lookup_find_member (ld : list (lookup_key * list Z)) (k : lookup_key)
  (x' : list Z) :
  In (k, x') ld -> exists x, lookup_find ld k = Ok x /\ In x (map snd ld).
Proof.
  induction ld as [| [k0 x0] ld IH]; simpl; [tauto |].
  intros H. destruct (lookup_key_eqb k0 k) eqn:E.
  - exists x0. auto.
  - destruct H as [H | H].
    + injection H as -> ->. now rewrite lookup_key_eqb_refl in E.
    + destruct (IH H) as [x [Ex Hx]]. exists x. auto.
Qed.

Lemma has_distance_of_uniform (xs : list (list Z)) (w : nat) :
  xs <> [] -> (forall x, In x xs -> List.length x = w) ->
  exists d,
    has_distance_of xs
    = Ok {| ncols := w;
            indices := filter (fun j => existsb (nonzero_at j) xs) (seq 0 w);
            data := d |}.
Proof.
  intros Hne Hlen. destruct xs as [| x rest]; [congruence |].
  unfold has_distance_of.
  assert (E : forallb (fun x' => Nat.eqb (List.length x') (List.length x)) rest = true).
  { apply forallb_forall. intros y Hy. apply Nat.eqb_eq.
    rewrite (Hlen y), (Hlen x); simpl; auto. }
  rewrite E. rewrite (Hlen x) by now left.
  eexists. reflexivity.
Qed.

Lemma vstack_uniform (args : list (list fval)) (w : nat) :
  args <> [] -> (forall r, In r args -> List.length r = w) ->
  vstack args = Ok args /\ width args = w.
Proof.
  intros Hne Hlen. destruct args as [| r rest]; [congruence |].
  simpl. split; [| apply Hlen; now left].
  assert (E : forallb (fun r' => Nat.eqb (List.length r') (List.length r)) rest = true).
  { apply forallb_forall. intros y Hy. apply Nat.eqb_eq.
    rewrite (Hlen y), (Hlen r); simpl; auto. }
  now rewrite E.
Qed.

Lemma reduce_or_total (args : list (list fval)) (w : nat) :
  args <> [] -> (forall r, In r args -> List.length r = w) ->
  exists res, reduce_or args = Ok res /\ List.length res = w.
Proof.
  intros Hne Hlen. destruct (vstack_uniform args w Hne Hlen) as [E W].
  unfold reduce_or. rewrite E. simpl. eexists. split; [reflexivity |].
  now rewrite length_columns.
Qed.

Lemma reduce_and_total (clonotypes : DataFrame) (ct_id : nat)
  (cols : list string) (count : nat) (args : list (list fval)) (w : nat) :
  chain_count clonotypes ct_id cols = Ok count ->
  args <> [] -> (forall r, In r args -> List.length r = w) ->
  exists res, reduce_and clonotypes ct_id args cols = Ok res /\
              List.length res = w.
Proof.
  intros Hc Hne Hlen. destruct (vstack_uniform args w Hne Hlen) as [E W].
  unfold reduce_and. rewrite Hc, E. simpl. eexists. split; [reflexivity |].
  now rewrite length_columns.
Qed.

Lemma fill_exists (nf : DoubleLookupNeighborFinder) (ct_id j : nat)
  (l : list (arm * (chain * chain))) (ld : list (lookup_key * list Z)) :
  mapM (fun ac =>
          match ac with
          | (tmp_arm, (c1, c2)) =>
              x <- lookup nf ct_id (table_name tmp_arm c1) (table_name tmp_arm c2) ;;
              Ok ((tmp_arm, c1, c2), x)
          end) l = Ok ld ->
  existsb (nonzero_at j) (map snd ld)
  = existsb (fun ac =>
               match ac with
               | (a, (c1, c2)) =>
                   match lookup nf ct_id (table_name a c1) (table_name a c2) with
                   | Ok x => negb (Z.eqb (nth j x 0%Z) 0)
                   | Raise _ => false
                   end
               end) l.
Proof.
  revert ld. induction l as [| [a [c1 c2]] l IH]; intros ld; simpl.
  - intros E. injection E as <-. reflexivity.
  - destruct (lookup nf ct_id (table_name a c1) (table_name a c2)) as [x |];
      simpl; [| discriminate].
    destruct (mapM _ l) as [ld' |] eqn:E'; simpl; [| discriminate].
    intros E. injection E as <-. simpl. now rewrite (IH ld' eq_refl).
Qed.

Section Aggregator.

Variable self : ClonotypeNeighbors.
Hypothesis Hprep : prepared self = true.
Variable ct_id : nat.
Hypothesis Hct : ct_id < List.length (clonotypes self).

Let cfg := config self.
Let n := List.length (clonotypes self).

Lemma fill_lookup_total :
  exists ld,
    fill_lookup self ct_id = Ok ld /\
    (forall k x, In (k, x) ld -> List.length x = n) /\
    (forall a c1 c2, In a (_receptor_arm_cols cfg) -> In (c1, c2) (chain_ids cfg) ->
                     exists x, In ((a, c1, c2), x) ld) /\
    (forall j, existsb (nonzero_at j) (map snd ld) = has_any_neighbor self ct_id j).
Proof.
  unfold fill_lookup. fold cfg.
  match goal with
  | |- exists ld, mapM ?F ?l = Ok ld /\ _ => destruct (mapM_total F l) as [ld E]
  end.
  { intros [a [c1 c2]] Hin. apply in_product in Hin. destruct Hin as [Ha Hc].
    apply chain_ids_considered in Hc. destruct Hc as [H1 H2].
    destruct (prepared_lookup self Hprep ct_id a c1 c2 Hct Ha H1 H2) as [x [Ex _]].
    rewrite Ex. simpl. eauto. }
  exists ld. split; [exact E |]. split; [| split].
  - intros k x Hin. destruct (mapM_In _ _ _ _ E Hin) as [[a [c1 c2]] [Hac Ek]].
    apply in_product in Hac. destruct Hac as [Ha Hc].
    apply chain_ids_considered in Hc. destruct Hc as [H1 H2].
    destruct (prepared_lookup self Hprep ct_id a c1 c2 Hct Ha H1 H2) as [x' [Ex Lx]].
    rewrite Ex in Ek. simpl in Ek. injection Ek as _ <-. exact Lx.
  - intros a c1 c2 Ha Hc.
    assert (Hin : In (a, (c1, c2)) (product (_receptor_arm_cols cfg) (chain_ids cfg)))
      by now apply in_product.
    destruct (Forall2_In_left _ _ _ _ (mapM_Forall2 _ _ _ E) Hin) as [[k x] [Hk Ek]].
    simpl in Ek.
    destruct (lookup (neighbor_finder self) ct_id (table_name a c1) (table_name a c2))
      as [x' |]; simpl in Ek; [| discriminate].
    injection Ek as <- <-. eauto.
  - intros j. unfold has_any_neighbor. fold cfg.
    now apply fill_exists.
Qed.

Lemma chain_count_total (cols : list string) :
  (forall col, In col cols ->
     exists a c, In a (_receptor_arm_cols cfg) /\ In c (_dual_ir_cols cfg) /\
                 col = cdr3_col cfg a c) ->
  exists count, chain_count (clonotypes self) ct_id cols = Ok count.
Proof.
  intros Hcols. unfold chain_count, loc_iloc.
  destruct (mapM_total (get_column (clonotypes self)) cols) as [cs ->].
  { intros col Hcol. destruct (Hcols col Hcol) as [a [c [Ha [Hc ->]]]].
    destruct (prepared_column self Hprep a c Ha Hc) as [v [Ev _]]. eauto. }
  simpl.
  destruct (nth_error (clonotypes self) ct_id) as [r |] eqn:Er.
  - destruct (mapM_total (get_field r) cols) as [vs ->].
    { intros col Hcol. destruct (Hcols col Hcol) as [a [c [Ha [Hc ->]]]].
      apply (prepared_field self Hprep a c r Ha Hc).
      eapply nth_error_In; eauto. }
    simpl. eauto.
  - apply nth_error_None in Er. lia.
Qed.

End Aggregator.

Section Rows.

Variable self : ClonotypeNeighbors.
Hypothesis Hprep : prepared self = true.
Variable ct_id : nat.
Hypothesis Hct : ct_id < List.length (clonotypes self).

Variable lookup_dict : list (lookup_key * list Z).
Hypothesis Hlen : forall k x, In (k, x) lookup_dict ->
                              List.length x = List.length (clonotypes self).
Hypothesis Hkeys :
  forall a c1 c2, In a (_receptor_arm_cols (config self)) ->
                  In (c1, c2) (chain_ids (config self)) ->
                  exists x, In ((a, c1, c2), x) lookup_dict.

Variable has_distance : sparse_row.
Hypothesis Hix : forall i, In i (indices has_distance) ->
                           i < List.length (clonotypes self).

Let k := List.length (indices has_distance).

Lemma make_tmp_res_total (a : arm) (c1 c2 : chain) :
  In a (_receptor_arm_cols (config self)) -> In (c1, c2) (chain_ids (config self)) ->
  exists r, make_tmp_res self lookup_dict has_distance a c1 c2 = Ok r /\
            List.length r = k.
Proof.
  intros Ha Hc. destruct (chain_ids_considered (config self) c1 c2 Hc) as [H1 H2].
  destruct (prepared_column self Hprep a c2 Ha H2) as [col [Ecol Lcol]].
  unfold make_tmp_res. rewrite Ecol. simpl.
  match goal with
  | |- exists r, mapM ?F ?l = Ok r /\ _ => destruct (mapM_total F l) as [r E]
  end.
  - intros i Hi. specialize (Hix i Hi).
    destruct (nth_error col i) as [v |] eqn:Ev;
      [| apply nth_error_None in Ev; lia].
    destruct (negb (is_nan_str v)); [| eauto].
    destruct (Hkeys a c1 c2 Ha Hc) as [x' Hx'].
    destruct (lookup_find_member lookup_dict (a, c1, c2) x' Hx') as [x [Ex Hx]].
    rewrite Ex. simpl. apply in_map_iff in Hx. destruct Hx as [[k0 x0] [E0 Hx0]].
    simpl in E0. subst x0. pose proof (Hlen k0 x Hx0) as Lx.
    destruct (nth_error x i) as [d |] eqn:Ed;
      [eauto | apply nth_error_None in Ed; lia].
  - exists r. split; [exact E |]. now apply mapM_length in E.
Qed.

Lemma arm_res_total (a : arm) :
  In a (_receptor_arm_cols (config self)) ->
  exists r, arm_res self ct_id lookup_dict has_distance a = Ok r /\
            List.length r = k.
Proof.
  intros Ha. unfold arm_res. cbv zeta.
  assert (Hids : forall c1 c2, dual_ir (config self) <> primary_only ->
                               In (c1, c2) (chain_ids (config self))).
  { intros c1 c2 Hd. unfold chain_ids. destruct (dual_ir (config self)); [congruence | |];
      destruct c1, c2; simpl; auto. }
  destruct (dual_ir (config self)) eqn:Ed.
  - apply make_tmp_res_total; [assumption |].
    unfold chain_ids. rewrite Ed. now left.
  - assert (Hd : dual_all <> primary_only) by discriminate.
    destruct (make_tmp_res_total a chain1 chain1 Ha (Hids _ _ Hd)) as [r11 [-> L11]].
    destruct (make_tmp_res_total a chain2 chain2 Ha (Hids _ _ Hd)) as [r22 [-> L22]].
    destruct (make_tmp_res_total a chain1 chain2 Ha (Hids _ _ Hd)) as [r12 [-> L12]].
    destruct (make_tmp_res_total a chain2 chain1 Ha (Hids _ _ Hd)) as [r21 [-> L21]].
    cbn [bind].
    destruct (chain_count_total self Hprep ct_id Hct
                (map (cdr3_col (config self) a) [chain1; chain2])) as [count Ec].
    { intros col [<- | [<- | []]]; exists a; eexists; (split; [exact Ha |]);
        (split; [| reflexivity]).
      - apply chain1_considered.
      - apply chain2_considered. congruence. }
    destruct (reduce_and_total (clonotypes self) ct_id _ count [r11; r22] k Ec)
      as [a1 [-> La1]]; [discriminate | intros r [<- | [<- | []]]; assumption |].
    cbn [bind].
    destruct (reduce_and_total (clonotypes self) ct_id _ count [r12; r21] k Ec)
      as [a2 [-> La2]]; [discriminate | intros r [<- | [<- | []]]; assumption |].
    cbn [bind].
    apply reduce_or_total; [discriminate |].
    intros r [<- | [<- | []]]; assumption.
  - assert (Hd : dual_any <> primary_only) by discriminate.
    destruct (make_tmp_res_total a chain1 chain1 Ha (Hids _ _ Hd)) as [r11 [-> L11]].
    destruct (make_tmp_res_total a chain1 chain2 Ha (Hids _ _ Hd)) as [r12 [-> L12]].
    destruct (make_tmp_res_total a chain2 chain2 Ha (Hids _ _ Hd)) as [r22 [-> L22]].
    destruct (make_tmp_res_total a chain2 chain1 Ha (Hids _ _ Hd)) as [r21 [-> L21]].
    cbn [bind].
    apply reduce_or_total; [discriminate |].
    intros r [<- | [<- | [<- | [<- | []]]]]; assumption.
Qed.

End Rows.

Lemma chain11_listed (cfg : Config) : In (chain1, chain1) (chain_ids cfg).
Proof. unfold chain_ids. destruct (dual_ir cfg); simpl; auto. Qed.

Lemma stored_absent (ix : list nat) (d : list fval) (j : nat) :
  ~ In j ix -> stored ix d j = Num 0.
Proof.
  revert d. induction ix as [| i ix IH]; intros d Hj; simpl; [reflexivity |].
  destruct d as [| x d]; [reflexivity |].
  destruct (Nat.eqb_spec i j) as [-> | _].
  - exfalso. apply Hj. now left.
  - apply IH. intros H. apply Hj. now right.
Qed.

Lemma dist_for_clonotype_total (self : ClonotypeNeighbors) (ct_id : nat) :
  prepared self = true ->
  ct_id < List.length (clonotypes self) ->
  exists res,
    _dist_for_clonotype self ct_id
    = Ok {| ncols := List.length (clonotypes self);
            indices := filter (has_any_neighbor self ct_id)
                              (seq 0 (List.length (clonotypes self)));
            data := res |} /\
    List.length res
    = List.length (filter (has_any_neighbor self ct_id)
                          (seq 0 (List.length (clonotypes self)))).
Proof.
  intros Hprep Hct.
  destruct (fill_lookup_total self Hprep ct_id Hct) as [ld [E [Hlen [Hkeys Hex]]]].
  assert (Harm : exists a, In a (_receptor_arm_cols (config self))).
  { pose proof (arms_not_empty (config self)) as N.
    destruct (_receptor_arm_cols (config self)) as [| a l]; [congruence |].
    exists a. now left. }
  assert (Hne : map snd ld <> []).
  { destruct Harm as [a Ha].
    destruct (Hkeys a chain1 chain1 Ha (chain11_listed _)) as [x Hx].
    intros N. assert (H : In x (map snd ld)).
    { apply in_map_iff. exists ((a, chain1, chain1), x). auto. }
    rewrite N in H. contradiction. }
  destruct (has_distance_of_uniform (map snd ld) (List.length (clonotypes self)) Hne)
    as [d Ehd].
  { intros x Hx. apply in_map_iff in Hx. destruct Hx as [[k0 x0] [<- Hx0]].
    simpl. eapply Hlen; eauto. }
  rewrite (filter_ext _ _ Hex) in Ehd.
  set (ix := filter (has_any_neighbor self ct_id)
                    (seq 0 (List.length (clonotypes self)))) in *.
  set (hd := {| ncols := List.length (clonotypes self); indices := ix; data := d |}) in *.
  assert (Hix : forall i, In i (indices hd) -> i < List.length (clonotypes self)).
  { intros i Hi. simpl in Hi. unfold ix in Hi. apply filter_In in Hi.
    destruct Hi as [Hi _]. apply in_seq in Hi. lia. }
  destruct (mapM_total (arm_res self ct_id ld hd) (_receptor_arm_cols (config self)))
    as [res Eres].
  { intros a Ha.
    destruct (arm_res_total self Hprep ct_id Hct ld Hlen Hkeys hd Hix a Ha)
      as [r [Er _]]. eauto. }
  assert (Lres : forall r, In r res -> List.length r = List.length ix).
  { intros r Hr. destruct (mapM_In _ _ _ _ Eres Hr) as [a [Ha Ea]].
    destruct (arm_res_total self Hprep ct_id Hct ld Hlen Hkeys hd Hix a Ha)
      as [r' [Er Lr]]. rewrite Er in Ea. injection Ea as <-. exact Lr. }
  assert (Nres : res <> []).
  { intros N. apply mapM_length in Eres. rewrite N in Eres. simpl in Eres.
    destruct Harm as [a Ha].
    destruct (_receptor_arm_cols (config self)); [contradiction | discriminate]. }
  destruct (vstack_uniform res (List.length ix) Nres Lres) as [Ev _].
  assert (Hout : exists res',
             match receptor_arms (config self) with
             | arms_all =>
                 reduce_and (clonotypes self) ct_id res
                   (map (fun a => cdr3_col (config self) a chain1)
                        (_receptor_arm_cols (config self)))
             | _ => reduce_or res
             end = Ok res' /\ List.length res' = List.length ix).
  { destruct (chain_count_total self Hprep ct_id Hct
                (map (fun a => cdr3_col (config self) a chain1)
                     (_receptor_arm_cols (config self)))) as [count Ec].
    { intros col Hcol. apply in_map_iff in Hcol. destruct Hcol as [a [<- Ha]].
      exists a, chain1. split; [assumption |].
      split; [apply chain1_considered | reflexivity]. }
    destruct (receptor_arms (config self));
      first [ now apply reduce_or_total
            | now apply (reduce_and_total _ _ _ count) ]. }
  destruct Hout as [res' [Eout Lout]].
  exists res'. split; [| exact Lout].
  unfold _dist_for_clonotype. rewrite E. cbn [bind]. rewrite Ehd. cbn [bind].
  rewrite Eres. cbn [bind]. rewrite Ev. cbn [bind]. rewrite Eout. reflexivity.
Qed.

(** ** The row is confined to the has-any-neighbor columns *)

(** On a well-formed engine the aggregator returns a row as wide as the
    clonotype table whose stored columns are the columns with a nonzero
    entry in at least one chain-pair lookup; the other columns read 0. *)
Lemma prepared_row_within_mask :
  forall (self : ClonotypeNeighbors) (ct_id : nat),
    prepared self = true ->
    ct_id < List.length (clonotypes self) ->
    exists row,
      _dist_for_clonotype self ct_id = Ok row /\
      ncols row = List.length (clonotypes self) /\
      List.length (data row) = List.length (indices row) /\
      (forall j, In j (indices row) <-> has_any_neighbor self ct_id j = true) /\
      (forall j, has_any_neighbor self ct_id j = false -> row_get row j = Num 0).
Proof.
  intros self ct_id Hprep Hct.
  destruct (dist_for_clonotype_total self ct_id Hprep Hct) as [res [E L]].
  eexists. split; [exact E |]. simpl. split; [reflexivity |]. split; [exact L |].
  assert (Hin : forall j,
             In j (filter (has_any_neighbor self ct_id)
                          (seq 0 (List.length (clonotypes self))))
             <-> has_any_neighbor self ct_id j = true).
  { intros j. rewrite filter_In, in_seq. split; [tauto |].
    intros H. split; [| exact H]. split; [lia |]. simpl.
    destruct (Nat.lt_ge_cases j (List.length (clonotypes self))) as [Hj | Hj];
      [exact Hj | exfalso].
    unfold has_any_neighbor in H. apply existsb_exists in H.
    destruct H as [[a [c1 c2]] [Hac Hnz]]. apply in_product in Hac.
    destruct Hac as [Ha Hc]. apply chain_ids_considered in Hc.
    destruct Hc as [H1 H2].
    destruct (prepared_lookup self Hprep ct_id a c1 c2 Hct Ha H1 H2) as [x [Ex Lx]].
    rewrite Ex in Hnz. rewrite nth_overflow in Hnz by lia. discriminate. }
  split; [exact Hin |].
  intros j Hj. unfold row_get. simpl. apply stored_absent.
  rewrite Hin, Hj. discriminate.
Qed.

(** ** The orchestrator on a well-formed engine *)

Lemma nth_error_seq0 (n i : nat) : i < n -> nth_error (seq 0 n) i = Some i.
Proof.
  intros H. rewrite (nth_error_nth' (seq 0 n) 0) by (now rewrite length_seq).
  now rewrite seq_nth.
Qed.

Lemma eliminate_zeros_row_spec (ix : list nat) (d : list fval) :
  List.length (fst (eliminate_zeros_row (ix, d)))
  = List.length (snd (eliminate_zeros_row (ix, d))) /\
  (forall x, In x (snd (eliminate_zeros_row (ix, d))) -> is_zero x = false) /\
  (NoDup ix -> forall j,
      stored (fst (eliminate_zeros_row (ix, d))) (snd (eliminate_zeros_row (ix, d))) j
      = stored ix d j).
Proof.
  unfold eliminate_zeros_row. simpl fst. simpl snd.
  revert d. induction ix as [| i ix IH]; intros d.
  - simpl. split; [reflexivity |]. split; [intros x [] | reflexivity].
  - destruct d as [| x d].
    + simpl. split; [reflexivity |]. split; [intros y [] | reflexivity].
    + destruct (IH d) as [IL [IZ IS]]. simpl combine. simpl filter.
      destruct (is_zero x) eqn:Ex; simpl negb; cbv iota.
      * split; [exact IL |]. split; [exact IZ |].
        intros ND j. inversion ND as [| ? ? Hni ND']; subst.
        rewrite (IS ND' j). simpl.
        destruct (Nat.eqb_spec i j) as [-> | _]; [| reflexivity].
        rewrite stored_absent by assumption.
        destruct x as [| | z]; try discriminate. simpl in Ex.
        apply Z.eqb_eq in Ex. now subst.
      * simpl split. destruct (split (filter (fun p => negb (is_zero (snd p)))
                                             (combine ix d))) as [a b] eqn:Es.
        simpl in *. split; [now rewrite IL |]. split.
        -- intros y [<- | Hy]; [exact Ex | now apply IZ].
        -- intros ND j. inversion ND as [| ? ? Hni ND']; subst.
           destruct (Nat.eqb i j); [reflexivity | now apply IS].
Qed.

(** On a well-formed engine with [n] clonotype rows [compute_distances]
    returns an [n] by [n] matrix whose row [i] is the aggregator's row for
    clonotype [i] with the stored zeros dropped. *)
Lemma prepared_distances_stack :
  forall (self : ClonotypeNeighbors),
    prepared self = true ->
    exists dist,
      compute_distances self = Ok dist /\
      shape dist = (List.length (clonotypes self), List.length (clonotypes self)) /\
      List.length (rows dist) = List.length (clonotypes self) /\
      (forall i, i < List.length (clonotypes self) ->
         exists row,
           _dist_for_clonotype self i = Ok row /\
           nth_error (rows dist) i
           = Some (eliminate_zeros_row (indices row, data row)) /\
           forall j, csr_get dist i j = row_get row j) /\
      (forall i ix d, nth_error (rows dist) i = Some (ix, d) ->
         List.length ix = List.length d /\
         forall x, In x d -> is_zero x = false).
Proof.
  intros self Hprep.
  set (n := List.length (clonotypes self)).
  destruct (mapM_total (_dist_for_clonotype self) (seq 0 n)) as [dist_rows E].
  { intros i Hi. apply in_seq in Hi.
    destruct (dist_for_clonotype_total self i Hprep) as [res [Ei _]]; [lia |].
    eauto. }
  assert (Hrow : forall row, In row dist_rows ->
             ncols row = n /\ NoDup (indices row)).
  { intros row Hr. destruct (mapM_In _ _ _ _ E Hr) as [i [Hi Ei]].
    apply in_seq in Hi.
    destruct (dist_for_clonotype_total self i Hprep) as [res [Ei' _]]; [lia |].
    rewrite Ei' in Ei. injection Ei as <-. simpl. split; [reflexivity |].
    apply NoDup_filter, seq_NoDup. }
  assert (Ln : List.length dist_rows = n).
  { apply mapM_length in E. now rewrite length_seq in E. }
  unfold compute_distances. fold n. rewrite E. cbn [bind].
  destruct dist_rows as [| b rest] eqn:Edr.
  { exfalso. apply (prepared_not_empty self Hprep). symmetry. exact Ln. }
  unfold sp_vstack.
  assert (F : forallb (fun b' => Nat.eqb (ncols b') (ncols b)) rest = true).
  { apply forallb_forall. intros r Hr. apply Nat.eqb_eq.
    rewrite (proj1 (Hrow r (or_intror Hr))).
    now rewrite (proj1 (Hrow b (or_introl eq_refl))). }
  rewrite F. cbn [bind]. rewrite <- Edr in *. clear F.
  eexists. split; [reflexivity |].
  unfold eliminate_zeros. cbn [shape rows].
  split; [| split; [| split]].
  - rewrite Ln. f_equal. apply (Hrow b). rewrite Edr. now left.
  - now rewrite !length_map.
  - intros i Hi.
    destruct (mapM_nth_error _ _ _ i i E (nth_error_seq0 n i Hi)) as [row [Hn Er]].
    exists row. split; [exact Er |].
    assert (Hn' : nth_error (map eliminate_zeros_row
                               (map (fun r => (indices r, data r)) dist_rows)) i
                  = Some (eliminate_zeros_row (indices row, data row))).
    { rewrite map_map. now rewrite nth_error_map, Hn. }
    split; [exact Hn' |].
    intros j. unfold csr_get. cbn [rows]. rewrite Hn'.
    destruct (eliminate_zeros_row (indices row, data row)) as [ix d] eqn:Ee.
    pose proof (eliminate_zeros_row_spec (indices row) (data row)) as [_ [_ S]].
    rewrite Ee in S. simpl in S. unfold row_get. apply S.
    apply (Hrow row). eapply nth_error_In; eauto.
  - intros i ix d Hn. rewrite map_map in Hn. rewrite nth_error_map in Hn.
    destruct (nth_error dist_rows i) as [row |]; [| discriminate].
    simpl in Hn. injection Hn as Hn.
    pose proof (eliminate_zeros_row_spec (indices row) (data row)) as [L [Z _]].
    rewrite Hn in L, Z. simpl in L, Z. auto.
Qed.

(** ** Records and frames *)

Lemma get_field_tabulate (f : string -> entry) (cols : list string) (col : string) :
  In col cols -> get_field (map (fun c => (c, f c)) cols) col = Ok (f col).
Proof.
  induction cols as [| c cols IH]; simpl; [tauto |].
  intros H. destruct (String.eqb_spec c col) as [-> | Hne]; [reflexivity |].
  destruct H as [H | H]; [contradiction | now apply IH].
Qed.

Lemma combine_tabulate (f : string -> entry) (cols : list string) :
  combine cols (map snd (map (fun c => (c, f c)) cols))
  = map (fun c => (c, f c)) cols.
Proof. induction cols as [| c cols IH]; simpl; [reflexivity | now rewrite IH]. Qed.

Lemma get_field_filter (r : record) (col col' : string) :
  col' <> col ->
  get_field (filter (fun cv => negb (String.eqb (fst cv) col)) r) col'
  = get_field r col'.
Proof.
  intros Hne. induction r as [| [c v] r IH]; simpl; [reflexivity |].
  destruct (String.eqb_spec c col) as [-> | Hc]; simpl.
  - destruct (String.eqb_spec col col'); [congruence | exact IH].
  - destruct (String.eqb c col'); [reflexivity | exact IH].
Qed.

Lemma get_field_set_field (r : record) (k col : string) (v : entry) :
  col <> k -> get_field (set_field r k v) col = get_field r col.
Proof.
  intros Hne. induction r as [| [c w] r IH]; simpl.
  - destruct (String.eqb_spec k col); [congruence | reflexivity].
  - destruct (String.eqb_spec c k) as [-> | Hc]; simpl.
    + destruct (String.eqb_spec k col); [congruence | reflexivity].
    + destruct (String.eqb c col); [reflexivity | exact IH].
Qed.

Lemma del_fields_total (wg : list string) (r : record) :
  NoDup wg ->
  (forall c, In c wg -> exists v, get_field r c = Ok v) ->
  exists r', del_fields wg r = Ok r' /\
             forall col, ~ In col wg -> get_field r' col = get_field r col.
Proof.
  revert r. induction wg as [| c wg IH]; intros r ND Hall; simpl.
  - exists r. auto.
  - inversion ND as [| ? ? Hnin ND']; subst.
    unfold del_field. destruct (Hall c (or_introl eq_refl)) as [v ->]. simpl.
    destruct (IH (filter (fun cv => negb (String.eqb (fst cv) c)) r) ND')
      as [r' [E Hr']].
    + intros c' Hc'. rewrite get_field_filter.
      * apply Hall. now right.
      * intros ->. contradiction.
    + exists r'. split; [exact E |].
      intros col Hcol. rewrite Hr' by tauto.
      apply get_field_filter. intros ->. apply Hcol. now left.
Qed.

Lemma fold_within_group_total (wg : list string) (r : record) :
  NoDup wg ->
  (forall c, In c wg -> exists v, get_field r c = Ok v) ->
  exists r', fold_within_group wg r = Ok r' /\
             forall col, ~ In col wg -> col <> "within_group" ->
                         get_field r' col = get_field r col.
Proof.
  intros ND Hall. unfold fold_within_group.
  destruct (mapM_total (get_field r) wg Hall) as [t ->]. simpl.
  destruct (del_fields_total wg r ND Hall) as [r' [-> Hr']]. simpl.
  eexists. split; [reflexivity |].
  intros col Hcol Hwg. rewrite get_field_set_field by assumption.
  now apply Hr'.
Qed.

Lemma unique_first_keeps (l : list (list entry)) (x : list entry) :
  In x l -> In x (unique_first l).
Proof.
  induction l as [| y l IH]; simpl; [tauto |].
  intros [-> | H]; [now left |].
  unfold tuple_eqb.
  destruct (list_eq_dec entry_eq_dec y x) as [-> | Hne]; [now left |].
  right. apply filter_In. split; [now apply IH |].
  unfold tuple_eqb. destruct (list_eq_dec entry_eq_dec y x); [contradiction | reflexivity].
Qed.

Lemma unique_first_sound (l : list (list entry)) (x : list entry) :
  In x (unique_first l) -> In x l.
Proof.
  induction l as [| y l IH]; simpl; [tauto |].
  intros [-> | H]; [now left |].
  apply filter_In in H. right. now apply IH.
Qed.

Lemma get_column_Forall2 (df : DataFrame) (col : string) (vs : list entry) :
  get_column df col = Ok vs ->
  Forall2 (fun r v => get_field r col = Ok v) df vs.
Proof. apply mapM_Forall2. Qed.

Lemma Forall2_combine_In {A B C : Type} (R1 : A -> B -> Prop) (R2 : A -> C -> Prop)
  (l : list A) (p : list B) (s : list C) (a : A) :
  Forall2 R1 l p -> Forall2 R2 l s -> In a l ->
  exists b c, In (b, c) (combine p s) /\ R1 a b /\ R2 a c.
Proof.
  intros H1. revert s. induction H1 as [| x b l p Hx _ IH]; intros s H2 Ha.
  - contradiction.
  - inversion H2 as [| ? c ? s' Hc H2']; subst. simpl.
    destruct Ha as [<- | Ha].
    + exists b, c. auto.
    + destruct (IH s' H2' Ha) as [b' [c' [Hin [Hb Hc']]]].
      exists b', c'. auto.
Qed.

Lemma cdr3_col_not_within_group (cfg : Config) (a : arm) (c : chain) :
  cdr3_col cfg a c <> "within_group".
Proof. unfold cdr3_col. simpl. discriminate. Qed.

Lemma cdr3_col_listed (cfg : Config) (a : arm) (c : chain) :
  In a (_receptor_arm_cols cfg) -> In c (_dual_ir_cols cfg) ->
  In (cdr3_col cfg a c) (clonotype_cols cfg).
Proof.
  intros Ha Hc. unfold clonotype_cols, _cdr3_cols. apply in_or_app. left.
  apply in_map_iff. exists (a, c). split; [reflexivity |]. now apply in_product.
Qed.

Lemma existsb_eqb_In (x : string) (l : list string) :
  existsb (String.eqb x) l = true <-> In x l.
Proof.
  rewrite existsb_exists. split.
  - intros [y [Hy E]]. apply String.eqb_eq in E. now subst.
  - intros H. exists x. split; [assumption | apply String.eqb_refl].
Qed.

Lemma is_unique_NoDup (l : list string) : is_unique l = true <-> NoDup l.
Proof.
  induction l as [| x l IH]; simpl.
  - split; [constructor | reflexivity].
  - rewrite andb_true_iff, negb_true_iff, IH. split.
    + intros [Hx Hl]. constructor; [| assumption].
      intros Hin. apply existsb_eqb_In in Hin. congruence.
    + intros H. inversion H as [| ? ? Hx Hl]; subst. split; [| assumption].
      destruct (existsb (String.eqb x) l) eqn:E; [| reflexivity].
      apply existsb_eqb_In in E. contradiction.
Qed.

Lemma has_column_In (cols : list string) (col : string) :
  has_column cols col = true <-> In col cols.
Proof. apply existsb_eqb_In. Qed.

Lemma filter_nil_iff {A : Type} (P : A -> bool) (l : list A) :
  filter P l = [] <-> forall x, In x l -> P x = false.
Proof.
  induction l as [| a l IH]; simpl.
  - split; [intros _ x [] | reflexivity].
  - destruct (P a) eqn:E.
    + split; [discriminate |]. intros H. specialize (H a (or_introl eq_refl)).
      congruence.
    + rewrite IH. split.
      * intros H x [<- | Hx]; auto.
      * intros H x Hx. apply H. now right.
Qed.

(** The selection of line 80 and the loop of lines 83-85 succeed exactly
    when the frame has the columns and no column is listed twice. *)
Lemma obs_filtered_ok_iff (_is_na : string -> bool) (cfg : Config)
  (adata : AnnData) (f : list (string * record)) :
  obs_filtered _is_na cfg adata = Ok f
  <-> has_columns cfg adata /\ NoDup (clonotype_cols cfg) /\
      f = filtered_rows _is_na cfg adata.
Proof.
  unfold obs_filtered, has_columns.
  destruct (has_column (obs_columns adata) "has_ir") eqn:Hh; cbn [negb].
  - apply has_column_In in Hh.
    destruct (filter _ (clonotype_cols cfg)) as [| col l] eqn:Ef.
    + assert (Hall : forall col, In col (clonotype_cols cfg) ->
                                 In col (obs_columns adata)).
      { intros col Hcol. apply has_column_In.
        pose proof (proj1 (filter_nil_iff _ _) Ef col Hcol) as H.
        now apply negb_false_iff in H. }
      destruct (is_unique (clonotype_cols cfg)) eqn:U; cbn [negb].
      * apply is_unique_NoDup in U. split.
        -- intros E. injection E as <-. auto.
        -- intros [_ [_ ->]]. reflexivity.
      * split; [discriminate |]. intros [_ [ND _]].
        apply is_unique_NoDup in ND. congruence.
    + split; [discriminate |]. intros [[_ Hall] _]. exfalso.
      assert (Hin : In col (filter (fun col => negb (has_column (obs_columns adata) col))
                                   (clonotype_cols cfg))).
      { rewrite Ef. now left. }
      apply filter_In in Hin. destruct Hin as [Hin Hneg].
      apply negb_true_iff in Hneg.
      apply Hall, has_column_In in Hin. congruence.
  - split; [discriminate |]. intros [[Hin _] _].
    apply has_column_In in Hin. congruence.
Qed.

Lemma NoDup_app_disjoint {A : Type} (l l' : list A) (x : A) :
  NoDup (l ++ l') -> In x l -> ~ In x l'.
Proof.
  induction l as [| a l IH]; simpl; [tauto |].
  intros ND Hx Hx'. inversion ND as [| ? ? Hnin ND']; subst.
  destruct Hx as [-> | Hx].
  - apply Hnin. apply in_or_app. now right.
  - now apply (IH ND' Hx).
Qed.

Lemma empty_grouping_dec (w : option (list string)) :
  w = Some [] \/ w <> Some [].
Proof. destruct w as [[| c wg] |]; auto; right; discriminate. Qed.

Lemma skip_empty_grouping {A : Type} (w : option (list string)) (e : exn)
  (body : result A) :
  w <> Some [] ->
  match w with
  | Some [] => Raise e
  | _ => body
  end = body.
Proof. destruct w as [[| c wg] |]; [congruence | reflexivity | reflexivity]. Qed.

Lemma obs_filtered_raise (_is_na : string -> bool) (cfg : Config)
  (adata : AnnData) (e : exn) :
  obs_filtered _is_na cfg adata = Raise e ->
  (exists k, e = KeyError k) \/ e = IndexError.
Proof.
  unfold obs_filtered.
  destruct (negb (has_column (obs_columns adata) "has_ir")).
  - intros E. injection E as <-. eauto.
  - destruct (filter _ (clonotype_cols cfg)) as [| col l].
    + destruct (negb (is_unique (clonotype_cols cfg))); [| discriminate].
      intros E. injection E as <-. now right.
    + intros E. injection E as <-. eauto.
Qed.

(** The table builder, with its frame and its grouping spelled out. *)
Lemma make_clonotype_table_eq (_is_na : string -> bool) (cfg : Config)
  (adata : AnnData) :
  _make_clonotype_table _is_na cfg adata
  = if negb (is_unique (map obs_name (obs adata)))
    then Raise (ValueError unique_message)
    else
      match obs_filtered _is_na cfg adata with
      | Raise e => Raise e
      | Ok _ =>
          if Nat.eqb (List.length (index_to_frame (clonotype_groupby _is_na cfg adata))) 0
          then Raise (ValueError no_ir_message)
          else
            match within_group cfg with
            | Some [] =>
                Raise (ValueError "Length of values does not match length of index")
            | _ =>
                clonotypes <- match within_group cfg with
                              | Some wg =>
                                  mapM (fold_within_group wg)
                                       (index_to_frame (clonotype_groupby _is_na cfg adata))
                              | None =>
                                  Ok (index_to_frame (clonotype_groupby _is_na cfg adata))
                              end ;;
                _ <- (if existsb (chain_eqb chain2) (_dual_ir_cols cfg)
                      then consistency_check cfg clonotypes (_receptor_arm_cols cfg)
                      else Ok tt) ;;
                Ok (clonotypes,
                    make_cell_indices (map fst (filtered_rows _is_na cfg adata))
                      (clonotype_groupby _is_na cfg adata)
                      (index_to_frame (clonotype_groupby _is_na cfg adata)))
            end
      end.
Proof.
  unfold _make_clonotype_table.
  destruct (negb (is_unique (map obs_name (obs adata)))); [reflexivity |].
  destruct (obs_filtered _is_na cfg adata) as [f | e] eqn:Ef; [| reflexivity].
  apply obs_filtered_ok_iff in Ef. destruct Ef as [_ [_ ->]].
  cbn [bind]. fold (clonotype_groupby _is_na cfg adata).
  destruct (Nat.eqb _ 0); [reflexivity |].
  destruct (within_group cfg) as [[| c wg] |]; reflexivity.
Qed.

(** On a frame that has the columns, with distinct table columns and a
    non-empty grouping list, the builder is its grouping part. *)
Lemma make_clonotype_table_valid (_is_na : string -> bool) (cfg : Config)
  (adata : AnnData) :
  is_unique (map obs_name (obs adata)) = true ->
  has_columns cfg adata -> valid_grouping cfg ->
  _make_clonotype_table _is_na cfg adata
  = if Nat.eqb (List.length (index_to_frame (clonotype_groupby _is_na cfg adata))) 0
    then Raise (ValueError no_ir_message)
    else
      clonotypes <- match within_group cfg with
                    | Some wg =>
                        mapM (fold_within_group wg)
                             (index_to_frame (clonotype_groupby _is_na cfg adata))
                    | None =>
                        Ok (index_to_frame (clonotype_groupby _is_na cfg adata))
                    end ;;
      _ <- (if existsb (chain_eqb chain2) (_dual_ir_cols cfg)
            then consistency_check cfg clonotypes (_receptor_arm_cols cfg)
            else Ok tt) ;;
      Ok (clonotypes,
          make_cell_indices (map fst (filtered_rows _is_na cfg adata))
            (clonotype_groupby _is_na cfg adata)
            (index_to_frame (clonotype_groupby _is_na cfg adata))).
Proof.
  intros U Hc [ND Hne]. rewrite make_clonotype_table_eq, U. cbn [negb].
  rewrite (proj2 (obs_filtered_ok_iff _is_na cfg adata _)
                 (conj Hc (conj ND eq_refl))).
  destruct (Nat.eqb _ 0); [reflexivity |].
  destruct (within_group cfg) as [[| c wg] |]; [congruence | reflexivity | reflexivity].
Qed.

(** A table is returned only for unique cell identifiers, on a frame that
    has the columns, with distinct table columns and a non-empty grouping
    list. *)
Lemma make_clonotype_table_ok_valid (_is_na : string -> bool) (cfg : Config)
  (adata : AnnData) (tbl : DataFrame * list (list string)) :
  _make_clonotype_table _is_na cfg adata = Ok tbl ->
  is_unique (map obs_name (obs adata)) = true /\
  has_columns cfg adata /\ valid_grouping cfg.
Proof.
  rewrite make_clonotype_table_eq.
  destruct (is_unique (map obs_name (obs adata))); cbn [negb]; [| discriminate].
  destruct (obs_filtered _is_na cfg adata) as [f |] eqn:Ef; [| discriminate].
  apply obs_filtered_ok_iff in Ef. destruct Ef as [Hc [ND _]].
  destruct (Nat.eqb _ 0); [discriminate |].
  intros E. split; [reflexivity |]. split; [exact Hc |]. split; [exact ND |].
  intros Hwg. rewrite Hwg in E. discriminate.
Qed.

(** ** The table builder *)

Section BuilderFacts.

Variable _is_na : string -> bool.
Variable cfg : Config.
Variable adata : AnnData.

(** Row [r] carries the normalised sequences of cell [c]. *)
Let row_of (c : cell) (r : record) : Prop :=
  forall a ch, In a (_receptor_arm_cols cfg) -> In ch (_dual_ir_cols cfg) ->
    get_field r (cdr3_col cfg a ch)
    = Ok (EStr (normalize _is_na (field c (cdr3_col cfg a ch)))).

Lemma grouped_rows (r : record) :
  In r (index_to_frame (clonotype_groupby _is_na cfg adata)) <->
  exists c, In c (obs adata) /\ has_ir c = true /\ r = filtered_row _is_na cfg c.
Proof.
  unfold index_to_frame, clonotype_groupby, groupby, filtered_rows. simpl.
  rewrite !map_map. simpl. rewrite in_map_iff. split.
  - intros [t [<- Ht]]. apply unique_first_sound in Ht.
    apply in_map_iff in Ht. destruct Ht as [c [<- Hc]].
    apply filter_In in Hc. exists c. split; [tauto |]. split; [tauto |].
    unfold filtered_row. apply combine_tabulate.
  - intros [c [Hc [Hir ->]]].
    exists (map snd (filtered_row _is_na cfg c)). split.
    + unfold filtered_row. apply combine_tabulate.
    + apply unique_first_keeps. apply in_map_iff. exists c.
      split; [reflexivity |]. apply filter_In. auto.
Qed.

Lemma filtered_row_field (c : cell) (col : string) :
  In col (clonotype_cols cfg) ->
  get_field (filtered_row _is_na cfg c) col
  = Ok (EStr (normalize _is_na (field c col))).
Proof.
  intros H. unfold filtered_row.
  apply (get_field_tabulate (fun col => EStr (normalize _is_na (field c col)))).
  exact H.
Qed.

Lemma folded_table :
  valid_grouping cfg ->
  exists T,
    match within_group cfg with
    | Some wg => mapM (fold_within_group wg)
                      (index_to_frame (clonotype_groupby _is_na cfg adata))
    | None => Ok (index_to_frame (clonotype_groupby _is_na cfg adata))
    end = Ok T /\
    List.length T
    = List.length (index_to_frame (clonotype_groupby _is_na cfg adata)) /\
    (forall r, In r T ->
       exists c, In c (obs adata) /\ has_ir c = true /\ row_of c r) /\
    (forall c, In c (obs adata) -> has_ir c = true ->
       exists r, In r T /\ row_of c r).
Proof.
  intros [NDc _].
  destruct (within_group cfg) as [wg |] eqn:Ewg.
  - assert (ND : NoDup wg).
    { unfold clonotype_cols in NDc. rewrite Ewg in NDc.
      now apply NoDup_app_remove_l, NoDup_app_remove_l in NDc. }
    assert (Hdis : forall a ch, In a (_receptor_arm_cols cfg) ->
                                In ch (_dual_ir_cols cfg) ->
                                ~ In (cdr3_col cfg a ch) wg).
    { intros a ch Ha Hch Hin. unfold clonotype_cols in NDc. rewrite Ewg in NDc.
      apply (NoDup_app_disjoint _ _ (cdr3_col cfg a ch) NDc).
      - unfold _cdr3_cols. apply in_map_iff. exists (a, ch).
        split; [reflexivity | now apply in_product].
      - apply in_or_app. now right. }
    assert (Hstep : forall c,
               exists r', fold_within_group wg (filtered_row _is_na cfg c) = Ok r' /\
                          row_of c r').
    { intros c.
      destruct (fold_within_group_total wg (filtered_row _is_na cfg c) ND)
        as [r' [E Hr']].
      - intros col Hcol. rewrite filtered_row_field; [eauto |].
        unfold clonotype_cols. rewrite Ewg. apply in_or_app. right.
        apply in_or_app. now right.
      - exists r'. split; [exact E |]. intros a ch Ha Hch.
        rewrite Hr'.
        + apply filtered_row_field. now apply cdr3_col_listed.
        + now apply Hdis.
        + apply cdr3_col_not_within_group. }
    destruct (mapM_total (fold_within_group wg)
                (index_to_frame (clonotype_groupby _is_na cfg adata))) as [T E].
    { intros r Hr. apply grouped_rows in Hr. destruct Hr as [c [_ [_ ->]]].
      destruct (Hstep c) as [r' [Er _]]. eauto. }
    exists T. split; [exact E |]. split; [now apply mapM_length in E |]. split.
    + intros r Hr. destruct (mapM_In _ _ _ _ E Hr) as [r0 [Hr0 Er]].
      apply grouped_rows in Hr0. destruct Hr0 as [c [Hc [Hir ->]]].
      exists c. split; [assumption |]. split; [assumption |].
      destruct (Hstep c) as [r' [Er' Hrow]]. rewrite Er' in Er.
      injection Er as <-. exact Hrow.
    + intros c Hc Hir.
      assert (Hin : In (filtered_row _is_na cfg c)
                       (index_to_frame (clonotype_groupby _is_na cfg adata))).
      { apply grouped_rows. eauto. }
      destruct (Forall2_In_left _ _ _ _ (mapM_Forall2 _ _ _ E) Hin) as [r [Hr Er]].
      exists r. split; [assumption |].
      destruct (Hstep c) as [r' [Er' Hrow]]. rewrite Er' in Er.
      injection Er as <-. exact Hrow.
  - eexists. split; [reflexivity |]. split; [reflexivity |]. split.
    + intros r Hr. apply grouped_rows in Hr. destruct Hr as [c [Hc [Hir ->]]].
      exists c. split; [assumption |]. split; [assumption |].
      intros a ch Ha Hch. apply filtered_row_field. now apply cdr3_col_listed.
    + intros c Hc Hir. exists (filtered_row _is_na cfg c). split.
      * apply grouped_rows. eauto.
      * intros a ch Ha Hch. apply filtered_row_field. now apply cdr3_col_listed.
Qed.

Lemma consistency_check_raises (T : DataFrame) (arms : list arm) (a : arm) (c : cell) :
  dual_ir cfg <> primary_only ->
  (forall r, In r T -> exists c', row_of c' r) ->
  (forall a', In a' arms -> In a' (_receptor_arm_cols cfg)) ->
  In a arms ->
  (exists r, In r T /\ row_of c r) ->
  normalize _is_na (field c (cdr3_col cfg a chain1)) = "nan" ->
  normalize _is_na (field c (cdr3_col cfg a chain2)) <> "nan" ->
  consistency_check cfg T arms = Raise (AssertionError assertion_message).
Proof.
  intros Hdual Hrows Hsub Ha [r [Hr Hrow]] Hp Hs.
  pose proof (chain1_considered cfg) as C1.
  pose proof (chain2_considered cfg Hdual) as C2.
  induction arms as [| a0 arms IH]; [contradiction |].
  simpl.
  assert (Ha0 : In a0 (_receptor_arm_cols cfg)) by (apply Hsub; now left).
  destruct (mapM_total (fun r => get_field r (cdr3_col cfg a0 chain1)) T) as [p Ep].
  { intros r' Hr'. destruct (Hrows r' Hr') as [c' Hc']. rewrite (Hc' a0 chain1); eauto. }
  destruct (mapM_total (fun r => get_field r (cdr3_col cfg a0 chain2)) T) as [s Es].
  { intros r' Hr'. destruct (Hrows r' Hr') as [c' Hc']. rewrite (Hc' a0 chain2); eauto. }
  unfold get_column. rewrite Ep, Es. cbn [bind].
  destruct (existsb (fun ps => is_nan_str (fst ps) && negb (is_nan_str (snd ps)))
                    (combine p s)) eqn:Ex; [reflexivity |].
  destruct Ha as [-> | Ha].
  - exfalso.
    destruct (Forall2_combine_In _ _ T p s r
                (mapM_Forall2 _ _ _ Ep) (mapM_Forall2 _ _ _ Es) Hr)
      as [v1 [v2 [Hin [E1 E2]]]].
    rewrite (Hrow a chain1 Ha0 C1) in E1. rewrite (Hrow a chain2 Ha0 C2) in E2.
    injection E1 as <-. injection E2 as <-.
    assert (existsb (fun ps => is_nan_str (fst ps) && negb (is_nan_str (snd ps)))
                    (combine p s) = true); [| congruence].
    apply existsb_exists. eexists. split; [exact Hin |]. simpl.
    rewrite Hp. simpl.
    apply negb_true_iff. now apply String.eqb_neq.
  - apply IH; [| assumption]. intros a' Ha'. apply Hsub. now right.
Qed.

Lemma make_clonotype_table_orphan (a : arm) (c : cell) :
  is_unique (map obs_name (obs adata)) = true ->
  has_columns cfg adata ->
  valid_grouping cfg ->
  dual_ir cfg <> primary_only ->
  In c (obs adata) -> has_ir c = true ->
  In a (_receptor_arm_cols cfg) ->
  normalize _is_na (field c (cdr3_col cfg a chain1)) = "nan" ->
  normalize _is_na (field c (cdr3_col cfg a chain2)) <> "nan" ->
  _make_clonotype_table _is_na cfg adata = Raise (AssertionError assertion_message).
Proof.
  intros Huniq Hcols Hok Hdual Hc Hir Ha Hp Hs.
  rewrite (make_clonotype_table_valid _is_na cfg adata Huniq Hcols Hok).
  destruct (folded_table Hok) as [T [ET [LT [Hrows Hcells]]]].
  destruct (Nat.eqb_spec
              (List.length (index_to_frame (clonotype_groupby _is_na cfg adata))) 0)
    as [Hz | _].
  { exfalso.
    assert (Hin : In (filtered_row _is_na cfg c)
                     (index_to_frame (clonotype_groupby _is_na cfg adata))).
    { apply grouped_rows. eauto. }
    destruct (index_to_frame (clonotype_groupby _is_na cfg adata));
      [contradiction | discriminate]. }
  rewrite ET. cbn [bind].
  assert (E2 : existsb (chain_eqb chain2) (_dual_ir_cols cfg) = true).
  { unfold _dual_ir_cols. destruct (dual_ir cfg); [congruence | reflexivity | reflexivity]. }
  rewrite E2.
  rewrite (consistency_check_raises T (_receptor_arm_cols cfg) a c); auto.
  intros r Hr. destruct (Hrows r Hr) as [c' [_ [_ H]]]. eauto.
Qed.

End BuilderFacts.

(** ** C6: a secondary chain without a primary one *)

(** C6 (as amended).  When the cell identifiers are unique, the frame has
    the column [has_ir] and every column of the table, the columns of the
    table (sequence, v-gene and grouping columns) are pairwise distinct, a
    list of grouping columns is not empty when one is given, the dual-chain
    policy is [all] or [any], and some receptor-bearing cell has, for an arm
    under consideration, a secondary sequence that is not missing and a
    primary sequence that is, table construction raises the consistency
    assertion, for every arm-matching policy and every same-v-gene setting;
    so [_prepare] raises it and [__init__] returns no engine. *)
Theorem orphan_secondary_chain_raises :
  forall (_is_na : string -> bool) (cfg : Config) (adata : AnnData)
         (a : arm) (c : cell),
    is_unique (map obs_name (obs adata)) = true ->
    has_columns cfg adata ->
    valid_grouping cfg ->
    dual_ir cfg <> primary_only ->
    In c (obs adata) -> has_ir c = true ->
    In a (_receptor_arm_cols cfg) ->
    normalize _is_na (field c (cdr3_col cfg a chain1)) = "nan" ->
    normalize _is_na (field c (cdr3_col cfg a chain2)) <> "nan" ->
    _make_clonotype_table _is_na cfg adata
    = Raise (AssertionError assertion_message) /\
    (forall dd, _prepare _is_na cfg dd adata
                = Raise (AssertionError assertion_message)) /\
    (forall self, __init__ _is_na adata cfg <> Ok self).
Proof.
  intros _is_na cfg adata a c Hu Hcols Hg Hd Hc Hir Ha Hp Hs.
  pose proof (make_clonotype_table_orphan _is_na cfg adata a c
                Hu Hcols Hg Hd Hc Hir Ha Hp Hs) as E.
  split; [exact E |].
  assert (P : forall dd, _prepare _is_na cfg dd adata
                         = Raise (AssertionError assertion_message)).
  { intros dd. unfold _prepare. now rewrite E. }
  split; [exact P |].
  intros self. unfold __init__.
  destruct (dict_find (uns adata) (distance_key cfg)) as [dd |]; simpl.
  - rewrite P. discriminate.
  - discriminate.
Qed.

Lemma orphan_secondary_chain_raises_witness :
  _make_clonotype_table is_na_sentinel dual_any_config orphan_adata
  = Raise (AssertionError assertion_message) /\
  (forall dd, _prepare is_na_sentinel dual_any_config dd orphan_adata
              = Raise (AssertionError assertion_message)) /\
  (forall self, __init__ is_na_sentinel orphan_adata dual_any_config <> Ok self).
Proof.
  apply (orphan_secondary_chain_raises is_na_sentinel dual_any_config
           orphan_adata VJ orphan_cell).
  - reflexivity.
  - split; [| intros col Hcol]; apply has_column_In;
      [reflexivity | revert col Hcol; apply forallb_forall; reflexivity].
  - split; [apply is_unique_NoDup; reflexivity | discriminate].
  - discriminate.
  - left. reflexivity.
  - reflexivity.
  - left. reflexivity.
  - reflexivity.
  - vm_compute. discriminate.
Defined.

(** C6 as stated fails under the policy [primary_only]: the cell has a
    secondary VJ chain and no primary one, yet the table is built and the
    distances are computed. *)
Lemma orphan_secondary_chain_counterexample :
  field orphan_cell "IR_VJ_1_junction_aa" = VNaN /\
  field orphan_cell "IR_VJ_2_junction_aa" = VStr "CAVS" /\
  _make_clonotype_table is_na_sentinel primary_only_config orphan_adata
  = Ok ([[("IR_VJ_1_junction_aa", EStr "nan");
          ("IR_VDJ_1_junction_aa", EStr "CASS")]],
        [["cell1"]]) /\
  (self <- __init__ is_na_sentinel orphan_adata primary_only_config ;;
   compute_distances self)
  = Ok {| shape := (1, 1); rows := [([0], [Num 1])] |}.
Proof. repeat split; vm_compute; reflexivity. Qed.

(** ** C10: missing values and the string ["nan"] *)





(** ** What [_prepare] establishes *)

Lemma dict_find_set {A : Type} (d : list (string * A)) (k k' : string) (v : A) :
  dict_find (dict_set d k v) k'
  = if String.eqb k k' then Ok v else dict_find d k'.
Proof.
  induction d as [| [k0 w] d IH]; simpl.
  - destruct (String.eqb k k'); reflexivity.
  - destruct (String.eqb_spec k0 k) as [-> | Hne]; simpl.
    + destruct (String.eqb k k'); reflexivity.
    + destruct (String.eqb_spec k0 k') as [-> | Hne'].
      * destruct (String.eqb_spec k k'); [congruence | reflexivity].
      * exact IH.
Qed.

Lemma fold_raise {A S : Type} (step : S -> A -> result S) (l : list A) (e : exn) :
  fold_left (fun acc x => s <- acc ;; step s x) l (Raise e) = Raise e.
Proof. induction l as [| x l IH]; simpl; [reflexivity | exact IH]. Qed.

Lemma fold_invariant {A S : Type} (step : S -> A -> result S) (P : S -> Prop)
  (l : list A) (s0 s : S) :
  (forall s1 x s2, P s1 -> step s1 x = Ok s2 -> P s2) ->
  P s0 ->
  fold_left (fun acc x => s <- acc ;; step s x) l (Ok s0) = Ok s -> P s.
Proof.
  intros Hstep. revert s0. induction l as [| x l IH]; intros s0 H0; simpl.
  - intros E. injection E as <-. exact H0.
  - destruct (step s0 x) as [s1 |] eqn:E1.
    + apply IH. eapply Hstep; eauto.
    + rewrite fold_raise. discriminate.
Qed.

Lemma add_distance_matrix_table (nf nf' : DoubleLookupNeighborFinder)
  (name : string) (m : list (list Z)) (labels : list entry) :
  add_distance_matrix nf name m labels = Ok nf' ->
  feature_table nf' = feature_table nf.
Proof.
  unfold add_distance_matrix.
  destruct (_ && _); [| discriminate]. intros E. injection E as <-. reflexivity.
Qed.

Lemma add_lookup_table_inv (nf nf' : DoubleLookupNeighborFinder)
  (k col m : string) :
  add_lookup_table nf k col m = Ok nf' ->
  exists dm vs,
    dict_find (distance_matrices nf) m = Ok dm /\
    get_column (feature_table nf) col = Ok vs /\
    feature_table nf' = feature_table nf /\
    distance_matrices nf' = distance_matrices nf /\
    lookups nf'
    = dict_set (lookups nf) k
        {| lt_distance_matrix := m;
           lt_forward := map (label_index (dm_labels dm)) vs |}.
Proof.
  unfold add_lookup_table.
  destruct (dict_find (distance_matrices nf) m) as [dm |]; simpl; [| discriminate].
  destruct (get_column (feature_table nf) col) as [vs |]; simpl; [| discriminate].
  intros E. injection E as <-. exists dm, vs. simpl. auto.
Qed.

Lemma table_name_injective (a a' : arm) (c c' : chain) :
  table_name a c = table_name a' c' -> a = a' /\ c = c'.
Proof. destruct a, a', c, c'; simpl; intros E; try discriminate E; auto. Qed.

Lemma table_name_not_v_gene (a a' : arm) (c c' : chain) :
  (table_name a' c' ++ "_v_gene")%string <> table_name a c.
Proof. destruct a, a', c, c'; simpl; discriminate. Qed.

Lemma table_name_not_within_group (a : arm) (c : chain) :
  "within_group" <> table_name a c.
Proof. destruct a, c; simpl; discriminate. Qed.

Lemma finder_ready_kept (cfg : Config) (nf nf' : DoubleLookupNeighborFinder)
  (k col m : string) (a : arm) (c : chain) :
  add_lookup_table nf k col m = Ok nf' ->
  k <> table_name a c ->
  finder_ready cfg nf a c -> finder_ready cfg nf' a c.
Proof.
  intros E Hk [Hf [[t [Et [Mt Lt]]] Hm]].
  destruct (add_lookup_table_inv _ _ _ _ _ E) as [dm [vs [_ [_ [Ef [Ed El]]]]]].
  unfold finder_ready. rewrite Ef, Ed, El. split; [exact Hf |]. split; [| exact Hm].
  exists t. rewrite dict_find_set.
  destruct (String.eqb_spec k (table_name a c)); [contradiction | auto].
Qed.

Lemma finder_ready_added (cfg : Config) (nf nf' : DoubleLookupNeighborFinder)
  (a : arm) (c : chain) :
  add_lookup_table nf (table_name a c) (cdr3_col cfg a c) (arm_name a) = Ok nf' ->
  finder_ready cfg nf' a c.
Proof.
  intros E.
  destruct (add_lookup_table_inv _ _ _ _ _ E) as [dm [vs [Em [Ev [Ef [Ed El]]]]]].
  unfold finder_ready. rewrite Ef, Ed, El. split; [| split].
  - intros r Hr. unfold has_field.
    destruct (Forall2_In_left _ _ _ _ (get_column_Forall2 _ _ _ Ev) Hr) as [v [_ ->]].
    reflexivity.
  - eexists. rewrite dict_find_set, String.eqb_refl. split; [reflexivity |].
    simpl. split; [reflexivity |]. rewrite length_map.
    apply mapM_length in Ev. exact Ev.
  - eauto.
Qed.

Lemma lookup_step_ready (cfg : Config) (nf nf' : DoubleLookupNeighborFinder)
  (a : arm) (i : chain) :
  (nf1 <- add_lookup_table nf (table_name a i) (cdr3_col cfg a i) (arm_name a) ;;
   if same_v_gene cfg
   then add_lookup_table nf1 (table_name a i ++ "_v_gene")%string
          (v_gene_col a i) "v_gene"
   else Ok nf1) = Ok nf' ->
  feature_table nf' = feature_table nf /\
  finder_ready cfg nf' a i /\
  forall a0 c0, finder_ready cfg nf a0 c0 -> finder_ready cfg nf' a0 c0.
Proof.
  destruct (add_lookup_table nf (table_name a i) (cdr3_col cfg a i) (arm_name a))
    as [nf1 |] eqn:E1; simpl; [| discriminate].
  assert (K1 : forall a0 c0, finder_ready cfg nf a0 c0 -> finder_ready cfg nf1 a0 c0).
  { intros a0 c0 H.
    destruct (string_dec (table_name a i) (table_name a0 c0)) as [E | N].
    - apply table_name_injective in E. destruct E as [<- <-].
      eapply finder_ready_added; eauto.
    - eapply finder_ready_kept; eauto. }
  pose proof (finder_ready_added cfg nf nf1 a i E1) as R1.
  destruct (add_lookup_table_inv _ _ _ _ _ E1) as [_ [_ [_ [_ [F1 _]]]]].
  destruct (same_v_gene cfg).
  - intros E2.
    destruct (add_lookup_table_inv _ _ _ _ _ E2) as [_ [_ [_ [_ [F2 _]]]]].
    split; [congruence |].
    assert (K2 : forall a0 c0, finder_ready cfg nf1 a0 c0 -> finder_ready cfg nf' a0 c0).
    { intros a0 c0 H. eapply finder_ready_kept; eauto.
      apply table_name_not_v_gene. }
    split; [now apply K2 |]. intros a0 c0 H. now apply K2, K1.
  - intros E. injection E as <-. auto.
Qed.

Lemma add_lookup_tables_ready (cfg : Config) (nf nf' : DoubleLookupNeighborFinder) :
  _add_lookup_tables cfg nf = Ok nf' ->
  feature_table nf' = feature_table nf /\
  forall a c, In (a, c) (product (_receptor_arm_cols cfg) (_dual_ir_cols cfg)) ->
              finder_ready cfg nf' a c.
Proof.
  unfold _add_lookup_tables.
  set (step := fun (s : DoubleLookupNeighborFinder) (ai : arm * chain) =>
                 nf1 <- add_lookup_table s (table_name (fst ai) (snd ai))
                          (cdr3_col cfg (fst ai) (snd ai)) (arm_name (fst ai)) ;;
                 if same_v_gene cfg
                 then add_lookup_table nf1
                        (table_name (fst ai) (snd ai) ++ "_v_gene")%string
                        (v_gene_col (fst ai) (snd ai)) "v_gene"
                 else Ok nf1).
  assert (Hfold : forall l,
             fold_left (fun acc ai =>
                          match ai with
                          | (a, i) =>
                              nf <- acc ;;
                              nf <- add_lookup_table nf (table_name a i)
                                      (cdr3_col cfg a i) (arm_name a) ;;
                              if same_v_gene cfg
                              then add_lookup_table nf (table_name a i ++ "_v_gene")%string
                                     (v_gene_col a i) "v_gene"
                              else Ok nf
                          end) l (Ok nf)
             = fold_left (fun acc x => s <- acc ;; step s x) l (Ok nf)).
  { intros l. generalize (Ok nf). induction l as [| [a i] l IH]; intros r0; simpl;
      [reflexivity | apply IH]. }
  rewrite Hfold. clear Hfold.
  assert (Hgen : forall l s0 s,
             fold_left (fun acc x => s <- acc ;; step s x) l (Ok s0) = Ok s ->
             feature_table s = feature_table s0 /\
             (forall a c, In (a, c) l -> finder_ready cfg s a c) /\
             (forall a c, finder_ready cfg s0 a c -> finder_ready cfg s a c)).
  { induction l as [| [a i] l IH]; intros s0 s; simpl.
    - intros E. injection E as <-. split; [reflexivity |]. split; [intros a c [] | auto].
    - destruct (step s0 (a, i)) as [s1 |] eqn:E1; [| rewrite fold_raise; discriminate].
      intros E. destruct (IH s1 s E) as [F [R K]].
      unfold step in E1. simpl in E1.
      destruct (lookup_step_ready cfg s0 s1 a i E1) as [F1 [R1 K1]].
      split; [congruence |]. split.
      + intros a0 c0 [H | H].
        * injection H as <- <-. now apply K.
        * now apply R.
      + intros a0 c0 H. now apply K, K1. }
  destruct (fold_left (fun acc x => s <- acc ;; step s x)
                      (product (_receptor_arm_cols cfg) (_dual_ir_cols cfg)) (Ok nf))
    as [nf1 |] eqn:E1; simpl; [| discriminate].
  destruct (Hgen _ _ _ E1) as [F1 [R1 _]].
  destruct (within_group cfg).
  - intros E2.
    destruct (add_lookup_table_inv _ _ _ _ _ E2) as [_ [_ [_ [_ [F2 _]]]]].
    split; [congruence |]. intros a c Hac.
    eapply finder_ready_kept; eauto. apply table_name_not_within_group.
  - intros E. injection E as <-. auto.
Qed.

Lemma add_distance_matrices_table (_is_na : string -> bool) (cfg : Config)
  (dd : list (string * SeqDist)) (ct : DataFrame) (adata : AnnData)
  (nf nf' : DoubleLookupNeighborFinder) :
  _add_distance_matrices cfg dd ct adata nf = Ok nf' ->
  feature_table nf' = feature_table nf.
Proof.
  unfold _add_distance_matrices.
  destruct (fold_left _ (_receptor_arm_cols cfg) (Ok nf)) as [nf1 |] eqn:E1;
    simpl; [| discriminate].
  assert (F1 : feature_table nf1 = feature_table nf).
  { revert E1.
    apply (fold_invariant
             (fun s chain_type =>
                d <- dict_find dd (arm_name chain_type) ;;
                add_distance_matrix s (arm_name chain_type) (distances d) (seqs d))
             (fun s => feature_table s = feature_table nf)); [| reflexivity].
    intros s1 x s2 H. destruct (dict_find dd (arm_name x)); simpl; [| discriminate].
    intros E. apply add_distance_matrix_table in E. congruence. }
  destruct (same_v_gene cfg).
  - destruct (_unique_values_in_multiple_columns _ _ _) as [v_genes |];
      simpl; [| discriminate].
    destruct (add_distance_matrix nf1 "v_gene" _ _) as [nf2 |] eqn:E2;
      simpl; [| discriminate].
    apply add_distance_matrix_table in E2.
    destruct (within_group cfg).
    + destruct (get_column ct "within_group") as [col |]; simpl; [| discriminate].
      destruct (np_unique col); simpl; [| discriminate].
      intros E. apply add_distance_matrix_table in E. congruence.
    + intros E. injection E as <-. congruence.
  - simpl. destruct (within_group cfg).
    + destruct (get_column ct "within_group") as [col |]; simpl; [| discriminate].
      destruct (np_unique col); simpl; [| discriminate].
      intros E. apply add_distance_matrix_table in E. congruence.
    + intros E. injection E as <-. congruence.
Qed.

Lemma make_clonotype_table_not_empty (_is_na : string -> bool) (cfg : Config)
  (adata : AnnData) (tbl : DataFrame * list (list string)) :
  _make_clonotype_table _is_na cfg adata = Ok tbl -> fst tbl <> [].
Proof.
  intros E.
  destruct (make_clonotype_table_ok_valid _is_na cfg adata tbl E) as [U [Hc Hg]].
  rewrite (make_clonotype_table_valid _is_na cfg adata U Hc Hg) in E. revert E.
  destruct (Nat.eqb_spec
              (List.length (index_to_frame (clonotype_groupby _is_na cfg adata))) 0)
    as [| Hne]; [discriminate |].
  destruct (match within_group cfg with
            | Some wg => mapM (fold_within_group wg)
                              (index_to_frame (clonotype_groupby _is_na cfg adata))
            | None => Ok (index_to_frame (clonotype_groupby _is_na cfg adata))
            end) as [T |] eqn:ET; simpl; [| discriminate].
  assert (LT : List.length T
               = List.length (index_to_frame (clonotype_groupby _is_na cfg adata))).
  { destruct (within_group cfg).
    - now apply mapM_length in ET.
    - injection ET as <-. reflexivity. }
  destruct (if existsb (chain_eqb chain2) (_dual_ir_cols cfg)
            then consistency_check cfg T (_receptor_arm_cols cfg)
            else Ok tt); simpl; [| discriminate].
  intros E. injection E as <-. simpl. intros N. rewrite N in LT. simpl in LT. lia.
Qed.

Lemma init_prepared (_is_na : string -> bool) (adata : AnnData) (cfg : Config)
  (self : ClonotypeNeighbors) :
  __init__ _is_na adata cfg = Ok self -> prepared self = true.
Proof.
  unfold __init__, _prepare.
  destruct (dict_find (uns adata) (distance_key cfg)) as [dd |]; simpl; [| discriminate].
  destruct (_make_clonotype_table _is_na cfg adata) as [tbl |] eqn:Et;
    simpl; [| discriminate].
  destruct (_add_distance_matrices cfg dd (fst tbl) adata (new_neighbor_finder (fst tbl)))
    as [nf1 |] eqn:E1; simpl; [| discriminate].
  destruct (_add_lookup_tables cfg nf1) as [nf2 |] eqn:E2; simpl; [| discriminate].
  intros E. injection E as <-.
  apply (add_distance_matrices_table _is_na) in E1. simpl in E1.
  destruct (add_lookup_tables_ready cfg nf1 nf2 E2) as [F2 R].
  assert (F : feature_table nf2 = fst tbl) by congruence.
  unfold prepared. simpl. apply andb_true_intro. split.
  - apply negb_true_iff, Nat.eqb_neq.
    pose proof (make_clonotype_table_not_empty _is_na cfg adata tbl Et) as N.
    destruct (fst tbl); [congruence | discriminate].
  - apply forallb_forall. intros [a c] Hac. simpl.
    destruct (R a c Hac) as [Hf [[t [Et' [Mt Lt]]] [dm Em]]].
    unfold table_ready. simpl. rewrite Et', Em, Mt, String.eqb_refl.
    rewrite F in *. rewrite Lt, Nat.eqb_refl. simpl.
    rewrite !andb_true_r. apply forallb_forall. exact Hf.
Qed.

(** ** C5 and C9: the aggregator and the orchestrator on a built engine *)

(** C5.  For every engine returned by the constructor and every clonotype
    id, the aggregator returns a row as wide as the clonotype table, with
    one datum per stored column, whose stored columns are exactly the
    columns with a nonzero entry in at least one of the chain-pair lookups of
    that clonotype; every column outside that union reads 0. *)
Theorem dist_row_within_neighbor_mask :
  forall (_is_na : string -> bool) (adata : AnnData) (cfg : Config)
         (self : ClonotypeNeighbors) (ct_id : nat),
    __init__ _is_na adata cfg = Ok self ->
    ct_id < List.length (clonotypes self) ->
    exists row,
      _dist_for_clonotype self ct_id = Ok row /\
      ncols row = List.length (clonotypes self) /\
      List.length (data row) = List.length (indices row) /\
      (forall j, In j (indices row) <-> has_any_neighbor self ct_id j = true) /\
      (forall j, has_any_neighbor self ct_id j = false -> row_get row j = Num 0).
Proof.
  intros _is_na adata cfg self ct_id Hinit Hct.
  apply prepared_row_within_mask; [| exact Hct].
  eapply init_prepared; eauto.
Qed.

Lemma dist_row_within_neighbor_mask_witness :
  exists row,
    _dist_for_clonotype paired_engine 0 = Ok row /\
    ncols row = List.length (clonotypes paired_engine) /\
    List.length (data row) = List.length (indices row) /\
    (forall j, In j (indices row) <-> has_any_neighbor paired_engine 0 j = true) /\
    (forall j, has_any_neighbor paired_engine 0 j = false -> row_get row j = Num 0).
Proof.
  apply (dist_row_within_neighbor_mask is_na_sentinel paired_adata paired_config
           paired_engine 0).
  - vm_compute. reflexivity.
  - vm_compute. repeat constructor.
Defined.

(** C9.  For every engine returned by the constructor, with [n] clonotype
    rows, [compute_distances] returns an [n] by [n] matrix; its row [i] is
    the row the aggregator gives for clonotype [i], in table order, with the
    stored zeros dropped, so it reads like that row at every column, and
    every datum it stores is nonzero. *)
Theorem compute_distances_stacks_rows :
  forall (_is_na : string -> bool) (adata : AnnData) (cfg : Config)
         (self : ClonotypeNeighbors),
    __init__ _is_na adata cfg = Ok self ->
    exists dist,
      compute_distances self = Ok dist /\
      shape dist = (List.length (clonotypes self), List.length (clonotypes self)) /\
      List.length (rows dist) = List.length (clonotypes self) /\
      (forall i, i < List.length (clonotypes self) ->
         exists row,
           _dist_for_clonotype self i = Ok row /\
           nth_error (rows dist) i
           = Some (eliminate_zeros_row (indices row, data row)) /\
           forall j, csr_get dist i j = row_get row j) /\
      (forall i ix d, nth_error (rows dist) i = Some (ix, d) ->
         List.length ix = List.length d /\
         forall x, In x d -> is_zero x = false).
Proof.
  intros _is_na adata cfg self Hinit.
  apply prepared_distances_stack. eapply init_prepared; eauto.
Qed.

Lemma compute_distances_stacks_rows_witness :
  exists dist,
    compute_distances paired_engine = Ok dist /\
    shape dist = (List.length (clonotypes paired_engine),
                  List.length (clonotypes paired_engine)) /\
    List.length (rows dist) = List.length (clonotypes paired_engine) /\
    (forall i, i < List.length (clonotypes paired_engine) ->
       exists row,
         _dist_for_clonotype paired_engine i = Ok row /\
         nth_error (rows dist) i
         = Some (eliminate_zeros_row (indices row, data row)) /\
         forall j, csr_get dist i j = row_get row j) /\
    (forall i ix d, nth_error (rows dist) i = Some (ix, d) ->
       List.length ix = List.length d /\
       forall x, In x d -> is_zero x = false).
Proof.
  apply (compute_distances_stacks_rows is_na_sentinel paired_adata paired_config
           paired_engine).
  vm_compute. reflexivity.
Defined.

(** * Further properties of the table builder *)

Lemma mapM_raise {A B : Type} (f : A -> result B) (l : list A) (e : exn) :
  mapM f l = Raise e -> exists a, In a l /\ f a = Raise e.
Proof.
  induction l as [| a l IH]; simpl; [discriminate |].
  destruct (f a) as [b | e'] eqn:Ea; simpl.
  - destruct (mapM f l) as [bs | e'']; simpl; [discriminate |].
    intros E. injection E as <-. destruct (IH eq_refl) as [a' [Ha' E']].
    exists a'. auto.
  - intros E. injection E as <-. exists a. auto.
Qed.

Lemma get_field_raise (r : record) (col : string) (e : exn) :
  get_field r col = Raise e -> e = KeyError col.
Proof.
  induction r as [| [c v] r IH]; simpl.
  - intros E. now injection E.
  - destruct (String.eqb c col); [discriminate | exact IH].
Qed.

Lemma del_fields_raise (wg : list string) (r : record) (e : exn) :
  del_fields wg r = Raise e -> exists k, e = KeyError k.
Proof.
  revert r. induction wg as [| c wg IH]; intros r; simpl; [discriminate |].
  unfold del_field. destruct (get_field r c) as [v | e'] eqn:Ec; simpl.
  - apply IH.
  - intros E. injection E as <-. apply get_field_raise in Ec. eauto.
Qed.

Lemma fold_within_group_raise (wg : list string) (r : record) (e : exn) :
  fold_within_group wg r = Raise e -> exists k, e = KeyError k.
Proof.
  unfold fold_within_group.
  destruct (mapM (get_field r) wg) as [t | e'] eqn:Et; simpl.
  - destruct (del_fields wg r) as [r' | e''] eqn:Ed; simpl; [discriminate |].
    intros E. injection E as <-. eapply del_fields_raise; eauto.
  - intros E. injection E as <-. apply mapM_raise in Et.
    destruct Et as [c [_ Ec]]. apply get_field_raise in Ec. eauto.
Qed.

Lemma get_column_raise (df : DataFrame) (col : string) (e : exn) :
  get_column df col = Raise e -> e = KeyError col.
Proof.
  intros E. apply mapM_raise in E. destruct E as [r [_ Er]].
  now apply get_field_raise in Er.
Qed.

Lemma consistency_check_raise (cfg : Config) (T : DataFrame) (arms : list arm)
  (e : exn) :
  consistency_check cfg T arms = Raise e ->
  (exists k, e = KeyError k) \/ e = AssertionError assertion_message.
Proof.
  induction arms as [| a arms IH]; simpl; [discriminate |].
  destruct (get_column T (cdr3_col cfg a chain1)) as [p | e1] eqn:Ep; simpl.
  - destruct (get_column T (cdr3_col cfg a chain2)) as [s | e2] eqn:Es; simpl.
    + destruct (existsb _ (combine p s)); [| exact IH].
      intros E. injection E as <-. now right.
    + intros E. injection E as <-. apply get_column_raise in Es. eauto.
  - intros E. injection E as <-. apply get_column_raise in Ep. eauto.
Qed.

(** After the two validation errors only [KeyError] and the consistency
    assertion can be raised. *)
Lemma make_clonotype_table_tail_raise (_is_na : string -> bool) (cfg : Config)
  (T0 : DataFrame) (ci : list (list string)) (e : exn) :
  (clonotypes <- match within_group cfg with
                 | Some wg => mapM (fold_within_group wg) T0
                 | None => Ok T0
                 end ;;
   _ <- (if existsb (chain_eqb chain2) (_dual_ir_cols cfg)
         then consistency_check cfg clonotypes (_receptor_arm_cols cfg)
         else Ok tt) ;;
   Ok (clonotypes, ci)) = Raise e ->
  (exists k, e = KeyError k) \/ e = AssertionError assertion_message.
Proof.
  destruct (match within_group cfg with
            | Some wg => mapM (fold_within_group wg) T0
            | None => Ok T0
            end) as [T | e'] eqn:ET; simpl.
  - destruct (existsb (chain_eqb chain2) (_dual_ir_cols cfg)); simpl; [| discriminate].
    destruct (consistency_check cfg T (_receptor_arm_cols cfg)) as [u | e''] eqn:Ec;
      simpl; [discriminate |].
    intros E. injection E as <-. eapply consistency_check_raise; eauto.
  - intros E. injection E as <-. left.
    destruct (within_group cfg) as [wg |]; [| discriminate].
    apply mapM_raise in ET. destruct ET as [r [_ Er]].
    eapply fold_within_group_raise; eauto.
Qed.

Lemma grouped_empty_iff (_is_na : string -> bool) (cfg : Config) (adata : AnnData) :
  List.length (index_to_frame (clonotype_groupby _is_na cfg adata)) = 0
  <-> forall c, In c (obs adata) -> has_ir c = false.
Proof.
  split.
  - intros L c Hc. destruct (has_ir c) eqn:Hir; [| reflexivity].
    assert (Hin : In (filtered_row _is_na cfg c)
                     (index_to_frame (clonotype_groupby _is_na cfg adata))).
    { apply grouped_rows. eauto. }
    destruct (index_to_frame (clonotype_groupby _is_na cfg adata));
      [contradiction | discriminate].
  - intros H.
    destruct (index_to_frame (clonotype_groupby _is_na cfg adata)) as [| r l] eqn:E;
      [reflexivity |].
    assert (Hin : In r (index_to_frame (clonotype_groupby _is_na cfg adata))).
    { rewrite E. now left. }
    apply grouped_rows in Hin. destruct Hin as [c [Hc [Hir _]]].
    rewrite (H c Hc) in Hir. discriminate.
Qed.

(** Cell identifiers that are not unique are rejected first, and this is
    the only way to that error. *)
Theorem duplicate_obs_names_rejected :
  forall (_is_na : string -> bool) (cfg : Config) (adata : AnnData),
    _make_clonotype_table _is_na cfg adata = Raise (ValueError unique_message)
    <-> ~ NoDup (map obs_name (obs adata)).
Proof.
  intros _is_na cfg adata. rewrite <- is_unique_NoDup.
  rewrite make_clonotype_table_eq.
  destruct (is_unique (map obs_name (obs adata))) eqn:U; cbn [negb].
  - split; [| intros H; exfalso; now apply H].
    destruct (obs_filtered _is_na cfg adata) as [f | e] eqn:Ef.
    + destruct (Nat.eqb _ 0); [discriminate |].
      destruct (empty_grouping_dec (within_group cfg)) as [Hwg | Hwg];
        [rewrite Hwg; discriminate |].
      rewrite skip_empty_grouping by exact Hwg.
      intros E. apply make_clonotype_table_tail_raise in E; [| exact _is_na].
      destruct E as [[k E] | E]; discriminate E.
    + intros E. injection E as ->. apply obs_filtered_raise in Ef.
      destruct Ef as [[k Ef] | Ef]; discriminate Ef.
  - split; [intros _; discriminate | reflexivity].
Qed.

Lemma make_clonotype_table_inv (_is_na : string -> bool) (cfg : Config)
  (adata : AnnData) (tbl : DataFrame * list (list string)) :
  _make_clonotype_table _is_na cfg adata = Ok tbl ->
  is_unique (map obs_name (obs adata)) = true /\
  index_to_frame (clonotype_groupby _is_na cfg adata) <> [] /\
  match within_group cfg with
  | Some wg => mapM (fold_within_group wg)
                    (index_to_frame (clonotype_groupby _is_na cfg adata))
  | None => Ok (index_to_frame (clonotype_groupby _is_na cfg adata))
  end = Ok (fst tbl) /\
  snd tbl = make_cell_indices (map fst (filtered_rows _is_na cfg adata))
              (clonotype_groupby _is_na cfg adata)
              (index_to_frame (clonotype_groupby _is_na cfg adata)) /\
  (if existsb (chain_eqb chain2) (_dual_ir_cols cfg)
   then consistency_check cfg (fst tbl) (_receptor_arm_cols cfg)
   else Ok tt) = Ok tt.
Proof.
  intros E.
  destruct (make_clonotype_table_ok_valid _is_na cfg adata tbl E) as [U [Hc Hg]].
  rewrite (make_clonotype_table_valid _is_na cfg adata U Hc Hg) in E. revert E.
  destruct (Nat.eqb_spec
              (List.length (index_to_frame (clonotype_groupby _is_na cfg adata))) 0)
    as [| NZ]; [discriminate |].
  cbv zeta.
  destruct (match within_group cfg with
            | Some wg => mapM (fold_within_group wg)
                              (index_to_frame (clonotype_groupby _is_na cfg adata))
            | None => Ok (index_to_frame (clonotype_groupby _is_na cfg adata))
            end) as [T |]; simpl; [| discriminate].
  destruct (if existsb (chain_eqb chain2) (_dual_ir_cols cfg)
            then consistency_check cfg T (_receptor_arm_cols cfg)
            else Ok tt) as [[] |] eqn:EC; simpl; [| discriminate].
  intros E. injection E as <-. simpl.
  split; [exact U |]. split; [| split; [reflexivity | split; [reflexivity | exact EC]]].
  intros N. rewrite N in NZ. now apply NZ.
Qed.

Lemma unique_first_NoDup (l : list (list entry)) : NoDup (unique_first l).
Proof.
  induction l as [| x l IH]; simpl; constructor.
  - intros H. apply filter_In in H. destruct H as [_ H].
    unfold tuple_eqb in H.
    destruct (list_eq_dec entry_eq_dec x x); [discriminate | congruence].
  - now apply NoDup_filter.
Qed.

Lemma map_snd_combine (cols : list string) (t : list entry) :
  List.length t = List.length cols -> map snd (combine cols t) = t.
Proof.
  revert t. induction cols as [| c cols IH]; intros [| x t]; simpl;
    try discriminate; [reflexivity |].
  intros L. f_equal. apply IH. lia.
Qed.

Lemma grouped_keys_length (_is_na : string -> bool) (cfg : Config)
  (adata : AnnData) (t : list entry) :
  In t (gb_keys (clonotype_groupby _is_na cfg adata)) ->
  List.length t = List.length (clonotype_cols cfg).
Proof.
  unfold clonotype_groupby, groupby, filtered_rows. simpl. intros H.
  apply unique_first_sound in H. rewrite !map_map in H.
  apply in_map_iff in H. destruct H as [c [<- _]]. simpl.
  unfold filtered_row. now rewrite !length_map.
Qed.

Lemma grouped_itertuples (_is_na : string -> bool) (cfg : Config) (adata : AnnData) :
  itertuples (index_to_frame (clonotype_groupby _is_na cfg adata))
  = gb_keys (clonotype_groupby _is_na cfg adata).
Proof.
  unfold itertuples, index_to_frame. rewrite map_map.
  rewrite <- (map_id (gb_keys (clonotype_groupby _is_na cfg adata))) at 2.
  apply map_ext_in. intros t Ht. apply map_snd_combine.
  now apply (grouped_keys_length _is_na cfg adata).
Qed.

Lemma grouped_NoDup (_is_na : string -> bool) (cfg : Config) (adata : AnnData) :
  NoDup (index_to_frame (clonotype_groupby _is_na cfg adata)).
Proof.
  apply (NoDup_map_inv (map snd)).
  change (NoDup (itertuples (index_to_frame (clonotype_groupby _is_na cfg adata)))).
  rewrite grouped_itertuples. apply unique_first_NoDup.
Qed.

Lemma get_field_set_same (r : record) (k : string) (v : entry) :
  get_field (set_field r k v) k = Ok v.
Proof.
  induction r as [| [c w] r IH]; simpl.
  - now rewrite String.eqb_refl.
  - destruct (String.eqb_spec c k) as [-> | Hne]; simpl.
    + now rewrite String.eqb_refl.
    + destruct (String.eqb_spec c k); [contradiction | exact IH].
Qed.

Lemma del_fields_kept (wg : list string) (r r' : record) :
  del_fields wg r = Ok r' ->
  forall col, ~ In col wg -> get_field r' col = get_field r col.
Proof.
  revert r. induction wg as [| c wg IH]; intros r; simpl.
  - intros E. injection E as <-. reflexivity.
  - unfold del_field. destruct (get_field r c); simpl; [| discriminate].
    intros E col Hcol. rewrite (IH _ E) by tauto.
    apply get_field_filter. intros ->. apply Hcol. now left.
Qed.

Lemma fold_within_group_inv (wg : list string) (r r' : record) :
  fold_within_group wg r = Ok r' ->
  exists t,
    mapM (get_field r) wg = Ok t /\
    get_field r' "within_group" = Ok (ETuple (map entry_str t)) /\
    forall col, ~ In col wg -> col <> "within_group" ->
                get_field r' col = get_field r col.
Proof.
  unfold fold_within_group.
  destruct (mapM (get_field r) wg) as [t |]; simpl; [| discriminate].
  destruct (del_fields wg r) as [r1 |] eqn:Ed; simpl; [| discriminate].
  intros E. injection E as <-. exists t. split; [reflexivity |]. split.
  - apply get_field_set_same.
  - intros col Hcol Hwg. rewrite get_field_set_field by assumption.
    now apply (del_fields_kept wg r).
Qed.

Lemma v_gene_col_not_within_group (a : arm) (c : chain) :
  v_gene_col a c <> "within_group".
Proof. unfold v_gene_col. simpl. discriminate. Qed.

Lemma clonotype_col_cases (cfg : Config) (col : string) :
  In col (clonotype_cols cfg) ->
  col <> "within_group" \/
  exists wg, within_group cfg = Some wg /\ In col wg.
Proof.
  unfold clonotype_cols. intros H. apply in_app_or in H. destruct H as [H | H].
  - left. unfold _cdr3_cols in H. apply in_map_iff in H.
    destruct H as [[a c] [<- _]]. apply cdr3_col_not_within_group.
  - apply in_app_or in H. destruct H as [H | H].
    + left. unfold _v_gene_cols in H. destruct (same_v_gene cfg); [| contradiction].
      apply in_map_iff in H. destruct H as [[a c] [<- _]].
      apply v_gene_col_not_within_group.
    + destruct (within_group cfg) as [wg |]; [| contradiction]. right. eauto.
Qed.

Lemma mapM_tabulate_fields (f : string -> entry) (cols wg : list string) :
  (forall c, In c wg -> In c cols) ->
  mapM (get_field (map (fun c => (c, f c)) cols)) wg = Ok (map f wg).
Proof.
  induction wg as [| c wg IH]; intros Hsub; simpl; [reflexivity |].
  rewrite get_field_tabulate by (apply Hsub; now left). simpl.
  rewrite IH by (intros c' Hc'; apply Hsub; now right). reflexivity.
Qed.

Lemma fold_within_group_injective (_is_na : string -> bool) (cfg : Config)
  (wg : list string) (c1 c2 : cell) (r : record) :
  within_group cfg = Some wg ->
  fold_within_group wg (filtered_row _is_na cfg c1) = Ok r ->
  fold_within_group wg (filtered_row _is_na cfg c2) = Ok r ->
  filtered_row _is_na cfg c1 = filtered_row _is_na cfg c2.
Proof.
  intros Ewg E1 E2.
  assert (Hsub : forall c, In c wg -> In c (clonotype_cols cfg)).
  { intros c Hc. unfold clonotype_cols. rewrite Ewg.
    apply in_or_app. right. apply in_or_app. now right. }
  destruct (fold_within_group_inv _ _ _ E1) as [t1 [T1 [W1 K1]]].
  destruct (fold_within_group_inv _ _ _ E2) as [t2 [T2 [W2 K2]]].
  unfold filtered_row in T1, T2.
  rewrite (mapM_tabulate_fields
             (fun col => EStr (normalize _is_na (field c1 col)))) in T1 by exact Hsub.
  rewrite (mapM_tabulate_fields
             (fun col => EStr (normalize _is_na (field c2 col)))) in T2 by exact Hsub.
  injection T1 as <-. injection T2 as <-.
  rewrite W1 in W2. injection W2 as W. rewrite !map_map in W. simpl in W.
  unfold filtered_row. apply map_ext_in. intros col Hcol. f_equal.
  destruct (in_dec string_dec col wg) as [Hin | Hnin].
  - f_equal.
    assert (G : forall l, map (fun x => normalize _is_na (field c1 x)) l
                          = map (fun x => normalize _is_na (field c2 x)) l ->
                          In col l ->
                          normalize _is_na (field c1 col) = normalize _is_na (field c2 col)).
    { induction l as [| x l IH]; simpl; [tauto |].
      intros E [-> | H]; injection E; auto. }
    now apply (G wg).
  - destruct (clonotype_col_cases cfg col Hcol) as [Hne | [wg' [E' Hin']]].
    + pose proof (K1 col Hnin Hne) as G1. pose proof (K2 col Hnin Hne) as G2.
      rewrite (filtered_row_field _is_na cfg c1 col Hcol) in G1.
      rewrite (filtered_row_field _is_na cfg c2 col Hcol) in G2.
      congruence.
    + rewrite Ewg in E'. injection E' as <-. contradiction.
Qed.

Lemma Forall2_NoDup {A B : Type} (R : A -> B -> Prop) (l : list A) (l' : list B) :
  Forall2 R l l' -> NoDup l ->
  (forall a1 a2 b, In a1 l -> In a2 l -> R a1 b -> R a2 b -> a1 = a2) ->
  NoDup l'.
Proof.
  induction 1 as [| a b l l' Hab HF IH]; intros ND Hinj; [constructor |].
  inversion ND as [| ? ? Hnin ND']; subst. constructor.
  - intros Hb. apply (Forall2_flip) in HF.
    destruct (Forall2_In_left _ _ _ _ HF Hb) as [a' [Ha' Ra']].
    assert (a = a'); [| subst; contradiction].
    apply (Hinj a a' b); simpl; auto.
  - apply IH; [assumption |]. intros a1 a2 b0 H1 H2. apply Hinj; now right.
Qed.

(** The clonotype table returned by the builder is not empty, has no
    duplicate rows, and comes with one cell-index entry per row. *)
Theorem clonotype_table_rows_distinct :
  forall (_is_na : string -> bool) (cfg : Config) (adata : AnnData)
         (tbl : DataFrame * list (list string)),
    _make_clonotype_table _is_na cfg adata = Ok tbl ->
    fst tbl <> [] /\ NoDup (fst tbl) /\
    List.length (snd tbl) = List.length (fst tbl).
Proof.
  intros _is_na cfg adata tbl E.
  split; [eapply make_clonotype_table_not_empty; eauto |].
  destruct (make_clonotype_table_inv _is_na cfg adata tbl E) as [_ [_ [ET [EC _]]]].
  assert (L : List.length (fst tbl)
              = List.length (index_to_frame (clonotype_groupby _is_na cfg adata))).
  { destruct (within_group cfg).
    - now apply mapM_length in ET.
    - injection ET as <-. reflexivity. }
  split.
  - destruct (within_group cfg) as [wg |] eqn:Ewg.
    + apply (Forall2_NoDup _ _ _ (mapM_Forall2 _ _ _ ET) (grouped_NoDup _is_na cfg adata)).
      intros r1 r2 r H1 H2 F1 F2.
      apply grouped_rows in H1. destruct H1 as [c1 [_ [_ ->]]].
      apply grouped_rows in H2. destruct H2 as [c2 [_ [_ ->]]].
      eapply fold_within_group_injective; eauto.
    + injection ET as <-. apply grouped_NoDup.
  - rewrite EC, L. unfold make_cell_indices, itertuples.
    now rewrite !length_map.
Qed.

(** ** The cell-index array *)

Lemma in_combine_seq {A : Type} (l : list A) (k p : nat) (x : A) :
  In (p, x) (combine (seq k (List.length l)) l)
  <-> k <= p /\ nth_error l (p - k) = Some x.
Proof.
  revert k. induction l as [| y l IH]; intros k; simpl.
  - split; [tauto |]. intros [_ H]. destruct (p - k); discriminate.
  - rewrite IH. split.
    + intros [E | [Hk Hn]].
      * injection E as <- <-. rewrite Nat.sub_diag. auto.
      * split; [lia |]. replace (p - k) with (S (p - S k)) by lia. exact Hn.
    + intros [Hk Hn]. destruct (Nat.eq_dec p k) as [-> | Hne].
      * rewrite Nat.sub_diag in Hn. simpl in Hn. injection Hn as <-. now left.
      * right. split; [lia |].
        replace (p - k) with (S (p - S k)) in Hn by lia. exact Hn.
Qed.

Lemma map_fst_combine_seq {A : Type} (l : list A) (k : nat) :
  map fst (combine (seq k (List.length l)) l) = seq k (List.length l).
Proof.
  revert k. induction l as [| y l IH]; intros k; simpl; [reflexivity |].
  now rewrite IH.
Qed.

Lemma NoDup_map_fst_filter {A B : Type} (P : A * B -> bool) (l : list (A * B)) :
  NoDup (map fst l) -> NoDup (map fst (filter P l)).
Proof.
  induction l as [| x l IH]; simpl; [auto |].
  intros ND. inversion ND as [| ? ? Hnin ND']; subst.
  destruct (P x); simpl; [| now apply IH].
  constructor; [| now apply IH].
  intros H. apply Hnin. apply in_map_iff in H. destruct H as [y [E Hy]].
  apply filter_In in Hy. apply in_map_iff. exists y. tauto.
Qed.

Lemma tuple_eqb_eq (a b : list entry) : tuple_eqb a b = true <-> a = b.
Proof.
  unfold tuple_eqb. destruct (list_eq_dec entry_eq_dec a b); split;
    congruence.
Qed.

Lemma positions_spec (rows : list (list entry)) (t : list entry) (p : nat) :
  In p (positions rows t) <-> nth_error rows p = Some t.
Proof.
  unfold positions. rewrite in_map_iff. split.
  - intros [[q r] [E H]]. simpl in E. subst q. apply filter_In in H.
    destruct H as [H T]. simpl in T. apply tuple_eqb_eq in T. subst r.
    apply in_combine_seq in H. rewrite Nat.sub_0_r in H. tauto.
  - intros H. exists (p, t). split; [reflexivity |]. apply filter_In. split.
    + apply in_combine_seq. rewrite Nat.sub_0_r. split; [lia | exact H].
    + simpl. now apply tuple_eqb_eq.
Qed.

Lemma positions_NoDup (rows : list (list entry)) (t : list entry) :
  NoDup (positions rows t).
Proof.
  unfold positions. apply NoDup_map_fst_filter.
  rewrite map_fst_combine_seq. apply seq_NoDup.
Qed.

Lemma group_key_tuple (t : list entry) :
  List.length t <> 1 -> group_key t = KTuple t.
Proof. destruct t as [| x [| y t]]; simpl; congruence. Qed.

Lemma group_key_scalar (t : list entry) :
  List.length t = 1 -> exists x, group_key t = KScalar x.
Proof. destruct t as [| x [| y t]]; simpl; try discriminate. eauto. Qed.

Lemma dict_get_tuple_keys (rows keys : list (list entry)) (t : list entry) :
  (forall t', In t' keys -> List.length t' <> 1) ->
  In t keys ->
  dict_get (map (fun t' => (group_key t', positions rows t')) keys) (KTuple t)
  = positions rows t.
Proof.
  induction keys as [| t' keys IH]; intros Hlen Hin; [contradiction |].
  simpl. rewrite (group_key_tuple t') by (apply Hlen; now left). simpl.
  destruct (tuple_eqb t' t) eqn:E.
  - apply tuple_eqb_eq in E. now subst.
  - destruct Hin as [-> | Hin].
    + assert (tuple_eqb t t = true) by now apply tuple_eqb_eq. congruence.
    + apply IH; [| assumption]. intros t0 H0. apply Hlen. now right.
Qed.

Lemma dict_get_scalar_keys (rows keys : list (list entry)) (t : list entry) :
  (forall t', In t' keys -> List.length t' = 1) ->
  dict_get (map (fun t' => (group_key t', positions rows t')) keys) (KTuple t)
  = [].
Proof.
  induction keys as [| t' keys IH]; intros Hlen; [reflexivity |].
  simpl. destruct (group_key_scalar t') as [x ->]; [apply Hlen; now left |].
  simpl. apply IH. intros t0 H0. apply Hlen. now right.
Qed.

Section CellIndices.

Variable _is_na : string -> bool.
Variable cfg : Config.
Variable adata : AnnData.

Lemma filtered_names :
  map fst (filtered_rows _is_na cfg adata)
  = map obs_name (filter has_ir (obs adata)).
Proof. unfold filtered_rows. now rewrite map_map. Qed.

Lemma filtered_tuples :
  map (map snd) (map snd (filtered_rows _is_na cfg adata))
  = map (fun c => map snd (filtered_row _is_na cfg c)) (filter has_ir (obs adata)).
Proof. unfold filtered_rows. now rewrite !map_map. Qed.

Lemma row_tuple_eq (c : cell) (t : list entry) :
  List.length t = List.length (clonotype_cols cfg) ->
  map snd (filtered_row _is_na cfg c) = t
  <-> filtered_row _is_na cfg c = combine (clonotype_cols cfg) t.
Proof.
  intros L. split.
  - intros <-. unfold filtered_row. symmetry. apply combine_tabulate.
  - intros E. rewrite E. now apply map_snd_combine.
Qed.

(** The entry computed for key [t] when the lookup finds the key. *)
Lemma names_at_positions (t : list entry) (name : string) :
  List.length t = List.length (clonotype_cols cfg) ->
  In name (map (fun p => nth p (map fst (filtered_rows _is_na cfg adata)) "")
               (positions (map (map snd) (map snd (filtered_rows _is_na cfg adata))) t))
  <-> exists c, In c (obs adata) /\ has_ir c = true /\ obs_name c = name /\
                filtered_row _is_na cfg c = combine (clonotype_cols cfg) t.
Proof.
  intros L. rewrite filtered_names, filtered_tuples, in_map_iff. split.
  - intros [p [En Hp]]. apply positions_spec in Hp.
    rewrite nth_error_map in Hp.
    destruct (nth_error (filter has_ir (obs adata)) p) as [c |] eqn:Ec;
      [| discriminate].
    simpl in Hp. injection Hp as Hp. exists c.
    pose proof (nth_error_In _ _ Ec) as Hc. apply filter_In in Hc.
    split; [tauto |]. split; [tauto |]. split.
    + rewrite <- En. rewrite (nth_error_nth (map obs_name (filter has_ir (obs adata))) p "" (x := obs_name c));
        [reflexivity |]. now rewrite nth_error_map, Ec.
    + now apply row_tuple_eq.
  - intros [c [Hc [Hir [En Er]]]].
    assert (Hin : In c (filter has_ir (obs adata))) by (apply filter_In; auto).
    apply In_nth_error in Hin. destruct Hin as [p Ep]. exists p. split.
    + rewrite (nth_error_nth (map obs_name (filter has_ir (obs adata))) p "" (x := obs_name c));
        [exact En |]. now rewrite nth_error_map, Ep.
    + apply positions_spec. rewrite nth_error_map, Ep. simpl. f_equal.
      now apply row_tuple_eq.
Qed.

Lemma names_at_positions_NoDup (t : list entry) :
  NoDup (map obs_name (obs adata)) ->
  NoDup (map (fun p => nth p (map fst (filtered_rows _is_na cfg adata)) "")
             (positions (map (map snd) (map snd (filtered_rows _is_na cfg adata))) t)).
Proof.
  intros ND. rewrite filtered_names, filtered_tuples.
  assert (NDf : NoDup (map obs_name (filter has_ir (obs adata)))).
  { clear t. induction (obs adata) as [| c l IH]; simpl; [constructor |].
    simpl in ND. inversion ND as [| ? ? Hnin ND']; subst.
    destruct (has_ir c); simpl; [| now apply IH].
    constructor; [| now apply IH].
    intros H. apply Hnin. apply in_map_iff in H. destruct H as [c' [E Hc']].
    apply filter_In in Hc'. apply in_map_iff. exists c'. tauto. }
  apply NoDup_map_NoDup_ForallPairs; [| apply positions_NoDup].
  intros p q Hp Hq E.
  apply positions_spec in Hp. apply positions_spec in Hq.
  assert (Lp : p < List.length (map obs_name (filter has_ir (obs adata)))).
  { rewrite length_map.
    rewrite <- (length_map (fun c => map snd (filtered_row _is_na cfg c))).
    apply nth_error_Some. congruence. }
  assert (Lq : q < List.length (map obs_name (filter has_ir (obs adata)))).
  { rewrite length_map.
    rewrite <- (length_map (fun c => map snd (filtered_row _is_na cfg c))).
    apply nth_error_Some. congruence. }
  apply (proj1 (NoDup_nth _ "") NDf p q Lp Lq E).
Qed.

Lemma cell_indices_nth (i : nat) (t : list entry) :
  nth_error (gb_keys (clonotype_groupby _is_na cfg adata)) i = Some t ->
  nth_error (index_to_frame (clonotype_groupby _is_na cfg adata)) i
  = Some (combine (clonotype_cols cfg) t) /\
  nth_error (make_cell_indices (map fst (filtered_rows _is_na cfg adata))
               (clonotype_groupby _is_na cfg adata)
               (index_to_frame (clonotype_groupby _is_na cfg adata))) i
  = Some (map (fun p => nth p (map fst (filtered_rows _is_na cfg adata)) "")
              (dict_get (gb_indices (clonotype_groupby _is_na cfg adata)) (KTuple t))).
Proof.
  intros E. split.
  - unfold index_to_frame. rewrite nth_error_map, E. reflexivity.
  - unfold make_cell_indices. rewrite grouped_itertuples, nth_error_map, E.
    reflexivity.
Qed.

End CellIndices.

Lemma NoDup_map_injective {A B : Type} (f : A -> B) (l : list A) (a b : A) :
  NoDup (map f l) -> In a l -> In b l -> f a = f b -> a = b.
Proof.
  induction l as [| x l IH]; simpl; [tauto |].
  intros ND Ha Hb E. inversion ND as [| ? ? Hnin ND']; subst.
  destruct Ha as [-> | Ha], Hb as [-> | Hb]; auto.
  - exfalso. apply Hnin. rewrite E. now apply in_map.
  - exfalso. apply Hnin. rewrite <- E. now apply in_map.
Qed.

Lemma grouped_indices (_is_na : string -> bool) (cfg : Config) (adata : AnnData) :
  gb_indices (clonotype_groupby _is_na cfg adata)
  = map (fun t => (group_key t,
                   positions (map (map snd) (map snd (filtered_rows _is_na cfg adata))) t))
        (gb_keys (clonotype_groupby _is_na cfg adata)).
Proof. reflexivity. Qed.

Lemma cell_indices_entry (_is_na : string -> bool) (cfg : Config) (adata : AnnData)
  (tbl : DataFrame * list (list string)) (i : nat) (r : record) :
  List.length (clonotype_cols cfg) <> 1 ->
  _make_clonotype_table _is_na cfg adata = Ok tbl ->
  nth_error (index_to_frame (clonotype_groupby _is_na cfg adata)) i = Some r ->
  exists e,
    nth_error (snd tbl) i = Some e /\ NoDup e /\
    forall name,
      In name e <->
      exists c, In c (obs adata) /\ has_ir c = true /\ obs_name c = name /\
                filtered_row _is_na cfg c = r.
Proof.
  intros Hcols E Hr.
  destruct (make_clonotype_table_inv _is_na cfg adata tbl E) as [U [_ [_ [EC _]]]].
  apply is_unique_NoDup in U.
  unfold index_to_frame in Hr. rewrite nth_error_map in Hr.
  destruct (nth_error (gb_keys (clonotype_groupby _is_na cfg adata)) i) as [t |] eqn:Et;
    [| discriminate].
  simpl in Hr. injection Hr as <-.
  pose proof (nth_error_In _ _ Et) as Hin.
  pose proof (grouped_keys_length _is_na cfg adata t Hin) as Lt.
  destruct (cell_indices_nth _is_na cfg adata i t Et) as [_ Ee].
  rewrite <- EC in Ee. rewrite grouped_indices in Ee.
  rewrite dict_get_tuple_keys in Ee; [| | exact Hin].
  - eexists. split; [exact Ee |]. split.
    + now apply names_at_positions_NoDup.
    + intros name. now apply names_at_positions.
  - intros t' Ht'. rewrite (grouped_keys_length _is_na cfg adata t' Ht'). exact Hcols.
Qed.

(** With two or more grouping columns the cell-index array lists, for
    each row of the grouped table, exactly the receptor-bearing cells that
    collapse to that row, without repeats; every receptor-bearing cell is in
    the entry of exactly one row; and the returned table holds these rows in
    the same order (with the grouping columns folded when there are any). *)
Theorem cell_indices_of_several_columns :
  forall (_is_na : string -> bool) (cfg : Config) (adata : AnnData)
         (tbl : DataFrame * list (list string)),
    List.length (clonotype_cols cfg) <> 1 ->
    _make_clonotype_table _is_na cfg adata = Ok tbl ->
    (forall i r,
        nth_error (index_to_frame (clonotype_groupby _is_na cfg adata)) i = Some r ->
        exists e,
          nth_error (snd tbl) i = Some e /\ NoDup e /\
          forall name,
            In name e <->
            exists c, In c (obs adata) /\ has_ir c = true /\ obs_name c = name /\
                      filtered_row _is_na cfg c = r) /\
    (forall c, In c (obs adata) -> has_ir c = true ->
       exists i e,
         nth_error (snd tbl) i = Some e /\ In (obs_name c) e /\
         forall i' e', nth_error (snd tbl) i' = Some e' ->
                       In (obs_name c) e' -> i' = i) /\
    match within_group cfg with
    | Some wg =>
        Forall2 (fun r r' => fold_within_group wg r = Ok r')
                (index_to_frame (clonotype_groupby _is_na cfg adata)) (fst tbl)
    | None => fst tbl = index_to_frame (clonotype_groupby _is_na cfg adata)
    end.
Proof.
  intros _is_na cfg adata tbl Hcols E.
  pose proof (cell_indices_entry _is_na cfg adata tbl) as Hentry.
  destruct (make_clonotype_table_inv _is_na cfg adata tbl E) as [U [_ [ET [EC _]]]].
  apply is_unique_NoDup in U.
  split; [intros i r; now apply Hentry |]. split.
  - intros c Hc Hir.
    assert (Hin : In (filtered_row _is_na cfg c)
                     (index_to_frame (clonotype_groupby _is_na cfg adata))).
    { apply grouped_rows. eauto. }
    apply In_nth_error in Hin. destruct Hin as [i Hi].
    destruct (Hentry i _ Hcols E Hi) as [e [Ee [_ He]]].
    exists i, e. split; [exact Ee |]. split.
    + apply He. exists c. auto.
    + intros i' e' Ee' Hin'.
      assert (Li' : i' < List.length (index_to_frame (clonotype_groupby _is_na cfg adata))).
      { assert (L : List.length (snd tbl)
                    = List.length (index_to_frame (clonotype_groupby _is_na cfg adata))).
        { rewrite EC. unfold make_cell_indices, itertuples. now rewrite !length_map. }
        rewrite <- L. apply nth_error_Some. congruence. }
      destruct (nth_error (index_to_frame (clonotype_groupby _is_na cfg adata)) i')
        as [r' |] eqn:Er'; [| apply nth_error_None in Er'; lia].
      destruct (Hentry i' r' Hcols E Er') as [e'' [Ee'' [_ He'']]].
      rewrite Ee' in Ee''. injection Ee'' as <-.
      apply He'' in Hin'. destruct Hin' as [c' [Hc' [_ [En Er]]]].
      assert (c' = c) by (eapply (NoDup_map_injective obs_name); eauto).
      subst c'. apply (proj1 (NoDup_nth_error _) (grouped_NoDup _is_na cfg adata)); [exact Li' |].
      congruence.
  - destruct (within_group cfg).
    + now apply mapM_Forall2.
    + now injection ET.
Qed.

Lemma cell_indices_of_several_columns_witness :
  (forall i r,
      nth_error (index_to_frame (clonotype_groupby is_na_sentinel paired_config paired_adata)) i
      = Some r ->
      exists e,
        nth_error (cell_indices paired_engine) i = Some e /\ NoDup e /\
        forall name,
          In name e <->
          exists c, In c (obs paired_adata) /\ has_ir c = true /\ obs_name c = name /\
                    filtered_row is_na_sentinel paired_config c = r) /\
  (forall c, In c (obs paired_adata) -> has_ir c = true ->
     exists i e,
       nth_error (cell_indices paired_engine) i = Some e /\ In (obs_name c) e /\
       forall i' e', nth_error (cell_indices paired_engine) i' = Some e' ->
                     In (obs_name c) e' -> i' = i) /\
  clonotypes paired_engine
  = index_to_frame (clonotype_groupby is_na_sentinel paired_config paired_adata).
Proof.
  apply (cell_indices_of_several_columns is_na_sentinel paired_config paired_adata
           (clonotypes paired_engine, cell_indices paired_engine)).
  - vm_compute. discriminate.
  - vm_compute. reflexivity.
Defined.

(** With a single grouping column every entry of the cell-index array is
    empty: the keys of [groupby.indices] are then bare values, and the
    lookup by 1-tuple finds none of them. *)
Theorem cell_indices_of_one_column :
  forall (_is_na : string -> bool) (cfg : Config) (adata : AnnData)
         (tbl : DataFrame * list (list string)),
    List.length (clonotype_cols cfg) = 1 ->
    _make_clonotype_table _is_na cfg adata = Ok tbl ->
    List.length (snd tbl) = List.length (fst tbl) /\
    forall e, In e (snd tbl) -> e = [].
Proof.
  intros _is_na cfg adata tbl Hcols E.
  destruct (make_clonotype_table_inv _is_na cfg adata tbl E) as [_ [_ [ET [EC _]]]].
  split.
  - rewrite EC. unfold make_cell_indices, itertuples. rewrite !length_map.
    destruct (within_group cfg).
    + apply mapM_length in ET. now rewrite ET.
    + injection ET as <-. reflexivity.
  - intros e He. rewrite EC in He. unfold make_cell_indices in He.
    apply in_map_iff in He. destruct He as [t [<- _]].
    rewrite grouped_indices, dict_get_scalar_keys; [reflexivity |].
    intros t' Ht'. rewrite (grouped_keys_length _is_na cfg adata t' Ht'). exact Hcols.
Qed.

Lemma cell_indices_of_one_column_witness :
  List.length (snd ([[("IR_VJ_1_junction_aa", EStr "CASS")]], [@nil string]))
  = List.length (fst ([[("IR_VJ_1_junction_aa", EStr "CASS")]], [@nil string])) /\
  forall e, In e (snd ([[("IR_VJ_1_junction_aa", EStr "CASS")]], [@nil string])) ->
            e = [].
Proof.
  apply (cell_indices_of_one_column is_na_sentinel single_column_config
           one_cell_adata).
  - reflexivity.
  - reflexivity.
Defined.

Lemma clonotype_table_rows_distinct_witness :
  fst (clonotypes paired_engine, cell_indices paired_engine) <> [] /\
  NoDup (fst (clonotypes paired_engine, cell_indices paired_engine)) /\
  List.length (snd (clonotypes paired_engine, cell_indices paired_engine))
  = List.length (fst (clonotypes paired_engine, cell_indices paired_engine)).
Proof.
  apply (clonotype_table_rows_distinct is_na_sentinel paired_config paired_adata).
  vm_compute. reflexivity.
Defined.

(** * The aggregator, column by column *)

Lemma mapM_exact {A B : Type} (f : A -> result B) (g : A -> B) (l : list A) :
  (forall a, In a l -> f a = Ok (g a)) -> mapM f l = Ok (map g l).
Proof.
  induction l as [| a l IH]; intros H; simpl; [reflexivity |].
  rewrite (H a) by now left. simpl.
  rewrite IH by (intros x Hx; apply H; now right). reflexivity.
Qed.

Lemma map_nth_seq {A : Type} (l : list A) (d : A) :
  map (fun p => nth p l d) (seq 0 (List.length l)) = l.
Proof.
  induction l as [| x l IH]; simpl; [reflexivity |].
  f_equal. rewrite <- seq_shift, map_map. exact IH.
Qed.

(** Reducing operands that are tabulated over one index list. *)
Lemma columns_tabulated (g : list fval -> fval) (fs : list (nat -> fval))
  (ix : list nat) :
  fs <> [] ->
  map g (columns (map (fun f => map f ix) fs))
  = map (fun j => g (map (fun f => f j) fs)) ix.
Proof.
  intros Hne.
  assert (W : width (map (fun f => map f ix) fs) = List.length ix).
  { destruct fs as [| f fs]; [congruence |]. simpl. now rewrite length_map. }
  unfold columns. rewrite W, map_map.
  rewrite <- (map_nth_seq ix 0) at 2. rewrite map_map.
  apply map_ext_in. intros p Hp. apply in_seq in Hp. f_equal.
  unfold column. rewrite map_map. apply map_ext. intros f.
  rewrite (nth_indep _ NaN (f 0)) by (rewrite length_map; lia).
  apply map_nth.
Qed.

Lemma vstack_tabulated (fs : list (nat -> fval)) (ix : list nat) :
  fs <> [] ->
  vstack (map (fun f => map f ix) fs) = Ok (map (fun f => map f ix) fs).
Proof.
  intros Hne. apply (vstack_uniform _ (List.length ix)).
  - destruct fs; [congruence | discriminate].
  - intros r Hr. apply in_map_iff in Hr. destruct Hr as [f [<- _]].
    now rewrite length_map.
Qed.

Lemma reduce_or_tabulated (fs : list (nat -> fval)) (ix : list nat) :
  fs <> [] ->
  reduce_or (map (fun f => map f ix) fs)
  = Ok (map (fun j => or_column (map (fun f => f j) fs)) ix).
Proof.
  intros Hne. unfold reduce_or. rewrite vstack_tabulated by assumption.
  simpl. now rewrite columns_tabulated.
Qed.

Lemma reduce_and_tabulated (clonotypes : DataFrame) (ct_id : nat)
  (cols : list string) (count : nat) (fs : list (nat -> fval)) (ix : list nat) :
  chain_count clonotypes ct_id cols = Ok count ->
  fs <> [] ->
  reduce_and clonotypes ct_id (map (fun f => map f ix) fs) cols
  = Ok (map (fun j => and_column count (map (fun f => f j) fs)) ix).
Proof.
  intros Hc Hne. unfold reduce_and. rewrite Hc, vstack_tabulated by assumption.
  simpl. now rewrite columns_tabulated.
Qed.

Lemma stored_tabulated (f : nat -> fval) (ix : list nat) (j : nat) :
  In j ix -> stored ix (map f ix) j = f j.
Proof.
  induction ix as [| i ix IH]; simpl; [tauto |].
  intros H. destruct (Nat.eqb_spec i j) as [-> | Hne]; [reflexivity |].
  destruct H as [H | H]; [contradiction | now apply IH].
Qed.

Lemma lookup_key_eqb_eq (k1 k2 : lookup_key) :
  lookup_key_eqb k1 k2 = true -> k1 = k2.
Proof.
  destruct k1 as [[a1 c1] d1], k2 as [[a2 c2] d2].
  destruct a1, a2, c1, c2, d1, d2; simpl; intros E; try discriminate E; reflexivity.
Qed.

Lemma lookup_find_tabulated (val : arm * (chain * chain) -> list Z)
  (l : list (arm * (chain * chain))) (a : arm) (c1 c2 : chain) :
  In (a, (c1, c2)) l ->
  lookup_find (map (fun ac => match ac with
                              | (a', (d1, d2)) => ((a', d1, d2), val ac)
                              end) l) (a, c1, c2)
  = Ok (val (a, (c1, c2))).
Proof.
  induction l as [| [a' [d1 d2]] l IH]; [intros [] |].
  intros H. cbn [map lookup_find].
  destruct (lookup_key_eqb (a', d1, d2) (a, c1, c2)) eqn:E.
  - apply lookup_key_eqb_eq in E. injection E as -> -> ->. reflexivity.
  - destruct H as [H | H]; [| now apply IH].
    injection H as -> -> ->. now rewrite lookup_key_eqb_refl in E.
Qed.

Section Pointwise.

Variable self : ClonotypeNeighbors.
Hypothesis Hprep : prepared self = true.
Variable ct_id : nat.
Hypothesis Hct : ct_id < List.length (clonotypes self).

Lemma fill_lookup_exact :
  fill_lookup self ct_id
  = Ok (map (fun ac => match ac with
                       | (a', (d1, d2)) =>
                           ((a', d1, d2),
                            (fun ac' => lookup_row self ct_id (fst ac')
                                          (fst (snd ac')) (snd (snd ac'))) ac)
                       end)
            (product (_receptor_arm_cols (config self)) (chain_ids (config self)))).
Proof.
  unfold fill_lookup. apply mapM_exact. intros [a [c1 c2]] Hin.
  apply in_product in Hin. destruct Hin as [Ha Hc].
  apply chain_ids_considered in Hc. destruct Hc as [H1 H2].
  destruct (prepared_lookup self Hprep ct_id a c1 c2 Hct Ha H1 H2) as [x [Ex _]].
  simpl. unfold lookup_row. rewrite Ex. reflexivity.
Qed.

Lemma lookup_row_length (a : arm) (c1 c2 : chain) :
  In a (_receptor_arm_cols (config self)) ->
  In (c1, c2) (chain_ids (config self)) ->
  List.length (lookup_row self ct_id a c1 c2) = List.length (clonotypes self).
Proof.
  intros Ha Hc. apply chain_ids_considered in Hc. destruct Hc as [H1 H2].
  destruct (prepared_lookup self Hprep ct_id a c1 c2 Hct Ha H1 H2) as [x [Ex Lx]].
  unfold lookup_row. now rewrite Ex.
Qed.

Variable lookup_dict : list (lookup_key * list Z).
Hypothesis Hld : fill_lookup self ct_id = Ok lookup_dict.

Variable has_distance : sparse_row.
Hypothesis Hix : forall i, In i (indices has_distance) ->
                           i < List.length (clonotypes self).

Lemma make_tmp_res_exact (a : arm) (c1 c2 : chain) :
  In a (_receptor_arm_cols (config self)) ->
  In (c1, c2) (chain_ids (config self)) ->
  make_tmp_res self lookup_dict has_distance a c1 c2
  = Ok (map (candidate_value self ct_id a c1 c2) (indices has_distance)).
Proof.
  intros Ha Hc. destruct (chain_ids_considered _ c1 c2 Hc) as [H1 H2].
  destruct (prepared_column self Hprep a c2 Ha H2) as [col [Ecol Lcol]].
  unfold make_tmp_res. rewrite Ecol. cbn [bind].
  apply mapM_exact. intros i Hi. specialize (Hix i Hi).
  destruct (nth_error (clonotypes self) i) as [r |] eqn:Er;
    [| apply nth_error_None in Er; lia].
  destruct (mapM_nth_error _ _ _ i r Ecol Er) as [v [Ev Ef]].
  rewrite Ev. unfold candidate_value. rewrite Er, Ef.
  destruct (is_nan_str v); cbn [negb]; [reflexivity |].
  assert (El : lookup_find lookup_dict (a, c1, c2)
               = Ok (lookup_row self ct_id a c1 c2)).
  { rewrite fill_lookup_exact in Hld. injection Hld as <-.
    rewrite lookup_find_tabulated by now apply in_product.
    reflexivity. }
  rewrite El. cbn [bind].
  pose proof (lookup_row_length a c1 c2 Ha Hc) as Lx.
  destruct (nth_error (lookup_row self ct_id a c1 c2) i) as [d |] eqn:Ed;
    [| apply nth_error_None in Ed; lia].
  now rewrite (nth_error_nth _ _ 0%Z Ed).
Qed.

Lemma own_missing_exact (cols : list string) :
  (forall col, In col cols ->
     exists a c, In a (_receptor_arm_cols (config self)) /\
                 In c (_dual_ir_cols (config self)) /\
                 col = cdr3_col (config self) a c) ->
  chain_count (clonotypes self) ct_id cols = Ok (own_missing self ct_id cols).
Proof.
  intros H. destruct (chain_count_total self Hprep ct_id Hct cols H) as [count E].
  unfold own_missing. now rewrite E.
Qed.

Lemma arm_res_exact (a : arm) :
  In a (_receptor_arm_cols (config self)) ->
  arm_res self ct_id lookup_dict has_distance a
  = Ok (map (arm_value self ct_id a) (indices has_distance)).
Proof.
  intros Ha. unfold arm_res. cbv zeta.
  assert (Hids : forall c1 c2, dual_ir (config self) <> primary_only ->
                               In (c1, c2) (chain_ids (config self))).
  { intros c1 c2 Hd. unfold chain_ids.
    destruct (dual_ir (config self)); [congruence | |];
      destruct c1, c2; simpl; auto. }
  assert (Hcount : dual_ir (config self) <> primary_only ->
            chain_count (clonotypes self) ct_id
              (map (cdr3_col (config self) a) [chain1; chain2])
            = Ok (own_missing self ct_id
                    (map (cdr3_col (config self) a) [chain1; chain2]))).
  { intros Hd. apply own_missing_exact.
    intros col [<- | [<- | []]]; exists a; eexists; (split; [exact Ha |]);
      (split; [| reflexivity]).
    - apply chain1_considered.
    - now apply chain2_considered. }
  destruct (dual_ir (config self)) eqn:Ed.
  - rewrite make_tmp_res_exact; [| assumption | unfold chain_ids; rewrite Ed; now left].
    f_equal. apply map_ext. intros j. unfold arm_value. now rewrite Ed.
  - assert (Hd : dual_all <> primary_only) by discriminate.
    rewrite !make_tmp_res_exact by auto. cbn [bind].
    change [map (candidate_value self ct_id a chain1 chain1) (indices has_distance);
            map (candidate_value self ct_id a chain2 chain2) (indices has_distance)]
      with (map (fun f => map f (indices has_distance))
                [candidate_value self ct_id a chain1 chain1;
                 candidate_value self ct_id a chain2 chain2]).
    rewrite (reduce_and_tabulated _ _ _ _ _ _ (Hcount Hd)) by discriminate.
    cbn [bind].
    change [map (candidate_value self ct_id a chain1 chain2) (indices has_distance);
            map (candidate_value self ct_id a chain2 chain1) (indices has_distance)]
      with (map (fun f => map f (indices has_distance))
                [candidate_value self ct_id a chain1 chain2;
                 candidate_value self ct_id a chain2 chain1]).
    rewrite (reduce_and_tabulated _ _ _ _ _ _ (Hcount Hd)) by discriminate.
    cbn [bind].
    match goal with
    | |- reduce_or [map ?g1 ?ix; map ?g2 ?ix] = _ =>
        change [map g1 ix; map g2 ix] with (map (fun f => map f ix) [g1; g2])
    end.
    rewrite reduce_or_tabulated by discriminate.
    f_equal. apply map_ext. intros j. unfold arm_value. now rewrite Ed.
  - assert (Hd : dual_any <> primary_only) by discriminate.
    rewrite !make_tmp_res_exact by auto. cbn [bind].
    match goal with
    | |- reduce_or [map ?g1 ?ix; map ?g2 ?ix; map ?g3 ?ix; map ?g4 ?ix] = _ =>
        change [map g1 ix; map g2 ix; map g3 ix; map g4 ix]
          with (map (fun f => map f ix) [g1; g2; g3; g4])
    end.
    rewrite reduce_or_tabulated by discriminate.
    f_equal. apply map_ext. intros j. unfold arm_value. now rewrite Ed.
Qed.

End Pointwise.

Lemma dist_for_clonotype_exact (self : ClonotypeNeighbors) (ct_id : nat) :
  prepared self = true ->
  ct_id < List.length (clonotypes self) ->
  _dist_for_clonotype self ct_id
  = Ok {| ncols := List.length (clonotypes self);
          indices := filter (has_any_neighbor self ct_id)
                            (seq 0 (List.length (clonotypes self)));
          data := map (distance_value self ct_id)
                      (filter (has_any_neighbor self ct_id)
                              (seq 0 (List.length (clonotypes self)))) |}.
Proof.
  intros Hprep Hct.
  destruct (fill_lookup_total self Hprep ct_id Hct) as [ld [E [Hlen [Hkeys Hex]]]].
  assert (Harm : exists a, In a (_receptor_arm_cols (config self))).
  { pose proof (arms_not_empty (config self)) as N.
    destruct (_receptor_arm_cols (config self)) as [| a l]; [congruence |].
    exists a. now left. }
  assert (Hne : map snd ld <> []).
  { destruct Harm as [a Ha].
    destruct (Hkeys a chain1 chain1 Ha (chain11_listed _)) as [x Hx].
    intros N. assert (H : In x (map snd ld)).
    { apply in_map_iff. exists ((a, chain1, chain1), x). auto. }
    rewrite N in H. contradiction. }
  destruct (has_distance_of_uniform (map snd ld) (List.length (clonotypes self)) Hne)
    as [d Ehd].
  { intros x Hx. apply in_map_iff in Hx. destruct Hx as [[k0 x0] [<- Hx0]].
    simpl. eapply Hlen; eauto. }
  rewrite (filter_ext _ _ Hex) in Ehd.
  set (ix := filter (has_any_neighbor self ct_id)
                    (seq 0 (List.length (clonotypes self)))) in *.
  set (hd := {| ncols := List.length (clonotypes self); indices := ix; data := d |}) in *.
  assert (Hix : forall i, In i (indices hd) -> i < List.length (clonotypes self)).
  { intros i Hi. simpl in Hi. unfold ix in Hi. apply filter_In in Hi.
    destruct Hi as [Hi _]. apply in_seq in Hi. lia. }
  assert (Eres : mapM (arm_res self ct_id ld hd) (_receptor_arm_cols (config self))
                 = Ok (map (fun f => map f ix)
                           (map (arm_value self ct_id)
                                (_receptor_arm_cols (config self))))).
  { rewrite map_map. apply mapM_exact. intros a Ha.
    now apply (arm_res_exact self Hprep ct_id Hct ld E hd Hix a Ha). }
  assert (Nfs : map (arm_value self ct_id) (_receptor_arm_cols (config self)) <> []).
  { destruct Harm as [a Ha].
    destruct (_receptor_arm_cols (config self)); [contradiction | discriminate]. }
  unfold _dist_for_clonotype. rewrite E. cbn [bind]. rewrite Ehd. cbn [bind].
  rewrite Eres. cbn [bind]. rewrite vstack_tabulated by assumption. cbn [bind].
  assert (Eout :
            match receptor_arms (config self) with
            | arms_all =>
                reduce_and (clonotypes self) ct_id
                  (map (fun f => map f ix)
                       (map (arm_value self ct_id) (_receptor_arm_cols (config self))))
                  (map (fun a => cdr3_col (config self) a chain1)
                       (_receptor_arm_cols (config self)))
            | _ => reduce_or
                     (map (fun f => map f ix)
                          (map (arm_value self ct_id) (_receptor_arm_cols (config self))))
            end = Ok (map (distance_value self ct_id) ix)).
  { assert (Ec : chain_count (clonotypes self) ct_id
                   (map (fun a => cdr3_col (config self) a chain1)
                        (_receptor_arm_cols (config self)))
                 = Ok (own_missing self ct_id
                         (map (fun a => cdr3_col (config self) a chain1)
                              (_receptor_arm_cols (config self))))).
    { apply own_missing_exact; [assumption | assumption |].
      intros col Hcol. apply in_map_iff in Hcol. destruct Hcol as [a [<- Ha]].
      exists a, chain1. split; [assumption |].
      split; [apply chain1_considered | reflexivity]. }
    unfold distance_value. cbv zeta.
    destruct (receptor_arms (config self));
      first [ rewrite reduce_or_tabulated by assumption
            | rewrite (reduce_and_tabulated _ _ _ _ _ _ Ec) by assumption ];
      f_equal; apply map_ext; intros j; now rewrite map_map. }
  rewrite Eout. reflexivity.
Qed.

Lemma init_config (_is_na : string -> bool) (adata : AnnData) (cfg : Config)
  (self : ClonotypeNeighbors) :
  __init__ _is_na adata cfg = Ok self -> config self = cfg.
Proof.
  unfold __init__, _prepare.
  destruct (dict_find (uns adata) (distance_key cfg)); simpl; [| discriminate].
  destruct (_make_clonotype_table _is_na cfg adata); simpl; [| discriminate].
  destruct (_add_distance_matrices _ _ _ _ _); simpl; [| discriminate].
  destruct (_add_lookup_tables _ _); simpl; [| discriminate].
  intros E. injection E as <-. reflexivity.
Qed.

Lemma row_get_exact (self : ClonotypeNeighbors) (ct_id j : nat) :
  row_get {| ncols := List.length (clonotypes self);
             indices := filter (has_any_neighbor self ct_id)
                               (seq 0 (List.length (clonotypes self)));
             data := map (distance_value self ct_id)
                         (filter (has_any_neighbor self ct_id)
                                 (seq 0 (List.length (clonotypes self)))) |} j
  = if has_any_neighbor self ct_id j && Nat.ltb j (List.length (clonotypes self))
    then distance_value self ct_id j
    else Num 0.
Proof.
  unfold row_get. simpl.
  destruct (has_any_neighbor self ct_id j) eqn:H; simpl.
  - destruct (Nat.ltb_spec j (List.length (clonotypes self))) as [L | L].
    + apply stored_tabulated. apply filter_In. split; [| exact H].
      apply in_seq. lia.
    + apply stored_absent. intros Hin. apply filter_In in Hin.
      destruct Hin as [Hin _]. apply in_seq in Hin. lia.
  - apply stored_absent. intros Hin. apply filter_In in Hin.
    destruct Hin as [_ Hin]. congruence.
Qed.

Lemma has_any_neighbor_in_range (self : ClonotypeNeighbors) (ct_id j : nat) :
  prepared self = true -> ct_id < List.length (clonotypes self) ->
  has_any_neighbor self ct_id j = true -> j < List.length (clonotypes self).
Proof.
  intros Hprep Hct H.
  destruct (Nat.lt_ge_cases j (List.length (clonotypes self))) as [Hj | Hj];
    [exact Hj | exfalso].
  unfold has_any_neighbor in H. apply existsb_exists in H.
  destruct H as [[a [c1 c2]] [Hac Hnz]]. apply in_product in Hac.
  destruct Hac as [Ha Hc]. apply chain_ids_considered in Hc.
  destruct Hc as [H1 H2].
  destruct (prepared_lookup self Hprep ct_id a c1 c2 Hct Ha H1 H2) as [x [Ex Lx]].
  rewrite Ex in Hnz. rewrite nth_overflow in Hnz by lia. discriminate.
Qed.

(** For every engine returned by the constructor the aggregator's row
    reads, at every column, the distance computed for that one candidate
    ([distance_value]: the reductions of the candidate's per-chain-pair
    values) if some chain-pair lookup is nonzero there, and 0 otherwise. *)
Theorem dist_row_pointwise :
  forall (_is_na : string -> bool) (adata : AnnData) (cfg : Config)
         (self : ClonotypeNeighbors) (ct_id : nat),
    __init__ _is_na adata cfg = Ok self ->
    ct_id < List.length (clonotypes self) ->
    exists row,
      _dist_for_clonotype self ct_id = Ok row /\
      forall j, row_get row j
                = if has_any_neighbor self ct_id j
                  then distance_value self ct_id j
                  else Num 0.
Proof.
  intros _is_na adata cfg self ct_id Hinit Hct.
  pose proof (init_prepared _is_na adata cfg self Hinit) as Hprep.
  eexists. split; [now apply dist_for_clonotype_exact |].
  intros j. rewrite row_get_exact.
  destruct (has_any_neighbor self ct_id j) eqn:H; [| reflexivity].
  pose proof (has_any_neighbor_in_range self ct_id j Hprep Hct H) as L.
  apply Nat.ltb_lt in L. now rewrite L.
Qed.

Lemma dist_row_pointwise_witness :
  exists row,
    _dist_for_clonotype paired_engine 0 = Ok row /\
    forall j, row_get row j
              = if has_any_neighbor paired_engine 0 j
                then distance_value paired_engine 0 j
                else Num 0.
Proof.
  apply (dist_row_pointwise is_na_sentinel paired_adata paired_config
           paired_engine 0).
  - vm_compute. reflexivity.
  - vm_compute. repeat constructor.
Defined.

Lemma or_column_single (x : fval) : x <> Inf -> or_column [x] = x.
Proof.
  destruct x as [| | z]; [reflexivity | congruence |].
  intros _. unfold or_column, zero_to_inf. simpl.
  destruct (Z.eqb_spec z 0); simpl; [now subst | reflexivity].
Qed.

Lemma candidate_value_not_inf (self : ClonotypeNeighbors) (ct_id : nat) (a : arm)
  (c1 c2 : chain) (j : nat) :
  candidate_value self ct_id a c1 c2 j <> Inf.
Proof.
  unfold candidate_value.
  destruct (nth_error (clonotypes self) j); [| discriminate].
  destruct (get_field _ _) as [v |]; [| discriminate].
  destruct (is_nan_str v); discriminate.
Qed.

Lemma candidate_value_present (self : ClonotypeNeighbors) (ct_id : nat) (a : arm)
  (c1 c2 : chain) (j : nat) (r : record) (v : entry) :
  nth_error (clonotypes self) j = Some r ->
  get_field r (cdr3_col (config self) a c2) = Ok v ->
  candidate_value self ct_id a c1 c2 j
  = if is_nan_str v then NaN
    else Num (nth j (lookup_row self ct_id a c1 c2) 0%Z).
Proof. intros Er Ev. unfold candidate_value. now rewrite Er, Ev. Qed.

Lemma has_any_neighbor_rows (self : ClonotypeNeighbors) (ct_id j : nat) :
  prepared self = true -> ct_id < List.length (clonotypes self) ->
  has_any_neighbor self ct_id j
  = existsb (fun ac => nonzero_at j (lookup_row self ct_id (fst ac)
                                       (fst (snd ac)) (snd (snd ac))))
            (product (_receptor_arm_cols (config self)) (chain_ids (config self))).
Proof.
  intros Hprep Hct. unfold has_any_neighbor.
  assert (G : forall (f g : arm * (chain * chain) -> bool) l,
             (forall x, In x l -> f x = g x) -> existsb f l = existsb g l).
  { intros f g l. induction l as [| x l IH]; intros H; simpl; [reflexivity |].
    rewrite (H x) by now left. f_equal. apply IH. intros y Hy. apply H. now right. }
  apply G. intros [a [c1 c2]] Hin. simpl.
  apply in_product in Hin. destruct Hin as [Ha Hc].
  apply chain_ids_considered in Hc. destruct Hc as [H1 H2].
  destruct (prepared_lookup self Hprep ct_id a c1 c2 Hct Ha H1 H2) as [x [Ex _]].
  unfold lookup_row. now rewrite Ex.
Qed.

Lemma chain_count_row (clonotypes : DataFrame) (ct_id : nat) (cols : list string)
  (r : record) (count : nat) :
  chain_count clonotypes ct_id cols = Ok count ->
  nth_error clonotypes ct_id = Some r ->
  exists vs, mapM (get_field r) cols = Ok vs /\
             count = List.length (filter is_nan_str vs).
Proof.
  unfold chain_count, loc_iloc. intros E Er.
  destruct (mapM (get_column clonotypes) cols); simpl in E; [| discriminate].
  rewrite Er in E.
  destruct (mapM (get_field r) cols) as [vs |]; simpl in E; [| discriminate].
  injection E as <-. eauto.
Qed.

Lemma and_column_pair (a b : Z) :
  and_column 0 [Num a; Num b]
  = if Z.eqb a 0 || Z.eqb b 0 then Num 0 else Num (Z.max a b).
Proof.
  unfold and_column, zero_to_inf. simpl.
  destruct (Z.eqb a 0), (Z.eqb b 0); reflexivity.
Qed.

Lemma or_column_pair (a b : Z) :
  or_column [Num a; Num b]
  = if Z.eqb a 0 then Num b
    else if Z.eqb b 0 then Num a else Num (Z.min a b).
Proof.
  unfold or_column, zero_to_inf. simpl.
  destruct (Z.eqb_spec a 0), (Z.eqb_spec b 0); simpl; subst; reflexivity.
Qed.

(** With one receptor arm and primary chains only, the distance to a
    candidate is the entry of the arm's primary lookup row: 0 where that entry
    is 0, NaN where the entry is nonzero and the candidate's primary sequence
    is ["nan"], the entry itself otherwise; secondary chains play no part. *)
Theorem single_arm_primary_row :
  forall (_is_na : string -> bool) (adata : AnnData) (cfg : Config)
         (self : ClonotypeNeighbors) (ct_id : nat) (a : arm),
    __init__ _is_na adata cfg = Ok self ->
    _receptor_arm_cols (config self) = [a] ->
    dual_ir (config self) = primary_only ->
    ct_id < List.length (clonotypes self) ->
    exists row,
      _dist_for_clonotype self ct_id = Ok row /\
      (forall j r v,
          nth_error (clonotypes self) j = Some r ->
          get_field r (cdr3_col (config self) a chain1) = Ok v ->
          row_get row j
          = if Z.eqb (nth j (lookup_row self ct_id a chain1 chain1) 0%Z) 0
            then Num 0
            else if is_nan_str v then NaN
                 else Num (nth j (lookup_row self ct_id a chain1 chain1) 0%Z)) /\
      (forall j, List.length (clonotypes self) <= j -> row_get row j = Num 0).
Proof.
  intros _is_na adata cfg self ct_id a Hinit Harms Hdual Hct.
  pose proof (init_prepared _is_na adata cfg self Hinit) as Hprep.
  eexists. split; [now apply dist_for_clonotype_exact |]. split.
  - intros j r v Er Ev. rewrite row_get_exact.
    assert (L : j < List.length (clonotypes self)).
    { apply nth_error_Some. congruence. }
    apply Nat.ltb_lt in L. rewrite L, andb_true_r.
    rewrite has_any_neighbor_rows by assumption.
    unfold chain_ids. rewrite Harms, Hdual.
    cbn [product flat_map map app existsb fst snd].
    rewrite orb_false_r. unfold nonzero_at.
    destruct (Z.eqb (nth j (lookup_row self ct_id a chain1 chain1) 0%Z) 0);
      cbn [negb]; [reflexivity |].
    unfold distance_value. cbv zeta. rewrite Harms. cbn [map].
    assert (V : arm_value self ct_id a j
                = if is_nan_str v then NaN
                  else Num (nth j (lookup_row self ct_id a chain1 chain1) 0%Z)).
    { unfold arm_value. cbv zeta. rewrite Hdual.
      now apply (candidate_value_present self ct_id a chain1 chain1 j r v). }
    assert (O : or_column [arm_value self ct_id a j] = arm_value self ct_id a j).
    { apply or_column_single. rewrite V. destruct (is_nan_str v); discriminate. }
    unfold _receptor_arm_cols in Harms.
    destruct (receptor_arms (config self)); try discriminate Harms;
      rewrite O; exact V.
  - intros j Hj. rewrite row_get_exact.
    apply Nat.ltb_ge in Hj. now rewrite Hj, andb_false_r.
Qed.

Lemma single_arm_primary_row_witness :
  exists row,
    _dist_for_clonotype within_patient_engine 0 = Ok row /\
    (forall j r v,
        nth_error (clonotypes within_patient_engine) j = Some r ->
        get_field r (cdr3_col (config within_patient_engine) VJ chain1) = Ok v ->
        row_get row j
        = if Z.eqb (nth j (lookup_row within_patient_engine 0 VJ chain1 chain1) 0%Z) 0
          then Num 0
          else if is_nan_str v then NaN
               else Num (nth j (lookup_row within_patient_engine 0 VJ chain1 chain1) 0%Z)) /\
    (forall j, List.length (clonotypes within_patient_engine) <= j ->
               row_get row j = Num 0).
Proof.
  apply (single_arm_primary_row is_na_sentinel two_patients_adata
           within_patient_config within_patient_engine 0 VJ).
  - vm_compute. reflexivity.
  - reflexivity.
  - reflexivity.
  - vm_compute. repeat constructor.
Defined.

Section BothArms.

Variable self : ClonotypeNeighbors.
Hypothesis Hprep : prepared self = true.
Hypothesis Hdual : dual_ir (config self) = primary_only.
Variable ct_id j : nat.
Hypothesis Hct : ct_id < List.length (clonotypes self).
Variable r : record.
Variable v1 v2 : entry.
Hypothesis Er : nth_error (clonotypes self) j = Some r.
Hypothesis Ev1 : get_field r (cdr3_col (config self) VJ chain1) = Ok v1.
Hypothesis Ev2 : get_field r (cdr3_col (config self) VDJ chain1) = Ok v2.
Hypothesis Hv1 : is_nan_str v1 = false.
Hypothesis Hv2 : is_nan_str v2 = false.

Lemma both_arms_values :
  _receptor_arm_cols (config self) = [VJ; VDJ] ->
  has_any_neighbor self ct_id j
  = negb (Z.eqb (nth j (lookup_row self ct_id VJ chain1 chain1) 0%Z) 0)
    || negb (Z.eqb (nth j (lookup_row self ct_id VDJ chain1 chain1) 0%Z) 0) /\
  Nat.ltb j (List.length (clonotypes self)) = true /\
  map (fun a => arm_value self ct_id a j) (_receptor_arm_cols (config self))
  = [Num (nth j (lookup_row self ct_id VJ chain1 chain1) 0%Z);
     Num (nth j (lookup_row self ct_id VDJ chain1 chain1) 0%Z)].
Proof.
  intros Harms. split; [| split].
  - rewrite has_any_neighbor_rows by assumption.
    unfold chain_ids. rewrite Harms, Hdual.
    cbn [product flat_map map app existsb fst snd].
    now rewrite orb_false_r.
  - apply Nat.ltb_lt, nth_error_Some. congruence.
  - rewrite Harms. cbn [map]. unfold arm_value. cbv zeta. rewrite Hdual.
    rewrite (candidate_value_present self ct_id VJ chain1 chain1 j r v1 Er Ev1).
    rewrite (candidate_value_present self ct_id VDJ chain1 chain1 j r v2 Er Ev2).
    now rewrite Hv1, Hv2.
Qed.

End BothArms.

(** Arm policy [all], primary chains only: when the clonotype and the
    candidate both have a primary sequence in both arms, the distance is the
    larger of the two arms' lookup entries if both are nonzero, and 0 as soon
    as one of them is 0. *)
Theorem all_arms_primary_max :
  forall (_is_na : string -> bool) (adata : AnnData) (cfg : Config)
         (self : ClonotypeNeighbors) (ct_id j : nat) (q r : record)
         (q1 q2 v1 v2 : entry),
    __init__ _is_na adata cfg = Ok self ->
    receptor_arms (config self) = arms_all ->
    dual_ir (config self) = primary_only ->
    nth_error (clonotypes self) ct_id = Some q ->
    get_field q (cdr3_col (config self) VJ chain1) = Ok q1 ->
    get_field q (cdr3_col (config self) VDJ chain1) = Ok q2 ->
    is_nan_str q1 = false -> is_nan_str q2 = false ->
    nth_error (clonotypes self) j = Some r ->
    get_field r (cdr3_col (config self) VJ chain1) = Ok v1 ->
    get_field r (cdr3_col (config self) VDJ chain1) = Ok v2 ->
    is_nan_str v1 = false -> is_nan_str v2 = false ->
    exists row,
      _dist_for_clonotype self ct_id = Ok row /\
      row_get row j
      = if Z.eqb (nth j (lookup_row self ct_id VJ chain1 chain1) 0%Z) 0
           || Z.eqb (nth j (lookup_row self ct_id VDJ chain1 chain1) 0%Z) 0
        then Num 0
        else Num (Z.max (nth j (lookup_row self ct_id VJ chain1 chain1) 0%Z)
                        (nth j (lookup_row self ct_id VDJ chain1 chain1) 0%Z)).
Proof.
  intros _is_na adata cfg self ct_id j q r q1 q2 v1 v2 Hinit Harms Hdual
         Eq Eq1 Eq2 Hq1 Hq2 Er Ev1 Ev2 Hv1 Hv2.
  pose proof (init_prepared _is_na adata cfg self Hinit) as Hprep.
  assert (Hct : ct_id < List.length (clonotypes self)).
  { apply nth_error_Some. congruence. }
  assert (Hcols : _receptor_arm_cols (config self) = [VJ; VDJ]).
  { unfold _receptor_arm_cols. now rewrite Harms. }
  destruct (both_arms_values self Hprep Hdual ct_id j Hct r v1 v2 Er Ev1 Ev2 Hv1 Hv2 Hcols)
    as [Hany [Hlt Hvals]].
  eexists. split; [now apply dist_for_clonotype_exact |].
  rewrite row_get_exact, Hlt, andb_true_r, Hany.
  unfold distance_value. cbv zeta. rewrite Hvals, Harms.
  assert (C : own_missing self ct_id
                (map (fun a => cdr3_col (config self) a chain1)
                     (_receptor_arm_cols (config self))) = 0).
  { assert (Ec : chain_count (clonotypes self) ct_id
                   (map (fun a => cdr3_col (config self) a chain1)
                        (_receptor_arm_cols (config self)))
                 = Ok (own_missing self ct_id
                         (map (fun a => cdr3_col (config self) a chain1)
                              (_receptor_arm_cols (config self))))).
    { apply own_missing_exact; [assumption | assumption |].
      intros col Hcol. apply in_map_iff in Hcol. destruct Hcol as [a [<- Ha]].
      exists a, chain1. split; [assumption |].
      split; [apply chain1_considered | reflexivity]. }
    destruct (chain_count_row _ _ _ q _ Ec Eq) as [vs [Evs ->]].
    rewrite Hcols in Evs. simpl in Evs. rewrite Eq1, Eq2 in Evs. simpl in Evs.
    injection Evs as <-. simpl. now rewrite Hq1, Hq2. }
  rewrite C, and_column_pair.
  destruct (Z.eqb (nth j (lookup_row self ct_id VJ chain1 chain1) 0%Z) 0),
           (Z.eqb (nth j (lookup_row self ct_id VDJ chain1 chain1) 0%Z) 0);
    reflexivity.
Qed.

(** Arm policy [any], primary chains only: when the candidate has a primary
    sequence in both arms, the distance is the smaller of the two arms'
    nonzero lookup entries, the other entry when one of them is 0, and 0 when
    both are. *)
Theorem any_arm_primary_min :
  forall (_is_na : string -> bool) (adata : AnnData) (cfg : Config)
         (self : ClonotypeNeighbors) (ct_id j : nat) (r : record)
         (v1 v2 : entry),
    __init__ _is_na adata cfg = Ok self ->
    receptor_arms (config self) = arms_any ->
    dual_ir (config self) = primary_only ->
    ct_id < List.length (clonotypes self) ->
    nth_error (clonotypes self) j = Some r ->
    get_field r (cdr3_col (config self) VJ chain1) = Ok v1 ->
    get_field r (cdr3_col (config self) VDJ chain1) = Ok v2 ->
    is_nan_str v1 = false -> is_nan_str v2 = false ->
    exists row,
      _dist_for_clonotype self ct_id = Ok row /\
      row_get row j
      = if Z.eqb (nth j (lookup_row self ct_id VJ chain1 chain1) 0%Z) 0
        then Num (nth j (lookup_row self ct_id VDJ chain1 chain1) 0%Z)
        else if Z.eqb (nth j (lookup_row self ct_id VDJ chain1 chain1) 0%Z) 0
             then Num (nth j (lookup_row self ct_id VJ chain1 chain1) 0%Z)
             else Num (Z.min (nth j (lookup_row self ct_id VJ chain1 chain1) 0%Z)
                             (nth j (lookup_row self ct_id VDJ chain1 chain1) 0%Z)).
Proof.
  intros _is_na adata cfg self ct_id j r v1 v2 Hinit Harms Hdual Hct
         Er Ev1 Ev2 Hv1 Hv2.
  pose proof (init_prepared _is_na adata cfg self Hinit) as Hprep.
  assert (Hcols : _receptor_arm_cols (config self) = [VJ; VDJ]).
  { unfold _receptor_arm_cols. now rewrite Harms. }
  destruct (both_arms_values self Hprep Hdual ct_id j Hct r v1 v2 Er Ev1 Ev2 Hv1 Hv2 Hcols)
    as [Hany [Hlt Hvals]].
  eexists. split; [now apply dist_for_clonotype_exact |].
  rewrite row_get_exact, Hlt, andb_true_r, Hany.
  unfold distance_value. cbv zeta. rewrite Hvals, Harms, or_column_pair.
  destruct (Z.eqb_spec (nth j (lookup_row self ct_id VJ chain1 chain1) 0%Z) 0) as [E1 | N1],
           (Z.eqb_spec (nth j (lookup_row self ct_id VDJ chain1 chain1) 0%Z) 0) as [E2 | N2];
    simpl; try reflexivity.
  now rewrite E2.
Qed.

Lemma all_arms_primary_max_witness :
  exists row,
    _dist_for_clonotype all_primary_engine 0 = Ok row /\
    row_get row 1
    = if Z.eqb (nth 1 (lookup_row all_primary_engine 0 VJ chain1 chain1) 0%Z) 0
         || Z.eqb (nth 1 (lookup_row all_primary_engine 0 VDJ chain1 chain1) 0%Z) 0
      then Num 0
      else Num (Z.max (nth 1 (lookup_row all_primary_engine 0 VJ chain1 chain1) 0%Z)
                      (nth 1 (lookup_row all_primary_engine 0 VDJ chain1 chain1) 0%Z)).
Proof.
  apply (all_arms_primary_max is_na_sentinel both_arms_adata primary_only_config
           all_primary_engine 0 1
           [("IR_VJ_1_junction_aa", EStr "CAAS"); ("IR_VDJ_1_junction_aa", EStr "CASS")]
           [("IR_VJ_1_junction_aa", EStr "CAVS"); ("IR_VDJ_1_junction_aa", EStr "CASS")]
           (EStr "CAAS") (EStr "CASS") (EStr "CAVS") (EStr "CASS"));
    vm_compute; reflexivity.
Defined.

Lemma any_arm_primary_min_witness :
  exists row,
    _dist_for_clonotype any_primary_engine 0 = Ok row /\
    row_get row 1
    = if Z.eqb (nth 1 (lookup_row any_primary_engine 0 VJ chain1 chain1) 0%Z) 0
      then Num (nth 1 (lookup_row any_primary_engine 0 VDJ chain1 chain1) 0%Z)
      else if Z.eqb (nth 1 (lookup_row any_primary_engine 0 VDJ chain1 chain1) 0%Z) 0
           then Num (nth 1 (lookup_row any_primary_engine 0 VJ chain1 chain1) 0%Z)
           else Num (Z.min (nth 1 (lookup_row any_primary_engine 0 VJ chain1 chain1) 0%Z)
                           (nth 1 (lookup_row any_primary_engine 0 VDJ chain1 chain1) 0%Z)).
Proof.
  apply (any_arm_primary_min is_na_sentinel both_arms_adata any_primary_config
           any_primary_engine 0 1
           [("IR_VJ_1_junction_aa", EStr "CAVS"); ("IR_VDJ_1_junction_aa", EStr "CASS")]
           (EStr "CAVS") (EStr "CASS")).
  - vm_compute. reflexivity.
  - reflexivity.
  - reflexivity.
  - vm_compute. repeat constructor.
  - vm_compute. reflexivity.
  - vm_compute. reflexivity.
  - vm_compute. reflexivity.
  - reflexivity.
  - reflexivity.
Defined.

(** * Order of the operands of the AND-reduce *)

Lemma count_nan_permutation (l l' : list fval) :
  Permutation l l' -> count_nan l = count_nan l'.
Proof.
  unfold count_nan. induction 1 as [| x l l' _ IH | x y l | l l' l'' _ IH1 _ IH2];
    simpl.
  - reflexivity.
  - destruct (isnan x); simpl; now rewrite IH.
  - destruct (isnan x), (isnan y); reflexivity.
  - congruence.
Qed.

Lemma nanmax_permutation (l l' : list fval) :
  Permutation l l' -> nanmax l = nanmax l'.
Proof.
  intros P. apply fold_same_set;
    auto using fmax_comm, fmax_assoc, fmax_idem, fmax_cases;
    try (intros a; now destruct a).
  intros x. split; apply Permutation_in; [assumption | now apply Permutation_sym].
Qed.

Lemma and_column_permutation (count : nat) (l l' : list fval) :
  Permutation l l' -> and_column count l = and_column count l'.
Proof.
  intros P. unfold and_column.
  rewrite (count_nan_permutation _ _ (Permutation_map zero_to_inf P)).
  now rewrite (nanmax_permutation _ _ (Permutation_map zero_to_inf P)).
Qed.

(** The AND-reduce does not depend on the order of its operands: permuted
    operands give the same result, or raise the same error. *)
Theorem reduce_and_operand_order :
  forall (clonotypes : DataFrame) (ct_id : nat) (cols : list string)
         (args args' : list (list fval)),
    Permutation args args' ->
    reduce_and clonotypes ct_id args' cols = reduce_and clonotypes ct_id args cols.
Proof.
  intros clonotypes ct_id cols args args' P. unfold reduce_and.
  destruct (chain_count clonotypes ct_id cols) as [count |]; simpl; [| reflexivity].
  assert (Hset : forall r, In r args <-> In r args').
  { intros r. split; apply Permutation_in; [assumption | now apply Permutation_sym]. }
  assert (Huni : uniform args <-> uniform args').
  { split; intros U a b Ha Hb; apply U; now apply Hset. }
  assert (Hnil : args = [] <-> args' = []).
  { split; intros ->.
    - now apply Permutation_nil in P.
    - apply Permutation_sym in P. now apply Permutation_nil in P. }
  destruct (vstack_cases args) as [[N E] | [[N [U E]] | [N [U E]]]];
    destruct (vstack_cases args') as [[N' E'] | [[N' [U' E']] | [N' [U' E']]]];
    rewrite E, E'; simpl; try reflexivity; try tauto.
  f_equal.
  assert (W : width args' = width args).
  { destruct args' as [| r' rest']; [congruence |]. simpl.
    apply uniform_width; [assumption |]. apply Hset. now left. }
  unfold columns. rewrite W, !map_map. apply map_ext. intros j.
  apply and_column_permutation. unfold column.
  apply Permutation_map. now apply Permutation_sym.
Qed.

Lemma reduce_and_operand_order_witness :
  reduce_and both_chains_table 0 [[Num 5; Num 3]; [Num 2; NaN]] vj_cols
  = reduce_and both_chains_table 0 [[Num 2; NaN]; [Num 5; Num 3]] vj_cols.
Proof.
  apply (reduce_and_operand_order both_chains_table 0 vj_cols
           [[Num 2; NaN]; [Num 5; Num 3]] [[Num 5; Num 3]; [Num 2; NaN]]).
  apply perm_swap.
Defined.

(** * When the constructor succeeds *)

Lemma fold_total {A S : Type} (step : S -> A -> result S)
  (P : S -> Prop) (Q : A -> S -> Prop) (l : list A) :
  (forall s x s' y, P s -> Q y s -> step s x = Ok s' -> Q y s') ->
  forall s0,
    (forall s x, In x l -> P s -> exists s', step s x = Ok s' /\ P s' /\ Q x s') ->
    P s0 ->
    exists s, fold_left (fun acc x => s <- acc ;; step s x) l (Ok s0) = Ok s /\
              P s /\ (forall x, In x l -> Q x s) /\
              (forall y, Q y s0 -> Q y s).
Proof.
  intros Hmono.
  induction l as [| x l IH]; intros s0 Hstep H0; simpl.
  - exists s0. split; [reflexivity |]. split; [assumption |].
    split; [intros ? [] | auto].
  - destruct (Hstep s0 x (or_introl eq_refl) H0) as [s1 [E1 [P1 Q1]]].
    rewrite E1.
    assert (Hstep' : forall s y, In y l -> P s ->
                       exists s', step s y = Ok s' /\ P s' /\ Q y s').
    { intros s y Hy. apply Hstep. now right. }
    destruct (IH s1 Hstep' P1) as [s [E [Ps [Qs Ks]]]].
    exists s. split; [exact E |]. split; [exact Ps |]. split.
    + intros y [<- | Hy]; [now apply Ks | now apply Qs].
    + intros y Hy. apply Ks. exact (Hmono s0 x s1 y H0 Hy E1).
Qed.

Lemma dict_find_set_kept {A : Type} (d : list (string * A)) (k k' : string)
  (v : A) :
  (exists w, dict_find d k = Ok w) ->
  exists w, dict_find (dict_set d k' v) k = Ok w.
Proof.
  intros [w E]. rewrite dict_find_set.
  destruct (String.eqb k' k); eauto.
Qed.

Lemma identity_matches (labels : list entry) :
  matches_labels (identity (List.length labels)) labels = true.
Proof.
  unfold matches_labels, identity. rewrite length_map, length_seq, Nat.eqb_refl.
  simpl. apply forallb_forall. intros r Hr. apply in_map_iff in Hr.
  destruct Hr as [i [<- _]]. rewrite length_map, length_seq. apply Nat.eqb_refl.
Qed.

Lemma add_distance_matrix_total (nf : DoubleLookupNeighborFinder)
  (name : string) (m : list (list Z)) (labels : list entry) :
  matches_labels m labels = true ->
  exists nf',
    add_distance_matrix nf name m labels = Ok nf' /\
    feature_table nf' = feature_table nf /\
    lookups nf' = lookups nf /\
    (exists dm, dict_find (distance_matrices nf') name = Ok dm) /\
    (forall k, (exists dm, dict_find (distance_matrices nf) k = Ok dm) ->
               exists dm, dict_find (distance_matrices nf') k = Ok dm).
Proof.
  intros H. unfold add_distance_matrix. unfold matches_labels in H. rewrite H.
  eexists. split; [reflexivity |]. simpl. split; [reflexivity |].
  split; [reflexivity |]. split.
  - rewrite dict_find_set, String.eqb_refl. eauto.
  - intros k Hk. now apply dict_find_set_kept.
Qed.

Lemma add_lookup_table_total (nf : DoubleLookupNeighborFinder)
  (k col m : string) :
  (exists dm, dict_find (distance_matrices nf) m = Ok dm) ->
  (exists vs, get_column (feature_table nf) col = Ok vs) ->
  exists nf',
    add_lookup_table nf k col m = Ok nf' /\
    feature_table nf' = feature_table nf /\
    distance_matrices nf' = distance_matrices nf.
Proof.
  intros [dm Em] [vs Ev]. unfold add_lookup_table. rewrite Em, Ev. simpl.
  eexists. split; [reflexivity |]. split; reflexivity.
Qed.

Lemma Forall2_combine_source {A B C : Type} (R1 : A -> B -> Prop)
  (R2 : A -> C -> Prop) (l : list A) (p : list B) (s : list C) (b : B) (c : C) :
  Forall2 R1 l p -> Forall2 R2 l s -> In (b, c) (combine p s) ->
  exists a, In a l /\ R1 a b /\ R2 a c.
Proof.
  intros H1. revert s. induction H1 as [| x y l p Hx _ IH]; intros s H2 Hin.
  - contradiction.
  - inversion H2 as [| ? z ? s' Hz H2']; subst. simpl in Hin.
    destruct Hin as [E | Hin].
    + injection E as <- <-. exists x. simpl. auto.
    + destruct (IH s' H2' Hin) as [a [Ha [Hb Hc]]]. exists a. simpl. auto.
Qed.

Lemma column_total (T : DataFrame) (col : string) :
  (forall r, In r T -> exists v, get_field r col = Ok v) ->
  exists vs, get_column T col = Ok vs.
Proof. intros H. unfold get_column. now apply mapM_total. Qed.

Section ValidInput.

Variable _is_na : string -> bool.
Variable cfg : Config.
Variable adata : AnnData.
Hypothesis Hcols : has_columns cfg adata.
Hypothesis Hgroup : valid_grouping cfg.

Lemma receptor_col_not_within_group (col : string) :
  In col (_cdr3_cols cfg ++ _v_gene_cols cfg) -> col <> "within_group".
Proof.
  intros H. apply in_app_or in H. destruct H as [H | H].
  - unfold _cdr3_cols in H. apply in_map_iff in H.
    destruct H as [[a c] [<- _]]. apply cdr3_col_not_within_group.
  - unfold _v_gene_cols in H. destruct (same_v_gene cfg); [| contradiction].
    apply in_map_iff in H. destruct H as [[a c] [<- _]].
    apply v_gene_col_not_within_group.
Qed.

Lemma receptor_col_listed (col : string) :
  In col (_cdr3_cols cfg ++ _v_gene_cols cfg) -> In col (clonotype_cols cfg).
Proof.
  intros H. unfold clonotype_cols. apply in_app_or in H.
  apply in_or_app. destruct H as [H | H]; [now left | right].
  apply in_or_app. now left.
Qed.

(** The folded table: every row carries the normalised receptor columns of
    a receptor-bearing cell and, when grouping, the tuple column. *)
Lemma folded_table_fields :
  exists T,
    match within_group cfg with
    | Some wg => mapM (fold_within_group wg)
                      (index_to_frame (clonotype_groupby _is_na cfg adata))
    | None => Ok (index_to_frame (clonotype_groupby _is_na cfg adata))
    end = Ok T /\
    forall r, In r T ->
      (exists c, In c (obs adata) /\ has_ir c = true /\
                 forall col, In col (_cdr3_cols cfg ++ _v_gene_cols cfg) ->
                   get_field r col = Ok (EStr (normalize _is_na (field c col)))) /\
      (within_group cfg <> None ->
       exists t, get_field r "within_group" = Ok (ETuple t)).
Proof.
  destruct Hgroup as [NDc _].
  destruct (within_group cfg) as [wg |] eqn:Ewg.
  - assert (ND : NoDup wg).
    { unfold clonotype_cols in NDc. rewrite Ewg in NDc.
      now apply NoDup_app_remove_l, NoDup_app_remove_l in NDc. }
    assert (Hdis : forall col, In col wg ->
                               ~ In col (_cdr3_cols cfg ++ _v_gene_cols cfg)).
    { intros col Hw Hin. unfold clonotype_cols in NDc.
      rewrite Ewg, app_assoc in NDc.
      exact (NoDup_app_disjoint _ _ col NDc Hin Hw). }
    assert (Hstep : forall c,
               exists r', fold_within_group wg (filtered_row _is_na cfg c) = Ok r' /\
                 (forall col, In col (_cdr3_cols cfg ++ _v_gene_cols cfg) ->
                    get_field r' col = Ok (EStr (normalize _is_na (field c col)))) /\
                 exists t, get_field r' "within_group" = Ok (ETuple t)).
    { intros c.
      destruct (fold_within_group_total wg (filtered_row _is_na cfg c) ND)
        as [r' [E Hr']].
      - intros col Hcol. rewrite filtered_row_field; [eauto |].
        unfold clonotype_cols. rewrite Ewg. apply in_or_app. right.
        apply in_or_app. now right.
      - exists r'. split; [exact E |]. split.
        + intros col Hcol. rewrite Hr'.
          * apply filtered_row_field. now apply receptor_col_listed.
          * intros Hin. now apply (Hdis col Hin).
          * now apply receptor_col_not_within_group.
        + destruct (fold_within_group_inv _ _ _ E) as [t [_ [W _]]]. eauto. }
    destruct (mapM_total (fold_within_group wg)
                (index_to_frame (clonotype_groupby _is_na cfg adata))) as [T E].
    { intros r Hr. apply grouped_rows in Hr. destruct Hr as [c [_ [_ ->]]].
      destruct (Hstep c) as [r' [Er _]]. eauto. }
    exists T. split; [exact E |].
    intros r Hr. destruct (mapM_In _ _ _ _ E Hr) as [r0 [Hr0 Er]].
    apply grouped_rows in Hr0. destruct Hr0 as [c [Hc [Hir ->]]].
    destruct (Hstep c) as [r' [Er' [Hf Hw]]]. rewrite Er' in Er.
    injection Er as <-. split; [exists c; auto | auto].
  - eexists. split; [reflexivity |].
    intros r Hr. apply grouped_rows in Hr. destruct Hr as [c [Hc [Hir ->]]].
    split; [| congruence].
    exists c. split; [assumption |]. split; [assumption |].
    intros col Hcol. apply filtered_row_field. now apply receptor_col_listed.
Qed.

Lemma cdr3_col_receptor (a : arm) (c : chain) :
  In a (_receptor_arm_cols cfg) -> In c (_dual_ir_cols cfg) ->
  In (cdr3_col cfg a c) (_cdr3_cols cfg ++ _v_gene_cols cfg).
Proof.
  intros Ha Hc. apply in_or_app. left. unfold _cdr3_cols.
  apply in_map_iff. exists (a, c). split; [reflexivity | now apply in_product].
Qed.

Lemma consistency_check_passes (T : DataFrame) (arms : list arm) :
  dual_ir cfg <> primary_only ->
  no_orphan_chain _is_na cfg adata ->
  (forall r, In r T ->
     exists c, In c (obs adata) /\ has_ir c = true /\
               forall col, In col (_cdr3_cols cfg ++ _v_gene_cols cfg) ->
                 get_field r col = Ok (EStr (normalize _is_na (field c col)))) ->
  (forall a, In a arms -> In a (_receptor_arm_cols cfg)) ->
  consistency_check cfg T arms = Ok tt.
Proof.
  intros Hdual Horph Hrows.
  pose proof (chain1_considered cfg) as C1.
  pose proof (chain2_considered cfg Hdual) as C2.
  induction arms as [| a arms IH]; intros Hsub; [reflexivity |].
  simpl.
  assert (Ha : In a (_receptor_arm_cols cfg)) by (apply Hsub; now left).
  destruct (column_total T (cdr3_col cfg a chain1)) as [p Ep].
  { intros r Hr. destruct (Hrows r Hr) as [c [_ [_ H]]].
    rewrite H by now apply cdr3_col_receptor. eauto. }
  destruct (column_total T (cdr3_col cfg a chain2)) as [s Es].
  { intros r Hr. destruct (Hrows r Hr) as [c [_ [_ H]]].
    rewrite H by now apply cdr3_col_receptor. eauto. }
  rewrite Ep, Es. cbn [bind].
  destruct (existsb (fun ps => is_nan_str (fst ps) && negb (is_nan_str (snd ps)))
                    (combine p s)) eqn:Ex.
  - exfalso. apply existsb_exists in Ex. destruct Ex as [[v1 v2] [Hin Hb]].
    destruct (Forall2_combine_source _ _ T p s v1 v2
                (get_column_Forall2 _ _ _ Ep) (get_column_Forall2 _ _ _ Es) Hin)
      as [r [Hr [E1 E2]]].
    destruct (Hrows r Hr) as [c [Hc [Hir H]]].
    rewrite H in E1 by now apply cdr3_col_receptor.
    rewrite H in E2 by now apply cdr3_col_receptor.
    injection E1 as <-. injection E2 as <-. simpl in Hb.
    apply andb_prop in Hb. destruct Hb as [B1 B2].
    apply String.eqb_eq in B1.
    rewrite (Horph c a Hc Hir Ha B1) in B2. discriminate.
  - apply IH. intros a' Ha'. apply Hsub. now right.
Qed.

Lemma make_clonotype_table_total :
  NoDup (map obs_name (obs adata)) ->
  (exists c, In c (obs adata) /\ has_ir c = true) ->
  (dual_ir cfg <> primary_only -> no_orphan_chain _is_na cfg adata) ->
  exists tbl,
    _make_clonotype_table _is_na cfg adata = Ok tbl /\
    forall r, In r (fst tbl) ->
      (forall col, In col (_cdr3_cols cfg ++ _v_gene_cols cfg) ->
                   exists v, get_field r col = Ok v) /\
      (within_group cfg <> None ->
       exists t, get_field r "within_group" = Ok (ETuple t)).
Proof.
  intros ND [c [Hc Hir]] Horph.
  destruct folded_table_fields as [T [ET HT]].
  rewrite (make_clonotype_table_valid _is_na cfg adata
             (proj2 (is_unique_NoDup _) ND) Hcols Hgroup).
  destruct (Nat.eqb_spec
              (List.length (index_to_frame (clonotype_groupby _is_na cfg adata))) 0)
    as [Z | _].
  { exfalso. apply (proj1 (grouped_empty_iff _is_na cfg adata)) with (c := c) in Z;
      [congruence | assumption]. }
  rewrite ET. cbn [bind].
  assert (EC : (if existsb (chain_eqb chain2) (_dual_ir_cols cfg)
                then consistency_check cfg T (_receptor_arm_cols cfg)
                else Ok tt) = Ok tt).
  { destruct (existsb (chain_eqb chain2) (_dual_ir_cols cfg)) eqn:E2; [| reflexivity].
    assert (Hd : dual_ir cfg <> primary_only).
    { intros Hd. unfold _dual_ir_cols in E2. rewrite Hd in E2. discriminate. }
    apply consistency_check_passes; auto.
    intros r Hr. apply (HT r Hr). }
  rewrite EC. cbn [bind]. eexists. split; [reflexivity |].
  simpl. intros r Hr. destruct (HT r Hr) as [[c' [_ [_ Hf]]] Hw].
  split; [| exact Hw]. intros col Hcol. rewrite (Hf col Hcol). eauto.
Qed.

End ValidInput.

Lemma add_distance_matrix_kept (nf nf' : DoubleLookupNeighborFinder)
  (name : string) (m : list (list Z)) (labels : list entry) (k : string) :
  add_distance_matrix nf name m labels = Ok nf' ->
  (exists dm, dict_find (distance_matrices nf) k = Ok dm) ->
  exists dm, dict_find (distance_matrices nf') k = Ok dm.
Proof.
  unfold add_distance_matrix. destruct (_ && _); [| discriminate].
  intros E. injection E as <-. simpl. apply dict_find_set_kept.
Qed.

(** The values of the listed columns, column after column. *)
Lemma unique_values_eq (df_columns : list string) (df : list cell)
  (columns : list string) :
  (forall col, In col columns -> In col df_columns) ->
  _unique_values_in_multiple_columns df_columns df columns
  = match columns with
    | [] => Raise (ValueError "need at least one array to concatenate")
    | _ => np_unique (flat_map (fun c => map (fun x => entry_of_value (field x c)) df)
                               columns)
    end.
Proof.
  intros Hall. unfold _unique_values_in_multiple_columns.
  rewrite (mapM_exact _ (fun c => map (fun x => entry_of_value (field x c)) df)).
  - cbn [bind]. rewrite flat_map_concat_map.
    destruct columns; reflexivity.
  - intros c Hc. now rewrite (proj2 (has_column_In _ _) (Hall c Hc)).
Qed.

Lemma comparable_strings (l : list entry) :
  (forall e, In e l -> exists s, e = EStr s) -> comparable l = true.
Proof.
  intros H. unfold comparable.
  replace (forallb is_str l) with true; [reflexivity |].
  symmetry. apply forallb_forall. intros e He.
  destruct (H e He) as [s ->]. reflexivity.
Qed.

Lemma comparable_tuples (l : list entry) :
  (forall e, In e l -> exists t, e = ETuple t) -> comparable l = true.
Proof.
  intros H. unfold comparable.
  replace (forallb is_tuple l) with true; [now rewrite orb_true_r |].
  symmetry. apply forallb_forall. intros e He.
  destruct (H e He) as [t ->]. reflexivity.
Qed.

Lemma v_gene_cols_not_empty (cfg : Config) :
  same_v_gene cfg = true -> _v_gene_cols cfg <> [].
Proof.
  unfold _v_gene_cols, _receptor_arm_cols, _dual_ir_cols. intros ->.
  destruct (receptor_arms cfg), (dual_ir cfg); discriminate.
Qed.

Lemma unique_v_genes_total (cfg : Config) (adata : AnnData) :
  same_v_gene cfg = true ->
  (forall col, In col (_v_gene_cols cfg) -> In col (obs_columns adata)) ->
  v_genes_recorded cfg adata ->
  exists v_genes,
    _unique_values_in_multiple_columns (obs_columns adata) (obs adata)
      (_v_gene_cols cfg) = Ok v_genes.
Proof.
  intros Hs Hall Hrec. rewrite unique_values_eq by exact Hall.
  pose proof (v_gene_cols_not_empty cfg Hs) as Hne.
  destruct (_v_gene_cols cfg) as [| col cols] eqn:Ev; [congruence |].
  unfold np_unique. rewrite comparable_strings; [eauto |].
  intros e He. apply in_flat_map in He. destruct He as [c [Hc He]].
  apply in_map_iff in He. destruct He as [x [<- Hx]].
  assert (Hc' : In c (_v_gene_cols cfg)) by (rewrite Ev; exact Hc).
  destruct (Hrec x c Hx Hc') as [s0 ->]. simpl. eauto.
Qed.

Lemma add_distance_matrices_total (cfg : Config) (dd : list (string * SeqDist))
  (T : DataFrame) (adata : AnnData) (nf : DoubleLookupNeighborFinder) :
  (forall a, In a (_receptor_arm_cols cfg) ->
     exists d, dict_find dd (arm_name a) = Ok d /\
               matches_labels (distances d) (seqs d) = true) ->
  (forall col, In col (_v_gene_cols cfg) -> In col (obs_columns adata)) ->
  v_genes_recorded cfg adata ->
  (within_group cfg <> None ->
   forall r, In r T -> exists t, get_field r "within_group" = Ok (ETuple t)) ->
  exists nf',
    _add_distance_matrices cfg dd T adata nf = Ok nf' /\
    feature_table nf' = feature_table nf /\
    (forall a, In a (_receptor_arm_cols cfg) ->
       exists dm, dict_find (distance_matrices nf') (arm_name a) = Ok dm) /\
    (same_v_gene cfg = true ->
       exists dm, dict_find (distance_matrices nf') "v_gene" = Ok dm) /\
    (within_group cfg <> None ->
       exists dm, dict_find (distance_matrices nf') "within_group" = Ok dm).
Proof.
  intros Hdd Hvcols Hrec Hwg.
  set (step := fun (s : DoubleLookupNeighborFinder) (chain_type : arm) =>
                 d <- dict_find dd (arm_name chain_type) ;;
                 add_distance_matrix s (arm_name chain_type) (distances d) (seqs d)).
  destruct (fold_total step
              (fun s => feature_table s = feature_table nf)
              (fun a s => exists dm,
                   dict_find (distance_matrices s) (arm_name a) = Ok dm)
              (_receptor_arm_cols cfg)) with (s0 := nf)
    as [nf1 [E1 [F1 [Q1 _]]]].
  { intros s x s' y _ Hy Es. unfold step in Es.
    destruct (dict_find dd (arm_name x)); simpl in Es; [| discriminate].
    eapply add_distance_matrix_kept; eauto. }
  { intros s a Ha Ps. destruct (Hdd a Ha) as [d [Ed Hd]].
    destruct (add_distance_matrix_total s (arm_name a) _ _ Hd)
      as [s' [Es [Fs [_ [Qs _]]]]].
    exists s'. unfold step. rewrite Ed. simpl. split; [exact Es |].
    split; [congruence | exact Qs]. }
  { reflexivity. }
  assert (E1' : fold_left (fun acc chain_type =>
                             nf <- acc ;;
                             d <- dict_find dd (arm_name chain_type) ;;
                             add_distance_matrix nf (arm_name chain_type)
                               (distances d) (seqs d))
                          (_receptor_arm_cols cfg) (Ok nf) = Ok nf1) by exact E1.
  unfold _add_distance_matrices. rewrite E1'. cbn [bind].
  assert (Hv : exists nf2,
             (if same_v_gene cfg
              then
                v_genes <- _unique_values_in_multiple_columns
                             (obs_columns adata) (obs adata) (_v_gene_cols cfg) ;;
                add_distance_matrix nf1 "v_gene"
                  (identity (List.length v_genes)) v_genes
              else Ok nf1) = Ok nf2 /\
             feature_table nf2 = feature_table nf /\
             (forall k, (exists dm, dict_find (distance_matrices nf1) k = Ok dm) ->
                        exists dm, dict_find (distance_matrices nf2) k = Ok dm) /\
             (same_v_gene cfg = true ->
              exists dm, dict_find (distance_matrices nf2) "v_gene" = Ok dm)).
  { destruct (same_v_gene cfg) eqn:Esv.
    - destruct (unique_v_genes_total cfg adata Esv Hvcols Hrec) as [v_genes Ev].
      rewrite Ev. cbn [bind].
      destruct (add_distance_matrix_total nf1 "v_gene" _ _
                  (identity_matches v_genes))
        as [nf2 [E2 [F2 [_ [Q2 K2]]]]].
      exists nf2. split; [exact E2 |]. split; [congruence |]. split; auto.
    - exists nf1. split; [reflexivity |]. split; [exact F1 |].
      split; [auto | discriminate]. }
  destruct Hv as [nf2 [E2 [F2 [K2 Q2]]]]. rewrite E2. cbn [bind].
  destruct (within_group cfg) as [wg |] eqn:Ewg.
  - destruct (column_total T "within_group") as [col Ecol].
    { intros r Hr. destruct (Hwg ltac:(discriminate) r Hr) as [t Et]. eauto. }
    rewrite Ecol. cbn [bind].
    assert (Hcmp : comparable col = true).
    { apply comparable_tuples. intros e He.
      destruct (mapM_In _ _ _ _ Ecol He) as [r [Hr Er]].
      destruct (Hwg ltac:(discriminate) r Hr) as [t Et]. exists t. congruence. }
    unfold np_unique. rewrite Hcmp. cbn [bind].
    destruct (add_distance_matrix_total nf2 "within_group" _ _
                (identity_matches (sort_unique col)))
      as [nf3 [E3 [F3 [_ [Q3 K3]]]]].
    exists nf3. split; [exact E3 |]. split; [congruence |].
    split; [intros a Ha; apply K3, K2, Q1; exact Ha |].
    split; [intros Hs; apply K3, Q2; exact Hs | intros _; exact Q3].
  - exists nf2. split; [reflexivity |]. split; [exact F2 |].
    split; [intros a Ha; apply K2, Q1; exact Ha |].
    split; [exact Q2 | congruence].
Qed.

Lemma lookup_fold_steps (cfg : Config) (l : list (arm * chain))
  (r0 : result DoubleLookupNeighborFinder) :
  fold_left (fun acc ai =>
               match ai with
               | (a, i) =>
                   nf <- acc ;;
                   nf <- add_lookup_table nf (table_name a i)
                           (cdr3_col cfg a i) (arm_name a) ;;
                   if same_v_gene cfg
                   then add_lookup_table nf (table_name a i ++ "_v_gene")%string
                          (v_gene_col a i) "v_gene"
                   else Ok nf
               end) l r0
  = fold_left (fun acc x =>
                 s <- acc ;;
                 (fun (s : DoubleLookupNeighborFinder) (ai : arm * chain) =>
                    nf1 <- add_lookup_table s (table_name (fst ai) (snd ai))
                             (cdr3_col cfg (fst ai) (snd ai)) (arm_name (fst ai)) ;;
                    if same_v_gene cfg
                    then add_lookup_table nf1
                           (table_name (fst ai) (snd ai) ++ "_v_gene")%string
                           (v_gene_col (fst ai) (snd ai)) "v_gene"
                    else Ok nf1) s x) l r0.
Proof.
  revert r0. induction l as [| [a i] l IH]; intros r0; simpl;
    [reflexivity | apply IH].
Qed.

Lemma add_lookup_tables_total (cfg : Config) (nf : DoubleLookupNeighborFinder) :
  (forall a, In a (_receptor_arm_cols cfg) ->
     exists dm, dict_find (distance_matrices nf) (arm_name a) = Ok dm) ->
  (same_v_gene cfg = true ->
     exists dm, dict_find (distance_matrices nf) "v_gene" = Ok dm) ->
  (within_group cfg <> None ->
     exists dm, dict_find (distance_matrices nf) "within_group" = Ok dm) ->
  (forall r col, In r (feature_table nf) ->
     In col (_cdr3_cols cfg ++ _v_gene_cols cfg) ->
     exists v, get_field r col = Ok v) ->
  (within_group cfg <> None ->
   forall r, In r (feature_table nf) -> exists v, get_field r "within_group" = Ok v) ->
  exists nf', _add_lookup_tables cfg nf = Ok nf'.
Proof.
  intros Harm Hv Hw Hcols Hwcol.
  set (step := fun (s : DoubleLookupNeighborFinder) (ai : arm * chain) =>
                 nf1 <- add_lookup_table s (table_name (fst ai) (snd ai))
                          (cdr3_col cfg (fst ai) (snd ai)) (arm_name (fst ai)) ;;
                 if same_v_gene cfg
                 then add_lookup_table nf1
                        (table_name (fst ai) (snd ai) ++ "_v_gene")%string
                        (v_gene_col (fst ai) (snd ai)) "v_gene"
                 else Ok nf1).
  destruct (fold_total step
              (fun s => feature_table s = feature_table nf /\
                        distance_matrices s = distance_matrices nf)
              (fun _ _ => True)
              (product (_receptor_arm_cols cfg) (_dual_ir_cols cfg))) with (s0 := nf)
    as [nf1 [E1 [[F1 D1] _]]].
  { auto. }
  { intros s [a i] Hai [Fs Ds]. apply in_product in Hai. destruct Hai as [Ha Hi].
    unfold step. cbn [fst snd].
    destruct (add_lookup_table_total s (table_name a i) (cdr3_col cfg a i) (arm_name a))
      as [s1 [Es1 [Fs1 Ds1]]].
    { rewrite Ds. now apply Harm. }
    { rewrite Fs. apply column_total. intros r Hr. apply (Hcols r); [assumption |].
      apply in_or_app. left. unfold _cdr3_cols. apply in_map_iff.
      exists (a, i). split; [reflexivity | now apply in_product]. }
    rewrite Es1. cbn [bind].
    destruct (same_v_gene cfg) eqn:Esv.
    - destruct (add_lookup_table_total s1 (table_name a i ++ "_v_gene")%string
                  (v_gene_col a i) "v_gene") as [s2 [Es2 [Fs2 Ds2]]].
      { rewrite Ds1, Ds. now apply Hv. }
      { rewrite Fs1, Fs. apply column_total. intros r Hr. apply (Hcols r); [assumption |].
        apply in_or_app. right. unfold _v_gene_cols. rewrite Esv. apply in_map_iff.
        exists (a, i). split; [reflexivity | now apply in_product]. }
      exists s2. split; [exact Es2 |]. split; [split; congruence | exact I].
    - exists s1. split; [reflexivity |]. split; [split; congruence | exact I]. }
  { split; reflexivity. }
  unfold _add_lookup_tables. rewrite lookup_fold_steps.
  assert (E1' : fold_left
                  (fun acc x =>
                     s <- acc ;;
                     (fun (s : DoubleLookupNeighborFinder) (ai : arm * chain) =>
                        nf1 <- add_lookup_table s (table_name (fst ai) (snd ai))
                                 (cdr3_col cfg (fst ai) (snd ai)) (arm_name (fst ai)) ;;
                        if same_v_gene cfg
                        then add_lookup_table nf1
                               (table_name (fst ai) (snd ai) ++ "_v_gene")%string
                               (v_gene_col (fst ai) (snd ai)) "v_gene"
                        else Ok nf1) s x)
                  (product (_receptor_arm_cols cfg) (_dual_ir_cols cfg)) (Ok nf)
                = Ok nf1) by exact E1.
  rewrite E1'. cbn [bind].
  destruct (within_group cfg) as [wg |] eqn:Ewg; [| eauto].
  destruct (add_lookup_table_total nf1 "within_group" "within_group" "within_group")
    as [nf2 [E2 _]].
  - rewrite D1. apply Hw. discriminate.
  - rewrite F1. apply column_total. apply Hwcol. discriminate.
  - eauto.
Qed.

(** On valid input the constructor returns an engine, and its distances can
    be computed: the distance bundle is stored under the distance key and
    holds, for every arm under consideration, a matrix that is square over
    its label array; the cell identifiers are unique; the frame has the
    column [has_ir] and every column of the table; the columns of the table
    are pairwise distinct and a list of grouping columns, when given, is not
    empty; every cell records a v gene in each v-gene column under
    consideration; some cell is receptor-bearing; and, unless only primary
    chains are read, no receptor-bearing cell has a secondary sequence
    without a primary one. *)
Theorem constructor_succeeds :
  forall (_is_na : string -> bool) (adata : AnnData) (cfg : Config)
         (dd : list (string * SeqDist)),
    dict_find (uns adata) (distance_key cfg) = Ok dd ->
    (forall a, In a (_receptor_arm_cols cfg) ->
       exists d, dict_find dd (arm_name a) = Ok d /\
                 matches_labels (distances d) (seqs d) = true) ->
    NoDup (map obs_name (obs adata)) ->
    has_columns cfg adata ->
    valid_grouping cfg ->
    v_genes_recorded cfg adata ->
    (exists c, In c (obs adata) /\ has_ir c = true) ->
    (dual_ir cfg <> primary_only -> no_orphan_chain _is_na cfg adata) ->
    exists self dist,
      __init__ _is_na adata cfg = Ok self /\
      compute_distances self = Ok dist.
Proof.
  intros _is_na adata cfg dd Edd Hdd ND Hcols Hgroup Hrec Hir Horph.
  destruct (make_clonotype_table_total _is_na cfg adata Hcols Hgroup ND Hir Horph)
    as [tbl [Et Hrows]].
  destruct (add_distance_matrices_total cfg dd (fst tbl) adata
              (new_neighbor_finder (fst tbl)) Hdd)
    as [nf1 [E1 [F1 [Qa [Qv Qw]]]]].
  { intros col Hcol. apply (proj2 Hcols). unfold clonotype_cols.
    apply in_or_app. right. apply in_or_app. now left. }
  { exact Hrec. }
  { intros Hw r Hr. now apply (Hrows r Hr). }
  simpl in F1.
  destruct (add_lookup_tables_total cfg nf1 Qa Qv Qw) as [nf2 E2].
  { rewrite F1. intros r col Hr Hcol. now apply (Hrows r Hr). }
  { rewrite F1. intros Hw r Hr.
    destruct (proj2 (Hrows r Hr) Hw) as [t Et']. eauto. }
  assert (Einit : __init__ _is_na adata cfg
                  = Ok {| config := cfg;
                          distance_dict := dd;
                          neighbor_finder := nf2;
                          clonotypes := fst tbl;
                          cell_indices := snd tbl |}).
  { unfold __init__, _prepare. rewrite Edd. cbn [bind]. rewrite Et. cbn [bind].
    rewrite E1. cbn [bind]. rewrite E2. reflexivity. }
  eexists. 
  destruct (prepared_distances_stack _ (init_prepared _ _ _ _ Einit)) as [dist [Ed _]].
  exists dist. split; [exact Einit | exact Ed].
Qed.

Lemma constructor_succeeds_witness :
  exists self dist,
    __init__ is_na_sentinel paired_adata paired_config = Ok self /\
    compute_distances self = Ok dist.
Proof.
  apply (constructor_succeeds is_na_sentinel paired_adata paired_config
           [("VJ", {| distances := [[1%Z; 2%Z]; [2%Z; 1%Z]];
                      seqs := [EStr "CAAS"; EStr "CAVS"] |});
            ("VDJ", {| distances := [[1%Z; 0%Z]; [0%Z; 1%Z]];
                       seqs := [EStr "CASS"; EStr "CASR"] |})]).
  - reflexivity.
  - intros a [<- | [<- | []]]; eexists; split; reflexivity.
  - apply is_unique_NoDup. reflexivity.
  - split; [| intros col Hcol]; apply has_column_In;
      [reflexivity | revert col Hcol; apply forallb_forall; reflexivity].
  - split; [apply is_unique_NoDup; reflexivity | discriminate].
  - intros c col _ [].
  - eexists. split; [left; reflexivity | reflexivity].
  - intros _ c a [<- | [<- | [<- | []]]] _ [<- | [<- | []]];
      vm_compute; intros H; try reflexivity; discriminate H.
Defined.

Lemma fold_ok_steps {A S : Type} (step : S -> A -> result S) (l : list A)
  (s0 s : S) :
  fold_left (fun acc x => s <- acc ;; step s x) l (Ok s0) = Ok s ->
  forall x, In x l -> exists s1 s2, step s1 x = Ok s2.
Proof.
  revert s0. induction l as [| y l IH]; intros s0 E x Hx; [contradiction |].
  simpl in E. destruct (step s0 y) as [s1 |] eqn:E1.
  - destruct Hx as [<- | Hx]; [eauto | eapply IH; eauto].
  - rewrite fold_raise in E. discriminate.
Qed.

(** What a successful construction implies about its input: the distance
    bundle is stored under the distance key and holds, for every arm under
    consideration, a matrix that is square over its label array; the cell
    identifiers are unique; and some cell is receptor-bearing. *)
Theorem constructor_requirements :
  forall (_is_na : string -> bool) (adata : AnnData) (cfg : Config)
         (self : ClonotypeNeighbors),
    __init__ _is_na adata cfg = Ok self ->
    (exists dd,
        dict_find (uns adata) (distance_key cfg) = Ok dd /\
        distance_dict self = dd /\
        forall a, In a (_receptor_arm_cols cfg) ->
          exists d, dict_find dd (arm_name a) = Ok d /\
                    matches_labels (distances d) (seqs d) = true) /\
    NoDup (map obs_name (obs adata)) /\
    (exists c, In c (obs adata) /\ has_ir c = true).
Proof.
  intros _is_na adata cfg self. unfold __init__, _prepare.
  destruct (dict_find (uns adata) (distance_key cfg)) as [dd |]; simpl; [| discriminate].
  destruct (_make_clonotype_table _is_na cfg adata) as [tbl |] eqn:Et;
    simpl; [| discriminate].
  destruct (_add_distance_matrices cfg dd (fst tbl) adata (new_neighbor_finder (fst tbl)))
    as [nf1 |] eqn:E1; simpl; [| discriminate].
  destruct (_add_lookup_tables cfg nf1) as [nf2 |]; simpl; [| discriminate].
  intros E. injection E as <-. simpl.
  destruct (make_clonotype_table_inv _is_na cfg adata tbl Et) as [U [NE _]].
  split; [| split].
  - exists dd. split; [reflexivity |]. split; [reflexivity |].
    intros a Ha. unfold _add_distance_matrices in E1.
    destruct (fold_left _ (_receptor_arm_cols cfg) (Ok (new_neighbor_finder (fst tbl))))
      as [nf0 |] eqn:E0; [| discriminate].
    destruct (fold_ok_steps
                (fun s chain_type =>
                   d <- dict_find dd (arm_name chain_type) ;;
                   add_distance_matrix s (arm_name chain_type) (distances d) (seqs d))
                _ _ _ E0 a Ha) as [s1 [s2 Es]].
    simpl in Es. destruct (dict_find dd (arm_name a)) as [d |]; [| discriminate].
    exists d. split; [reflexivity |]. simpl in Es.
    unfold add_distance_matrix in Es. unfold matches_labels.
    destruct (_ && _); [reflexivity | discriminate].
  - now apply is_unique_NoDup.
  - destruct (index_to_frame (clonotype_groupby _is_na cfg adata)) as [| r l] eqn:Ef;
      [congruence |].
    assert (Hin : In r (index_to_frame (clonotype_groupby _is_na cfg adata))).
    { rewrite Ef. now left. }
    apply grouped_rows in Hin. destruct Hin as [c [Hc [Hir _]]]. eauto.
Qed.

Lemma constructor_requirements_witness :
  (exists dd,
      dict_find (uns paired_adata) (distance_key paired_config) = Ok dd /\
      distance_dict paired_engine = dd /\
      forall a, In a (_receptor_arm_cols paired_config) ->
        exists d, dict_find dd (arm_name a) = Ok d /\
                  matches_labels (distances d) (seqs d) = true) /\
  NoDup (map obs_name (obs paired_adata)) /\
  (exists c, In c (obs paired_adata) /\ has_ir c = true).
Proof.
  apply (constructor_requirements is_na_sentinel paired_adata paired_config
           paired_engine).
  vm_compute. reflexivity.
Defined.

(** * The label array of the v-gene matrix *)

Lemma entry_eqb_eq (a b : entry) : entry_eqb a b = true <-> a = b.
Proof. unfold entry_eqb. destruct (entry_eq_dec a b); split; congruence. Qed.

Lemma insert_unique_In (x y : entry) (l : list entry) :
  In y (insert_unique x l) <-> y = x \/ In y l.
Proof.
  induction l as [| z l IH]; simpl.
  - split; [intros [<- | []]; auto | intros [-> | []]; auto].
  - destruct (entry_eqb x z) eqn:E.
    + apply entry_eqb_eq in E. subst z. simpl. split; [auto |].
      intros [-> | H]; auto.
    + destruct (entry_leb x z); simpl.
      * split; [intros [<- | H]; auto | intros [-> | H]; auto].
      * rewrite IH. split.
        -- intros [H | [H | H]]; auto.
        -- intros [H | [H | H]]; auto.
Qed.

Lemma sort_unique_In (y : entry) (l : list entry) : In y (sort_unique l) <-> In y l.
Proof.
  unfold sort_unique. induction l as [| x l IH]; simpl; [tauto |].
  rewrite insert_unique_In, IH. split; intros [H | H]; auto.
Qed.

Lemma forallb_false_In {A : Type} (P : A -> bool) (l : list A) (x : A) :
  In x l -> P x = false -> forallb P l = false.
Proof.
  intros Hx Hp. destruct (forallb P l) eqn:E; [| reflexivity].
  rewrite (proj1 (forallb_forall P l) E x Hx) in Hp. discriminate.
Qed.

Lemma column_values_In (df : list cell) (columns : list string) (v : entry) :
  In v (flat_map (fun c => map (fun x => entry_of_value (field x c)) df) columns)
  <-> exists col c, In col columns /\ In c df /\
                    v = entry_of_value (field c col).
Proof.
  rewrite in_flat_map. split.
  - intros [col [Hcol Hv]]. apply in_map_iff in Hv. destruct Hv as [c [<- Hc]].
    exists col, c. auto.
  - intros [col [c [Hcol [Hc ->]]]]. exists col. split; [assumption |].
    apply in_map_iff. exists c. auto.
Qed.

(** The unique values over several columns.  A listed column that the
    frame does not have raises [KeyError]; otherwise an empty column list
    raises [ValueError]; otherwise a string together with a missing value
    among the values raises [TypeError]; and otherwise (the values are all
    strings, or all missing) the result holds exactly the values found in
    the listed columns of the frame. *)
Theorem unique_values_are_the_column_values :
  forall (df_columns : list string) (df : list cell) (columns : list string),
    ((exists col, In col columns /\ ~ In col df_columns) ->
     exists k, In k columns /\ ~ In k df_columns /\
               _unique_values_in_multiple_columns df_columns df columns
               = Raise (KeyError k)) /\
    ((forall col, In col columns -> In col df_columns) ->
     (columns = [] ->
      _unique_values_in_multiple_columns df_columns df columns
      = Raise (ValueError "need at least one array to concatenate")) /\
     (columns <> [] ->
      (exists col c s, In col columns /\ In c df /\ field c col = VStr s) ->
      (exists col c, In col columns /\ In c df /\ field c col = VNaN) ->
      _unique_values_in_multiple_columns df_columns df columns
      = Raise (TypeError "'<' not supported between instances of 'float' and 'str'")) /\
     (columns <> [] ->
      (forall col c, In col columns -> In c df -> exists s, field c col = VStr s) \/
      (forall col c, In col columns -> In c df -> field c col = VNaN) ->
      exists l,
        _unique_values_in_multiple_columns df_columns df columns = Ok l /\
        forall v, In v l <-> exists col c, In col columns /\ In c df /\
                                           v = entry_of_value (field c col))).
Proof.
  intros df_columns df columns. split.
  - unfold _unique_values_in_multiple_columns.
    induction columns as [| c columns IH]; intros [col [Hcol Habs]];
      [contradiction |].
    cbn [mapM]. destruct (has_column df_columns c) eqn:Hc.
    + destruct Hcol as [-> | Hcol].
      { apply has_column_In in Hc. contradiction. }
      destruct IH as [k [Hk [Hnk Ek]]]; [eauto |].
      exists k. split; [now right |]. split; [exact Hnk |].
      destruct (mapM _ columns) as [arrays | e]; cbn [bind] in *.
      * exfalso. destruct arrays; [discriminate Ek |].
        unfold np_unique in Ek. destruct (comparable _); discriminate Ek.
      * exact Ek.
    + exists c. split; [now left |]. split; [| reflexivity].
      intros Hin. apply has_column_In in Hin. congruence.
  - intros Hall. rewrite unique_values_eq by exact Hall.
    split; [intros ->; reflexivity |]. split.
    + intros Hne [col [c [s [Hcol [Hc Es]]]]] [col' [c' [Hcol' [Hc' En]]]].
      destruct columns as [| c0 columns]; [congruence |].
      unfold np_unique, comparable.
      rewrite (forallb_false_In is_str _ ENaN);
        [| apply column_values_In; exists col', c'; rewrite En; auto | reflexivity].
      rewrite (forallb_false_In is_tuple _ ENaN);
        [| apply column_values_In; exists col', c'; rewrite En; auto | reflexivity].
      rewrite (forallb_false_In is_missing _ (EStr s));
        [| apply column_values_In; exists col, c; rewrite Es; auto | reflexivity].
      reflexivity.
    + intros Hne Hkind.
      assert (Hcmp : comparable
                       (flat_map (fun c => map (fun x => entry_of_value (field x c)) df)
                                 columns) = true).
      { destruct Hkind as [Hs | Hn].
        - apply comparable_strings. intros e He. apply column_values_In in He.
          destruct He as [col [c [Hcol [Hc ->]]]].
          destruct (Hs col c Hcol Hc) as [s ->]. simpl. eauto.
        - unfold comparable.
          replace (forallb is_missing _) with true; [now rewrite orb_true_r |].
          symmetry. apply forallb_forall. intros e He. apply column_values_In in He.
          destruct He as [col [c [Hcol [Hc ->]]]]. now rewrite (Hn col c Hcol Hc). }
      destruct columns as [| c0 columns]; [congruence |].
      unfold np_unique. rewrite Hcmp. eexists. split; [reflexivity |].
      intros v. rewrite sort_unique_In. apply column_values_In.
Qed.

(** * The grouping columns after folding *)

Lemma get_field_filter_raise (P : string * entry -> bool) (r : record)
  (col : string) (e : exn) :
  get_field r col = Raise e -> get_field (filter P r) col = Raise e.
Proof.
  induction r as [| [c v] r IH]; simpl; [auto |].
  destruct (String.eqb c col) eqn:E; [discriminate |].
  intros H. destruct (P (c, v)); simpl; [rewrite E |]; auto.
Qed.

Lemma get_field_filter_removed (r : record) (col : string) :
  get_field (filter (fun cv => negb (String.eqb (fst cv) col)) r) col
  = Raise (KeyError col).
Proof.
  induction r as [| [c v] r IH]; simpl; [reflexivity |].
  destruct (String.eqb c col) eqn:E; simpl; [exact IH |].
  now rewrite E.
Qed.

Lemma del_fields_raise_kept (wg : list string) (r r' : record) (col : string)
  (e : exn) :
  del_fields wg r = Ok r' -> get_field r col = Raise e ->
  get_field r' col = Raise e.
Proof.
  revert r. induction wg as [| c wg IH]; intros r; simpl.
  - intros E. injection E as <-. auto.
  - unfold del_field. destruct (get_field r c); simpl; [| discriminate].
    intros E H. apply (IH _ E). now apply get_field_filter_raise.
Qed.

Lemma del_fields_removed (wg : list string) (r r' : record) (col : string) :
  del_fields wg r = Ok r' -> In col wg ->
  get_field r' col = Raise (KeyError col).
Proof.
  revert r. induction wg as [| c wg IH]; intros r; simpl; [tauto |].
  unfold del_field. destruct (get_field r c); simpl; [| discriminate].
  intros E [-> | Hin].
  - apply (del_fields_raise_kept _ _ _ _ _ E). apply get_field_filter_removed.
  - now apply (IH _ E).
Qed.

(** When grouping columns are given, every row of the returned table holds
    in column [within_group] the tuple of the normalised grouping values of a
    receptor-bearing cell, in the order of the grouping columns, and no
    longer has the grouping columns themselves. *)
Theorem within_group_column_folded :
  forall (_is_na : string -> bool) (cfg : Config) (adata : AnnData)
         (tbl : DataFrame * list (list string)) (wg : list string),
    _make_clonotype_table _is_na cfg adata = Ok tbl ->
    within_group cfg = Some wg ->
    forall r, In r (fst tbl) ->
      exists c,
        In c (obs adata) /\ has_ir c = true /\
        get_field r "within_group"
        = Ok (ETuple (map (fun col => normalize _is_na (field c col)) wg)) /\
        forall col, In col wg -> col <> "within_group" ->
                    get_field r col = Raise (KeyError col).
Proof.
  intros _is_na cfg adata tbl wg E Ewg r Hr.
  destruct (make_clonotype_table_inv _is_na cfg adata tbl E) as [_ [_ [ET _]]].
  rewrite Ewg in ET.
  destruct (mapM_In _ _ _ _ ET Hr) as [r0 [Hr0 Ef]].
  apply grouped_rows in Hr0. destruct Hr0 as [c [Hc [Hir ->]]].
  exists c. split; [assumption |]. split; [assumption |].
  assert (Hsub : forall col, In col wg -> In col (clonotype_cols cfg)).
  { intros col Hcol. unfold clonotype_cols. rewrite Ewg.
    apply in_or_app. right. apply in_or_app. now right. }
  unfold fold_within_group in Ef. unfold filtered_row in Ef at 1.
  rewrite (mapM_tabulate_fields
             (fun col => EStr (normalize _is_na (field c col)))) in Ef by exact Hsub.
  cbn [bind] in Ef.
  destruct (del_fields wg (filtered_row _is_na cfg c)) as [r1 |] eqn:Ed;
    simpl in Ef; [| discriminate].
  injection Ef as <-. split.
  - rewrite get_field_set_same, map_map. reflexivity.
  - intros col Hcol Hne. rewrite get_field_set_field by assumption.
    now apply (del_fields_removed wg (filtered_row _is_na cfg c)).
Qed.

Lemma within_group_column_folded_witness :
  exists c,
    In c (obs two_patients_adata) /\ has_ir c = true /\
    get_field (hd [] (clonotypes within_patient_engine)) "within_group"
    = Ok (ETuple (map (fun col => normalize is_na_sentinel (field c col))
                      ["patient"])) /\
    forall col, In col ["patient"] -> col <> "within_group" ->
                get_field (hd [] (clonotypes within_patient_engine)) col
                = Raise (KeyError col).
Proof.
  apply (within_group_column_folded is_na_sentinel within_patient_config
           two_patients_adata
           (clonotypes within_patient_engine, cell_indices within_patient_engine)
           ["patient"]).
  - vm_compute. reflexivity.
  - reflexivity.
  - vm_compute. left. reflexivity.
Defined.

(** * The tables the constructor registers *)

(** For every engine returned by the constructor the neighbor finder works
    on the engine's clonotype table, and for every arm and chain under
    consideration the lookup table of that name is registered, is backed by
    the arm's registered distance matrix and has one index per clonotype row;
    the table and the cell indices are those of the table builder. *)
Theorem lookup_tables_registered :
  forall (_is_na : string -> bool) (adata : AnnData) (cfg : Config)
         (self : ClonotypeNeighbors),
    __init__ _is_na adata cfg = Ok self ->
    config self = cfg /\
    _make_clonotype_table _is_na cfg adata
    = Ok (clonotypes self, cell_indices self) /\
    feature_table (neighbor_finder self) = clonotypes self /\
    forall a c, In a (_receptor_arm_cols cfg) -> In c (_dual_ir_cols cfg) ->
      exists t dm,
        dict_find (lookups (neighbor_finder self)) (table_name a c) = Ok t /\
        lt_distance_matrix t = arm_name a /\
        List.length (lt_forward t) = List.length (clonotypes self) /\
        dict_find (distance_matrices (neighbor_finder self)) (arm_name a) = Ok dm.
Proof.
  intros _is_na adata cfg self. unfold __init__, _prepare.
  destruct (dict_find (uns adata) (distance_key cfg)) as [dd |]; simpl; [| discriminate].
  destruct (_make_clonotype_table _is_na cfg adata) as [tbl |] eqn:Et;
    simpl; [| discriminate].
  destruct (_add_distance_matrices cfg dd (fst tbl) adata (new_neighbor_finder (fst tbl)))
    as [nf1 |] eqn:E1; simpl; [| discriminate].
  destruct (_add_lookup_tables cfg nf1) as [nf2 |] eqn:E2; simpl; [| discriminate].
  intros E. injection E as <-. simpl.
  apply (add_distance_matrices_table _is_na) in E1. simpl in E1.
  destruct (add_lookup_tables_ready cfg nf1 nf2 E2) as [F2 R].
  assert (F : feature_table nf2 = fst tbl) by congruence.
  split; [reflexivity |]. split; [now destruct tbl |]. split; [exact F |].
  intros a c Ha Hc.
  destruct (R a c (proj2 (in_product _ _ a c) (conj Ha Hc)))
    as [_ [[t [Et' [Mt Lt]]] [dm Em]]].
  exists t, dm. rewrite F in Lt. auto.
Qed.

Lemma lookup_tables_registered_witness :
  config paired_engine = paired_config /\
  _make_clonotype_table is_na_sentinel paired_config paired_adata
  = Ok (clonotypes paired_engine, cell_indices paired_engine) /\
  feature_table (neighbor_finder paired_engine) = clonotypes paired_engine /\
  forall a c, In a (_receptor_arm_cols paired_config) ->
              In c (_dual_ir_cols paired_config) ->
    exists t dm,
      dict_find (lookups (neighbor_finder paired_engine)) (table_name a c) = Ok t /\
      lt_distance_matrix t = arm_name a /\
      List.length (lt_forward t) = List.length (clonotypes paired_engine) /\
      dict_find (distance_matrices (neighbor_finder paired_engine)) (arm_name a) = Ok dm.
Proof.
  apply (lookup_tables_registered is_na_sentinel paired_adata paired_config
           paired_engine).
  vm_compute. reflexivity.
Defined.

(** * C10: what the clonotype table holds *)








Section ShownRows.

Variable _is_na : string -> bool.
Variable cfg : Config.
Hypothesis Hgroup : valid_grouping cfg.




End ShownRows.




